(** * Calculator repository: a shallow embedding and its properties

    The repository holds two independent programs:
    - [HW8/operations.py] and [HW8/HW8/main.py]: an arithmetic evaluator and
      the HTTP handlers that record every computation in a history store;
    - [calculator/__init__.py]: a command-line calculator with an in-memory
      history.

    Python values are embedded as follows: [int] is [Z], [float] is an IEEE
    binary64 number ([spec_float] at precision 53), [bool] is [bool]; a
    function that can raise returns a [result]; a function that also logs
    returns the log records next to its result; objects that are shared by
    reference live in an explicit heap.  The interpreter is CPython 3.9 to
    3.13; its resource limits (recursion depth, memory, the cap on the
    digits of an integer literal) are not modelled.  The limit on the
    digits of an int that [str] converts (4300 by default, in 3.11 and
    later and in the security releases of 3.9 and 3.10) is modelled, in
    [str_of_int]. *)

From Stdlib Require Import ZArith String Ascii List Bool Lia.
From Stdlib Require Import Floats.SpecFloat DecimalString.
From stdpp Require Import base gmap list strings.

(** ** Python values, exceptions and arithmetic *)

Module Py.

Inductive exn_class :=
| ValueError
| ZeroDivisionError
| OverflowError
| SyntaxError
| OtherException (name : string).

(** An exception object: its class and [str(exc)]. *)
Record exn := Exn { exn_type : exn_class; exn_msg : string }.

Inductive result (A : Type) :=
| Ok (a : A)
| Raise (e : exn).
Arguments Ok {A} a.
Arguments Raise {A} e.

Definition bind {A B} (r : result A) (k : A -> result B) : result B :=
  match r with
  | Ok a => k a
  | Raise e => Raise e
  end.

Definition is_ok {A} (r : result A) : bool :=
  match r with Ok _ => true | Raise _ => false end.

(** [raises r c]: [r] is an exception of class [c]. *)
Definition raises {A} (r : result A) (c : exn_class) : Prop :=
  exists msg, r = Raise (Exn c msg).

Definition exn_class_eqb (c1 c2 : exn_class) : bool :=
  match c1, c2 with
  | ValueError, ValueError => true
  | ZeroDivisionError, ZeroDivisionError => true
  | OverflowError, OverflowError => true
  | SyntaxError, SyntaxError => true
  | OtherException n1, OtherException n2 => String.eqb n1 n2
  | _, _ => false
  end.

(** *** float: IEEE binary64, round to nearest even *)

Definition float := spec_float.
Definition prec : Z := 53.
Definition emax : Z := 1024.

Definition fadd : float -> float -> float := SFadd prec emax.
Definition fsub : float -> float -> float := SFsub prec emax.
Definition fmul : float -> float -> float := SFmul prec emax.
Definition fdiv : float -> float -> float := SFdiv prec emax.
Definition fneg : float -> float := SFopp.

(** The integer [z] as an exact, unrounded binary number. *)
Definition exact_of_Z (z : Z) : float :=
  match z with
  | Z0 => S754_zero false
  | Zpos p => S754_finite false p 0
  | Zneg p => S754_finite true p 0
  end.

(** The binary64 number nearest to [z] (infinite when out of range). *)
Definition float_of_Z (z : Z) : float := binary_normalize prec emax z 0 false.

(** The C test [b == 0.0]. *)
Definition float_is_zero (f : float) : bool :=
  match f with S754_zero _ => true | _ => false end.

(** The value [m * 10^e] of a decimal literal, correctly rounded. *)
Definition float_of_decimal (m e : Z) : float :=
  if (0 <=? e)%Z then float_of_Z (m * 10 ^ e)
  else fdiv (exact_of_Z m) (exact_of_Z (10 ^ (- e))).

(** [float.is_integer()] *)
Definition float_is_integer (f : float) : bool :=
  match f with
  | S754_zero _ => true
  | S754_finite _ m e =>
      if (0 <=? e)%Z then true else (Z.pos m mod 2 ^ (- e) =? 0)%Z
  | _ => false
  end.

(** [int(f)] for a float: truncation; infinities and NaN raise. *)
Definition int_of_float (f : float) : result Z :=
  match f with
  | S754_zero _ => Ok 0%Z
  | S754_finite s m e =>
      let a := if (0 <=? e)%Z then (Z.pos m * 2 ^ e)%Z
               else (Z.pos m / 2 ^ (- e))%Z in
      Ok (if s then (- a)%Z else a)
  | S754_infinity _ =>
      Raise (Exn OverflowError "cannot convert float infinity to integer")
  | S754_nan => Raise (Exn ValueError "cannot convert float NaN to integer")
  end.

(** *** Numbers *)

Inductive value :=
| VInt (z : Z)
| VFloat (f : float)
| VBool (b : bool).

(** [isinstance(v, float)] *)
Definition is_float (v : value) : bool :=
  match v with VFloat _ => true | _ => false end.

(** The integer behind an [int] or a [bool] ([bool] is a subclass of
    [int]); [None] for a float. *)
Definition as_int (v : value) : option Z :=
  match v with
  | VInt z => Some z
  | VBool b => Some (Z.b2z b)
  | VFloat _ => None
  end.

(** Conversion of an [int] to a C double, as the float operations do it. *)
Definition long_as_double (z : Z) : result float :=
  match float_of_Z z with
  | S754_infinity _ => Raise (Exn OverflowError "int too large to convert to float")
  | f => Ok f
  end.

Definition to_double (v : value) : result float :=
  match v with
  | VFloat f => Ok f
  | VInt z => long_as_double z
  | VBool b => long_as_double (Z.b2z b)
  end.

(** [float(v)] for a number. *)
Definition to_float (v : value) : result value :=
  bind (to_double v) (fun f => Ok (VFloat f)).

(** [int / int]: the correctly rounded quotient. *)
Definition long_true_divide (a b : Z) : result value :=
  if (b =? 0)%Z then Raise (Exn ZeroDivisionError "division by zero")
  else
    match fdiv (exact_of_Z a) (exact_of_Z b) with
    | S754_infinity _ =>
        Raise (Exn OverflowError "integer division result too large for a float")
    | f => Ok (VFloat f)
    end.

(** A binary arithmetic operator: on two ints the int operation, otherwise
    both operands are converted (left first) and the float operation runs. *)
Definition arith (fi : Z -> Z -> result value)
    (ff : float -> float -> result value) (a b : value) : result value :=
  match as_int a, as_int b with
  | Some x, Some y => fi x y
  | _, _ =>
      bind (to_double a) (fun x =>
      bind (to_double b) (fun y => ff x y))
  end.

(** [operator.add], [operator.sub], [operator.mul], [operator.truediv] *)
Definition add : value -> value -> result value :=
  arith (fun x y => Ok (VInt (x + y))) (fun x y => Ok (VFloat (fadd x y))).
Definition sub : value -> value -> result value :=
  arith (fun x y => Ok (VInt (x - y))) (fun x y => Ok (VFloat (fsub x y))).
Definition mul : value -> value -> result value :=
  arith (fun x y => Ok (VInt (x * y))) (fun x y => Ok (VFloat (fmul x y))).
Definition truediv : value -> value -> result value :=
  arith long_true_divide
    (fun x y =>
       if float_is_zero y
       then Raise (Exn ZeroDivisionError "float division by zero")
       else Ok (VFloat (fdiv x y))).

(** Unary [+v] and [-v]. *)
Definition pos (v : value) : value :=
  match v with
  | VInt z => VInt z
  | VBool b => VInt (Z.b2z b)
  | VFloat f => VFloat f
  end.

Definition neg (v : value) : value :=
  match v with
  | VInt z => VInt (- z)
  | VBool b => VInt (- Z.b2z b)
  | VFloat f => VFloat (fneg f)
  end.

(** The decimal notation of [z]. *)
Definition str_int (z : Z) : string := NilZero.string_of_int (Z.to_int z).

(** [sys.get_int_max_str_digits()], at its default: the greatest number
    of digits of an int that is converted to text. *)
Definition int_max_str_digits : Z := 4300.

Definition fits_str_digits (z : Z) : bool :=
  (Z.abs z <? 10 ^ int_max_str_digits)%Z.

Definition digits_limit_error : exn :=
  Exn ValueError
    ("Exceeds the limit (4300 digits) for integer string conversion; "
     +:+ "use sys.set_int_max_str_digits() to increase the limit").

(** [str(z)] for an int: ValueError when [z] has more digits than the
    limit. *)
Definition str_of_int (z : Z) : result string :=
  if fits_str_digits z then Ok (str_int z) else Raise digits_limit_error.

End Py.

Notation "'let!' x ':=' e 'in' k" := (Py.bind e (fun x => k))
  (at level 10, x name, e at level 100, k at level 200).

(** ** The [ast] module: trees and a model of [ast.parse] *)

Module Ast.

Inductive operator :=
| Add | Sub | Mult | MatMult | Div | Mod | Pow
| LShift | RShift | BitOr | BitXor | BitAnd | FloorDiv.

Inductive unaryop := Invert | Not | UAdd | USub.

(** The value carried by an [ast.Constant]. *)
Inductive constant :=
| CInt (z : Z)
| CFloat (f : Py.float)
| CBool (b : bool)
| CComplex (imag : Py.float)
| CStr (s : string)
| CBytes (s : string)
| CNone
| CEllipsis.

(** The nodes [_eval_node] tells apart; [OtherNode cls] is a node of any
    other class of the [ast] module ([Name], [Call], [Compare], ...), whose
    children are never visited. *)
Inductive node :=
| Expression (body : node)
| BinOp (left : node) (op : operator) (right : node)
| UnaryOp (op : unaryop) (operand : node)
| Constant (value : constant)
| OtherNode (cls : string).

Definition operator_name (op : operator) : string :=
  match op with
  | Add => "Add" | Sub => "Sub" | Mult => "Mult" | MatMult => "MatMult"
  | Div => "Div" | Mod => "Mod" | Pow => "Pow" | LShift => "LShift"
  | RShift => "RShift" | BitOr => "BitOr" | BitXor => "BitXor"
  | BitAnd => "BitAnd" | FloorDiv => "FloorDiv"
  end.

(** [str(cls)] for a class of the [ast] module. *)
Definition class_repr (name : string) : string :=
  "<class 'ast." +:+ name +:+ "'>".

Definition node_class (n : node) : string :=
  match n with
  | Expression _ => "Expression"
  | BinOp _ _ _ => "BinOp"
  | UnaryOp _ _ => "UnaryOp"
  | Constant _ => "Constant"
  | OtherNode cls => cls
  end.

End Ast.

(** A model of [ast.parse(expr, mode="eval")] on the strings made of decimal
    number literals, the operators [+ - * / // % **], parentheses and
    spaces.  [ast_parse_model s = Some t] says that CPython parses [s] to
    the tree [t]; [None] covers the strings CPython rejects and every
    string outside this fragment. *)

Module PyParser.
Import Ast.

Inductive token :=
| TNum (c : constant)
| TPlus | TMinus | TStar | TSlash
| TDoubleStar | TDoubleSlash | TPercent
| TLPar | TRPar.

Definition is_digit (c : ascii) : bool :=
  (48 <=? nat_of_ascii c)%nat && (nat_of_ascii c <=? 57)%nat.

Definition digit_val (c : ascii) : Z := Z.of_nat (nat_of_ascii c - 48).

Definition is_e (c : ascii) : bool :=
  Ascii.eqb c "e" || Ascii.eqb c "E".

(** The longest prefix of digits, and what follows it. *)
Fixpoint span_digits (s : list ascii) : list ascii * list ascii :=
  match s with
  | c :: r =>
      if is_digit c
      then let '(ds, r') := span_digits r in (c :: ds, r')
      else ([], s)
  | [] => ([], [])
  end.

Definition digits_value (ds : list ascii) : Z :=
  fold_left (fun a c => (10 * a + digit_val c)%Z) ds 0%Z.

(** The exponent part [e|E [+|-] digit+] of a float literal. *)
Definition lex_exponent (s : list ascii) : option (Z * list ascii) :=
  match s with
  | c :: r =>
      if is_e c then
        let '(sgn, r1) :=
          match r with
          | c2 :: r' =>
              if Ascii.eqb c2 "+" then (1%Z, r')
              else if Ascii.eqb c2 "-" then ((-1)%Z, r')
              else (1%Z, r)
          | [] => (1%Z, r)
          end in
        let '(ds, r2) := span_digits r1 in
        match ds with
        | [] => None
        | _ => Some ((sgn * digits_value ds)%Z, r2)
        end
      else None
  | [] => None
  end.

(** A decimal integer literal has no leading zero, unless it is all zeros. *)
Definition valid_decinteger (ds : list ascii) : bool :=
  match ds with
  | c :: _ => if Ascii.eqb c "0" then forallb (Ascii.eqb "0") ds else true
  | [] => true
  end.

Definition float_literal (ip fp : list ascii) (ex : Z) : constant :=
  CFloat (Py.float_of_decimal (digits_value (ip ++ fp))
            (ex - Z.of_nat (length fp))).

(** The fraction [. digit*] of a float literal, when there is one. *)
Definition lex_fraction (s : list ascii) : bool * list ascii * list ascii :=
  match s with
  | c :: r =>
      if Ascii.eqb c "."
      then let '(fp, r') := span_digits r in (true, fp, r')
      else (false, [], s)
  | [] => (false, [], s)
  end.

(** A number literal at the head of [s]: digits, an optional point and
    fraction, an optional exponent. *)
Definition lex_number (s : list ascii) : option (constant * list ascii) :=
  let '(ip, r1) := span_digits s in
  let '(point, fp, r2) := lex_fraction r1 in
  match ip, fp with
  | [], [] => None
  | _, _ =>
      match lex_exponent r2 with
      | Some (ex, r3) => Some (float_literal ip fp ex, r3)
      | None =>
          if point then Some (float_literal ip fp 0, r2)
          else if valid_decinteger ip then Some (CInt (digits_value ip), r2)
          else None
      end
  end.

(** One step of the tokenizer on a non-empty input: a token, or a space
    skipped ([None]), and the rest of the input. *)
Definition scan (s : list ascii) : option (option token * list ascii) :=
  match s with
  | [] => None
  | c :: r =>
      if is_digit c || Ascii.eqb c "." then
        match lex_number s with
        | Some (k, r') => Some (Some (TNum k), r')
        | None => None
        end
      else if Ascii.eqb c " " then Some (None, r)
      else if Ascii.eqb c "+" then Some (Some TPlus, r)
      else if Ascii.eqb c "-" then Some (Some TMinus, r)
      else if Ascii.eqb c "(" then Some (Some TLPar, r)
      else if Ascii.eqb c ")" then Some (Some TRPar, r)
      else if Ascii.eqb c "%" then Some (Some TPercent, r)
      else if Ascii.eqb c "*" then
        match r with
        | c2 :: r' =>
            if Ascii.eqb c2 "*" then Some (Some TDoubleStar, r')
            else Some (Some TStar, r)
        | [] => Some (Some TStar, r)
        end
      else if Ascii.eqb c "/" then
        match r with
        | c2 :: r' =>
            if Ascii.eqb c2 "/" then Some (Some TDoubleSlash, r')
            else Some (Some TSlash, r)
        | [] => Some (Some TSlash, r)
        end
      else None
  end.

Definition cons_token (t : token) (r : option (list token)) : option (list token) :=
  match r with
  | Some ts => Some (t :: ts)
  | None => None
  end.

Fixpoint lex (fuel : nat) (s : list ascii) : option (list token) :=
  match fuel with
  | O => None
  | S n =>
      match s with
      | [] => Some []
      | _ =>
          match scan s with
          | Some (Some t, r) => cons_token t (lex n r)
          | Some (None, r) => lex n r
          | None => None
          end
      end
  end.

(** The expression grammar of Python on these tokens:
<<
   sum    := sum ('+'|'-') term | term
   term   := term ('*'|'/'|'//'|'%') factor | factor
   factor := ('+'|'-') factor | power
   power  := atom '**' factor | atom
   atom   := NUMBER | '(' sum ')'
>>
    Left recursion is parsed by the loops [sum_rest] and [term_rest]. *)

Definition addop_of (t : token) : option operator :=
  match t with
  | TPlus => Some Add
  | TMinus => Some Sub
  | _ => None
  end.

Definition mulop_of (t : token) : option operator :=
  match t with
  | TStar => Some Mult
  | TSlash => Some Div
  | TDoubleSlash => Some FloorDiv
  | TPercent => Some Mod
  | _ => None
  end.

Definition parsed := option (node * list token).

Fixpoint parse_sum (n : nat) (ts : list token) {struct n} : parsed :=
  match n with
  | O => None
  | S n' =>
      match parse_term n' ts with
      | Some (l, r) => sum_rest n' l r
      | None => None
      end
  end
with sum_rest (n : nat) (l : node) (ts : list token) {struct n} : parsed :=
  match n with
  | O => None
  | S n' =>
      match ts with
      | [] => Some (l, [])
      | t :: r =>
          match addop_of t with
          | Some op =>
              match parse_term n' r with
              | Some (x, r') => sum_rest n' (BinOp l op x) r'
              | None => None
              end
          | None => Some (l, ts)
          end
      end
  end
with parse_term (n : nat) (ts : list token) {struct n} : parsed :=
  match n with
  | O => None
  | S n' =>
      match parse_factor n' ts with
      | Some (l, r) => term_rest n' l r
      | None => None
      end
  end
with term_rest (n : nat) (l : node) (ts : list token) {struct n} : parsed :=
  match n with
  | O => None
  | S n' =>
      match ts with
      | [] => Some (l, [])
      | t :: r =>
          match mulop_of t with
          | Some op =>
              match parse_factor n' r with
              | Some (x, r') => term_rest n' (BinOp l op x) r'
              | None => None
              end
          | None => Some (l, ts)
          end
      end
  end
with parse_factor (n : nat) (ts : list token) {struct n} : parsed :=
  match n with
  | O => None
  | S n' =>
      match ts with
      | TPlus :: r =>
          match parse_factor n' r with
          | Some (x, r') => Some (UnaryOp UAdd x, r')
          | None => None
          end
      | TMinus :: r =>
          match parse_factor n' r with
          | Some (x, r') => Some (UnaryOp USub x, r')
          | None => None
          end
      | _ => parse_power n' ts
      end
  end
with parse_power (n : nat) (ts : list token) {struct n} : parsed :=
  match n with
  | O => None
  | S n' =>
      match parse_atom n' ts with
      | Some (a, TDoubleStar :: r) =>
          match parse_factor n' r with
          | Some (x, r') => Some (BinOp a Pow x, r')
          | None => None
          end
      | other => other
      end
  end
with parse_atom (n : nat) (ts : list token) {struct n} : parsed :=
  match n with
  | O => None
  | S n' =>
      match ts with
      | TNum c :: r => Some (Constant c, r)
      | TLPar :: r =>
          match parse_sum n' r with
          | Some (e, TRPar :: r') => Some (e, r')
          | _ => None
          end
      | _ => None
      end
  end.

(** Fuel that suffices for every token list of this length. *)
Definition parse_fuel (ts : list token) : nat := 7 * length ts + 2.

Definition parse_tokens (ts : list token) : option node :=
  match parse_sum (parse_fuel ts) ts with
  | Some (e, []) => Some (Expression e)
  | _ => None
  end.

Definition starts_with_space (cs : list ascii) : bool :=
  match cs with
  | c :: _ => Ascii.eqb c " "
  | [] => false
  end.

(** In mode "eval" a leading space is an indentation error. *)
Definition ast_parse_model (s : string) : option node :=
  let cs := list_ascii_of_string s in
  if starts_with_space cs then None
  else
    match lex (S (length cs)) cs with
    | Some ts => parse_tokens ts
    | None => None
    end.

(** *** Where a token ends and what may follow it *)

(** No digit begins [k]. *)
Definition digits_end (k : list ascii) : bool :=
  match k with
  | c :: _ => negb (is_digit c)
  | [] => true
  end.

(** Nothing that could continue a number begins [k]. *)
Definition number_end (k : list ascii) : bool :=
  match k with
  | c :: _ => negb (is_digit c) && negb (Ascii.eqb c ".") && negb (is_e c)
  | [] => true
  end.

(** What can follow an operand: nothing, a space, an operator of the
    grammar or a closing parenthesis. *)
Definition operand_end (k : list ascii) : bool :=
  match k with
  | c :: _ =>
      Ascii.eqb c " " || Ascii.eqb c "+" || Ascii.eqb c "-"
      || Ascii.eqb c "*" || Ascii.eqb c "/" || Ascii.eqb c ")"
  | [] => true
  end.

(** What begins an operand, or separates it from the operator before. *)
Definition operand_start (k : list ascii) : bool :=
  match k with
  | c :: _ =>
      is_digit c || Ascii.eqb c "." || Ascii.eqb c " "
      || Ascii.eqb c "+" || Ascii.eqb c "-" || Ascii.eqb c "("
  | [] => false
  end.

(** The tokens of a whole input. *)
Definition lex_all (s : list ascii) : option (list token) := lex (S (length s)) s.

Definition map_tokens (f : list token -> list token) (r : option (list token))
  : option (list token) :=
  match r with
  | Some ts => Some (f ts)
  | None => None
  end.

(** What can follow a factor, a term, a sum. *)
Definition stops_factor (k : list token) : bool :=
  match k with
  | [] => true
  | (TPlus | TMinus | TStar | TSlash | TRPar) :: _ => true
  | _ => false
  end.

Definition stops_term (k : list token) : bool :=
  match k with
  | [] => true
  | (TPlus | TMinus | TRPar) :: _ => true
  | _ => false
  end.

Definition stops_sum (k : list token) : bool :=
  match k with
  | [] => true
  | TRPar :: _ => true
  | _ => false
  end.

(** What is assumed of [ast.parse]: it parses the strings of the fragment
    as the model says. *)
Definition agrees_with_model (ast_parse : string -> Py.result node) : Prop :=
  forall s t, ast_parse_model s = Some t -> ast_parse s = Py.Ok t.

(** The parser that knows the fragment and nothing else. *)
Definition parse_or_reject (s : string) : Py.result node :=
  match ast_parse_model s with
  | Some t => Py.Ok t
  | None => Py.Raise (Py.Exn Py.SyntaxError "invalid syntax")
  end.

End PyParser.

(** ** HW8/operations.py *)

Module Operations.
Import Py Ast.

(** *** Logging: the records handed to [logger], in order *)

Inductive level := DEBUG | INFO | ERROR.

Inductive log_arg :=
| AStr (s : string)
| AValue (v : value)
| AOp (op : operator)
| AExn (e : exn).

(** [log_exc] is the exception attached by [logger.exception]. *)
Record log_record := Log {
  log_level : level;
  log_format : string;
  log_args : list log_arg;
  log_exc : option exn
}.

(** A computation that logs and then returns or raises. *)
Definition M (A : Type) : Type := list log_record * result A.

Definition ret {A} (a : A) : M A := ([], Ok a).
Definition raise {A} (e : exn) : M A := ([], Raise e).
Definition lift {A} (r : result A) : M A := ([], r).
Definition log (l : level) (fmt : string) (args : list log_arg) : M unit :=
  ([Log l fmt args None], Ok tt).

Definition bindM {A B} (m : M A) (k : A -> M B) : M B :=
  match m with
  | (l1, Ok a) => let '(l2, r) := k a in (l1 ++ l2, r)
  | (l1, Raise e) => (l1, Raise e)
  end.

(** [try: m except Exception as e: handler e] *)
Definition try_except {A} (m : M A) (handler : exn -> M A) : M A :=
  match m with
  | (l1, Ok a) => (l1, Ok a)
  | (l1, Raise e) => let '(l2, r) := handler e in (l1 ++ l2, r)
  end.

Definition outcome {A} (m : M A) : result A := snd m.
Definition logged {A} (m : M A) : list log_record := fst m.

Notation "'let*' x ':=' e 'in' k" := (bindM e (fun x => k))
  (at level 10, x name, e at level 100, k at level 200).
Notation "e1 ';;' e2" := (bindM e1 (fun _ => e2))
  (at level 100, e2 at level 200, right associativity).

(** [_OPS]: the supported operators, by the class of [node.op]. *)
Definition _OPS (op : operator) : option (value -> value -> result value) :=
  match op with
  | Add => Some add
  | Sub => Some sub
  | Mult => Some mul
  | Div => Some truediv
  | _ => None
  end.

(** [isinstance(node.value, (int, float))], with the value when it holds. *)
Definition numeric_constant (c : constant) : option value :=
  match c with
  | CInt z => Some (VInt z)
  | CFloat f => Some (VFloat f)
  | CBool b => Some (VBool b)
  | _ => None
  end.

(** [_eval_node].  The test for the deprecated alias [ast.Num] comes after
    the test for [ast.Constant], which every number node passes, so it
    selects no node of its own. *)
Fixpoint _eval_node (node : node) : M value :=
  match node with
  | Expression body => _eval_node body
  | BinOp l op r =>
      let* left := _eval_node l in
      let* right := _eval_node r in
      match _OPS op with
      | Some f =>
          let* result := lift (f left right) in
          log DEBUG "Eval BinOp: %s %s %s -> %s"
            [AValue left; AOp op; AValue right; AValue result];;
          ret result
      | None =>
          raise (Exn ValueError
                   ("Unsupported operator: " +:+ class_repr (operator_name op)))
      end
  | UnaryOp UAdd operand =>
      let* val := _eval_node operand in ret (pos val)
  | UnaryOp USub operand =>
      let* val := _eval_node operand in ret (neg val)
  | Constant c =>
      match numeric_constant c with
      | Some v => ret v
      | None => raise (Exn ValueError "Only numeric constants allowed")
      end
  | other =>
      raise (Exn ValueError
               ("Unsupported expression node: " +:+ class_repr (node_class other)))
  end.

(** *** What the properties of [_eval_node] speak of *)

(** The tree contains a binary operator outside [_OPS] or a constant that
    is not a number. *)
Inductive offending : node -> Prop :=
| offending_operator l op r : _OPS op = None -> offending (BinOp l op r)
| offending_constant c : numeric_constant c = None -> offending (Constant c)
| offending_body b : offending b -> offending (Expression b)
| offending_left l op r : offending l -> offending (BinOp l op r)
| offending_right l op r : offending r -> offending (BinOp l op r)
| offending_operand op t : offending t -> offending (UnaryOp op t).

(** No supported operation of the tree raises on the values of its
    operands. *)
Fixpoint arithmetic_succeeds (t : node) : Prop :=
  match t with
  | Expression b => arithmetic_succeeds b
  | BinOp l op r =>
      arithmetic_succeeds l /\ arithmetic_succeeds r
      /\ forall f x y,
           _OPS op = Some f ->
           outcome (_eval_node l) = Ok x -> outcome (_eval_node r) = Ok y ->
           is_ok (f x y) = true
  | UnaryOp _ t => arithmetic_succeeds t
  | _ => True
  end.

(** The division [a / b] has a zero divisor: the int [b] is zero, or,
    once both operands are converted to float, the float [b] is zero. *)
Definition zero_divisor (a b : value) : bool :=
  match as_int a, as_int b with
  | Some _, Some y => (y =? 0)%Z
  | _, _ =>
      match to_double a, to_double b with
      | Ok _, Ok y => float_is_zero y
      | _, _ => false
      end
  end.

(** The reduction of the tree, in the order of [_eval_node], comes to a
    division with a zero divisor. *)
Inductive divides_by_zero : node -> Prop :=
| divides_here l r x y :
    outcome (_eval_node l) = Ok x -> outcome (_eval_node r) = Ok y ->
    zero_divisor x y = true -> divides_by_zero (BinOp l Div r)
| divides_left l op r : divides_by_zero l -> divides_by_zero (BinOp l op r)
| divides_right l op r x :
    outcome (_eval_node l) = Ok x -> divides_by_zero r ->
    divides_by_zero (BinOp l op r)
| divides_uadd t : divides_by_zero t -> divides_by_zero (UnaryOp UAdd t)
| divides_usub t : divides_by_zero t -> divides_by_zero (UnaryOp USub t)
| divides_body b : divides_by_zero b -> divides_by_zero (Expression b).

(** The reduction of the tree, in the order of [_eval_node] (left
    operand, right operand, then the operator), comes to a binary operator
    outside [_OPS] or to a constant that is not a number, and nothing has
    raised before. *)
Inductive meets_unsupported : node -> Prop :=
| meets_operator l op r x y :
    outcome (_eval_node l) = Ok x -> outcome (_eval_node r) = Ok y ->
    _OPS op = None -> meets_unsupported (BinOp l op r)
| meets_constant c : numeric_constant c = None -> meets_unsupported (Constant c)
| meets_left l op r : meets_unsupported l -> meets_unsupported (BinOp l op r)
| meets_right l op r x :
    outcome (_eval_node l) = Ok x -> meets_unsupported r ->
    meets_unsupported (BinOp l op r)
| meets_uadd t : meets_unsupported t -> meets_unsupported (UnaryOp UAdd t)
| meets_usub t : meets_unsupported t -> meets_unsupported (UnaryOp USub t)
| meets_body b : meets_unsupported b -> meets_unsupported (Expression b).

(** The value of a tree of integer constants under [+], [-], [*] and the
    two signs, in the integers; [None] for any other tree. *)
Fixpoint integer_value (t : node) : option Z :=
  match t with
  | Expression b => integer_value b
  | BinOp l op r =>
      match integer_value l, integer_value r with
      | Some x, Some y =>
          match op with
          | Add => Some (x + y)%Z
          | Sub => Some (x - y)%Z
          | Mult => Some (x * y)%Z
          | _ => None
          end
      | _, _ => None
      end
  | UnaryOp UAdd t => integer_value t
  | UnaryOp USub t => option_map Z.opp (integer_value t)
  | Constant (CInt z) => Some z
  | _ => None
  end.

(** The tree has only nodes that [_eval_node] accepts: operators of
    [_OPS], the two signs, numbers. *)
Fixpoint supported (t : node) : bool :=
  match t with
  | Expression b => supported b
  | BinOp l op r =>
      match _OPS op with Some _ => true | None => false end
      && supported l && supported r
  | UnaryOp UAdd t => supported t
  | UnaryOp USub t => supported t
  | Constant c => match numeric_constant c with Some _ => true | None => false end
  | _ => false
  end.

(** The number of binary operations of a tree. *)
Fixpoint binops (t : node) : nat :=
  match t with
  | Expression b => binops b
  | BinOp l _ r => S (binops l + binops r)
  | UnaryOp _ t => binops t
  | _ => 0
  end.

Definition is_error_record (r : log_record) : bool :=
  match log_level r with ERROR => true | _ => false end.

(** The number of records logged at the level ERROR. *)
Definition error_count {A} (m : M A) : nat :=
  length (List.filter is_error_record (logged m)).

Section Evaluate.

(** [ast.parse(expr, mode="eval")], a function of the interpreter. *)
Variable ast_parse : string -> result node.

Definition evaluate_expression (expr : string) : M value :=
  log INFO "Evaluating expression: %s" [AStr expr];;
  try_except
    (let* node := lift (ast_parse expr) in
     let* result := _eval_node node in
     log INFO "Evaluated expression result: %s -> %s" [AStr expr; AValue result];;
     ret result)
    (fun e =>
       log ERROR "Failed to evaluate expression '%s': %s" [AStr expr; AExn e];;
       raise e).

End Evaluate.

(** The dictionary [ops] of [calculate]. *)
Definition ops : gmap string (value -> value -> result value) :=
  <["+" := add]> (<["-" := sub]> (<["*" := mul]> (<["/" := truediv]> ∅))).

Definition calculate (first last : value) (operator_symbol : string) : M value :=
  log INFO "Calculate: %s %s %s" [AValue first; AStr operator_symbol; AValue last];;
  match ops !! operator_symbol with
  | None =>
      log ERROR "Unsupported operator: %s" [AStr operator_symbol];;
      raise (Exn ValueError "only simple math requiert")
  | Some f =>
      try_except
        (let* result := lift (f first last) in
         log INFO "Calculation result: %s" [AValue result];;
         ret result)
        (fun e =>
           ([Log ERROR "Error during calculation" [] (Some e)], Raise e))
  end.

End Operations.

(** ** HW8/HW8/main.py *)

Module Main.
Import Py Ast Operations.

(** A document of the history store, as [History.save] writes it. *)
Record entry := Entry {
  entry_operation : string;
  entry_result : string;
  entry_created_at : string;
  entry_id : string
}.

(** The three keys of the dictionary [responce]. *)
Record responce := Responce {
  r_result : string;
  r_operation : string;
  r_uid : string
}.

Section Handlers.

(** Functions of the interpreter and its libraries. *)
Variable ast_parse : string -> result node.
(** [str(f)] for a float *)
Variable float_repr : float -> string.
Variable datetime : Type.
Variable isoformat : datetime -> string.

(** The fields [first] and [last] of [CalcPostRequest], whose declaration
    is in the module [models]: [float(x)] and [str(x)] for such a field. *)
Variable field : Type.
Variable float_of_field : field -> result float.
Variable str_of_field : field -> string.

(** What a request draws from its environment: [datetime.datetime.now()]
    and [str(uuid.uuid4())]. *)
Record env := Env { now : datetime; uuid4 : string }.

(** [str(v)] for a number. *)
Definition str_value (v : value) : result string :=
  match v with
  | VInt z => str_of_int z
  | VFloat f => Ok (float_repr f)
  | VBool true => Ok "True"
  | VBool false => Ok "False"
  end.

(** *** The in-memory [History] class; [History._store] is the state *)

Record History := {
  self_operation : string;
  self_result : string;
  self_created_at : datetime;
  self_id : string
}.

Definition History_init (e : env) (operation result_ : string)
    (created_at : option datetime) : History :=
  {| self_operation := operation;
     self_result := result_;
     self_created_at := default (now e) created_at;
     self_id := uuid4 e |}.

(** The object that [save] returns. *)
Record Saved := { saved_id : string }.

(** [save] appends one entry and returns an object carrying the id. *)
Definition save (self : History) (_store : list entry) : Saved * list entry :=
  let entry := {| entry_operation := self_operation self;
                  entry_result := self_result self;
                  entry_created_at := isoformat (self_created_at self);
                  entry_id := self_id self |} in
  ({| saved_id := self_id self |}, _store ++ [entry]).

(** [History.objects().to_json()] followed by [json.loads]: the list of the
    stored documents, field by field. *)
Definition objects_to_json (_store : list entry) : list entry :=
  map (fun e => {| entry_operation := entry_operation e;
                   entry_result := entry_result e;
                   entry_created_at := entry_created_at e;
                   entry_id := entry_id e |}) _store.

(** The entry that a calculation request saves. *)
Definition saved_entry (e : env) (operation res : string) : entry :=
  {| entry_operation := operation;
     entry_result := res;
     entry_created_at := isoformat (now e);
     entry_id := uuid4 e |}.

(** *** The handlers: each returns its value, or the exception it raised,
    and the store it leaves *)

Definition get_history (_store : list entry) : result (list entry) * list entry :=
  (Ok (objects_to_json _store), _store).

(** [_fmt] of [get_calc].  The int of a float has at most 309 digits, far
    from the limit of [str]. *)
Definition _fmt (v : value) : result string :=
  let attempt :=
    match v with
    | VFloat f =>
        if float_is_integer f
        then let! z := int_of_float f in Ok (Some (str_int z))
        else Ok None
    | _ => Ok None
    end in
  match attempt with
  | Ok (Some s) => Ok s
  | Ok None => str_value v
  | Raise _ => str_value v
  end.

(** [str(s)] for a string *)
Definition str_of_str (s : string) : string := s.

(** Assignments to the keys of [responce]. *)
Definition set_result (r : responce) (v : string) : responce :=
  {| r_result := v; r_operation := r_operation r; r_uid := r_uid r |}.
Definition set_operation (r : responce) (v : string) : responce :=
  {| r_result := r_result r; r_operation := v; r_uid := r_uid r |}.
Definition set_uid (r : responce) (v : string) : responce :=
  {| r_result := r_result r; r_operation := r_operation r; r_uid := v |}.

Definition get_calc (e : env) (expression : string) (_store : list entry)
  : result responce * list entry :=
  let responce := {| r_result := ""; r_operation := ""; r_uid := "" |} in
  match (let! res := outcome (evaluate_expression ast_parse expression) in
         _fmt res) with
  | Raise exc => (Raise exc, _store)
  | Ok formatted =>
      let responce := set_result responce formatted in
      let responce := set_operation responce expression in
      let '(saved_operation, _store') :=
        save (History_init e (str_of_str expression)
                (str_of_str (r_result responce)) None) _store in
      let responce := set_uid responce (str_of_str (saved_id saved_operation)) in
      (Ok responce, _store')
  end.

(** The formatting written inline in [post_calc]. *)
Definition post_fmt (res : value) : result string :=
  let attempt :=
    match res with
    | VFloat f =>
        if float_is_integer f
        then let! z := int_of_float f in Ok (str_int z)
        else str_value res
    | _ => str_value res
    end in
  match attempt with
  | Ok s => Ok s
  | Raise _ => str_value res
  end.

Definition post_calc (e : env) (first last : field) (op : string)
    (_store : list entry) : result responce * list entry :=
  let responce := {| r_result := ""; r_operation := ""; r_uid := "" |} in
  let computed :=
    let! x := float_of_field first in
    let! y := float_of_field last in
    let! res := outcome (calculate (VFloat x) (VFloat y) op) in
    post_fmt res in
  match computed with
  | Raise exc => (Raise exc, _store)
  | Ok formatted =>
      let responce := set_result responce formatted in
      let responce :=
        set_operation responce
          (str_of_field first +:+ op +:+ str_of_field last) in
      let '(saved_operation, _store') :=
        save (History_init e (str_of_str (r_operation responce))
                (str_of_str (r_result responce)) None) _store in
      let responce := set_uid responce (str_of_str (saved_id saved_operation)) in
      (Ok responce, _store')
  end.

(** *** The application: routes and the exception handler *)

Inductive request :=
| GetHistory
| GetCalc (expression : string)
| PostCalc (first last : field) (op : string).

Inductive http_body :=
| HistoryBody (responce : list entry)
| CalcBody (r : responce)
| DetailBody (detail : string).

(** [error_handler] *)
Definition error_handler (exc : exn) : http_body := DetailBody (exn_msg exc).

Definition respond {A} (body : A -> http_body) (r : result A * list entry)
  : http_body * list entry :=
  match r with
  | (Ok a, st) => (body a, st)
  | (Raise exc, st) => (error_handler exc, st)
  end.

Definition app (e : env) (req : request) (_store : list entry)
  : http_body * list entry :=
  match req with
  | GetHistory => respond HistoryBody (get_history _store)
  | GetCalc expression => respond CalcBody (get_calc e expression _store)
  | PostCalc first last op => respond CalcBody (post_calc e first last op _store)
  end.

(** *** A session: the requests are served one after the other on the
    store, each with the environment it draws from *)

Fixpoint serve (reqs : list (env * request)) (_store : list entry)
  : list http_body * list entry :=
  match reqs with
  | [] => ([], _store)
  | (e, req) :: rest =>
      let '(body, _store) := app e req _store in
      let '(bodies, _store) := serve rest _store in
      (body :: bodies, _store)
  end.

(** The entries that a response tells of: one for the body of a
    calculation, none otherwise. *)
Definition recorded (e : env) (body : http_body) : list entry :=
  match body with
  | CalcBody r => [saved_entry e (r_operation r) (r_result r)]
  | _ => []
  end.

Fixpoint session_records (reqs : list (env * request)) (bodies : list http_body)
  : list entry :=
  match reqs, bodies with
  | (e, _) :: reqs, body :: bodies => recorded e body ++ session_records reqs bodies
  | _, _ => []
  end.

End Handlers.

End Main.

(** ** Python [str] methods

    A Python [str] is a sequence of characters (code points).  A text is
    embedded as the bytes of its UTF-8 encoding, and a character as the
    bytes that encode it. *)

Module PyStr.

(** The bytes [10xxxxxx], which continue the encoding of a character. *)
Definition is_continuation (c : ascii) : bool :=
  let n := nat_of_ascii c in (128 <=? n)%nat && (n <=? 191)%nat.

(** The characters of a text: each is a byte with the continuation bytes
    that follow it. *)
Fixpoint chars (s : list ascii) : list (list ascii) :=
  match s with
  | [] => []
  | c :: r =>
      match chars r with
      | (d :: ch) :: rest =>
          if is_continuation d then (c :: d :: ch) :: rest
          else [c] :: (d :: ch) :: rest
      | _ => [[c]]
      end
  end.

(** The UTF-8 encoding of a code point. *)
Definition utf8 (cp : N) : list ascii :=
  if (cp <? 128)%N then [ascii_of_N cp]
  else if (cp <? 2048)%N then
    [ascii_of_N (192 + cp / 64); ascii_of_N (128 + cp mod 64)]
  else if (cp <? 65536)%N then
    [ascii_of_N (224 + cp / 4096); ascii_of_N (128 + (cp / 64) mod 64);
     ascii_of_N (128 + cp mod 64)]
  else
    [ascii_of_N (240 + cp / 262144); ascii_of_N (128 + (cp / 4096) mod 64);
     ascii_of_N (128 + (cp / 64) mod 64); ascii_of_N (128 + cp mod 64)].

(** The code points [c] for which [chr(c).isspace()] holds; [split] and
    [strip] without argument take these as space. *)
Definition whitespace : list N :=
  [9; 10; 11; 12; 13; 28; 29; 30; 31; 32; 133; 160; 5760;
   8192; 8193; 8194; 8195; 8196; 8197; 8198; 8199; 8200; 8201; 8202;
   8232; 8233; 8239; 8287; 12288]%N.

Fixpoint same (a b : list ascii) : bool :=
  match a, b with
  | [], [] => true
  | x :: a, y :: b => Ascii.eqb x y && same a b
  | _, _ => false
  end.

(** [ch.isspace()] for a character *)
Definition isspace (ch : list ascii) : bool :=
  existsb (fun cp => same ch (utf8 cp)) whitespace.

Fixpoint lstrip (cs : list (list ascii)) : list (list ascii) :=
  match cs with
  | ch :: r => if isspace ch then lstrip r else cs
  | [] => []
  end.

(** [s.strip()] *)
Definition strip (s : string) : string :=
  string_of_list_ascii
    (concat (rev (lstrip (rev (lstrip (chars (list_ascii_of_string s))))))).

Definition flush (cur : list (list ascii)) : list string :=
  match cur with
  | [] => []
  | _ => [string_of_list_ascii (concat cur)]
  end.

Fixpoint split_go (cur cs : list (list ascii)) : list string :=
  match cs with
  | [] => flush cur
  | ch :: r =>
      if isspace ch then flush cur ++ split_go [] r
      else split_go (cur ++ [ch]) r
  end.

(** [s.split()]: the maximal runs of characters that are not space. *)
Definition split (s : string) : list string :=
  split_go [] (chars (list_ascii_of_string s)).

Definition lower_char (c : ascii) : ascii :=
  let n := nat_of_ascii c in
  if (65 <=? n)%nat && (n <=? 90)%nat then ascii_of_nat (n + 32) else c.

(** [s.lower()], as far as the program looks at it: the letters A to Z
    are mapped.  Python maps the letters outside ASCII too, to text that
    is again outside ASCII, but for U+0130 (to "i" and U+0307) and U+212A
    (to "k"); the program only compares the lower-case text with words
    of ASCII letters without "k" and looks for an "e" in it, and these
    tests come out the same. *)
Definition lower (s : string) : string :=
  string_of_list_ascii (map lower_char (list_ascii_of_string s)).

(** [c in s] for an ASCII character [c] *)
Definition contains (c : ascii) (s : string) : bool :=
  existsb (Ascii.eqb c) (list_ascii_of_string s).

(** *** What the properties of the texts speak of *)

(** Every item is one character, and the next item does not begin with a
    continuation byte. *)
Fixpoint segmented (cs : list (list ascii)) : bool :=
  match cs with
  | [] => true
  | ch :: r =>
      match ch with
      | [] => false
      | _ :: t => forallb is_continuation t
      end
      && match r with
         | (d :: _) :: _ => negb (is_continuation d)
         | _ => true
         end
      && segmented r
  end.

(** Characters without leading space, and without any space. *)
Definition headed (cs : list (list ascii)) : bool :=
  match cs with ch :: _ => negb (isspace ch) | [] => true end.

Definition spaceless (cs : list (list ascii)) : bool :=
  forallb (fun ch => negb (isspace ch)) cs.

(** A part of [split]: the text of some characters, none of them space. *)
Definition part_of (p : string) : Prop :=
  exists cs, cs <> [] /\ p = string_of_list_ascii (concat cs)
    /\ segmented cs = true /\ spaceless cs = true.

(** A byte that is not an ASCII letter. *)
Definition not_letter (c : ascii) : bool :=
  let n := nat_of_ascii c in
  negb (((65 <=? n)%nat && (n <=? 90)%nat) || ((97 <=? n)%nat && (n <=? 122)%nat)).

End PyStr.

(** ** The modules [calculation] and [operation] *)

Module Calculation.
Import Py.

(** Modelled from the spec: the modules [calculation] and [operation]
    ([Operation] and its four strategies, [Calculation],
    [CalculationFactory]) are imported by [calculator/__init__.py] and by
    its tests but are not among the sources.  The spec describes them as a
    small factory/strategy object hierarchy binding an operator symbol to a
    two-argument function; the help text of the calculator lists the
    symbols and names ([+], [add], ...) and says that division by zero is
    not allowed, and the tests expect the text "5 + 3 = 8" for a
    calculation and an error naming "Division by zero". *)
Record Operation := {
  symbol : string;
  execute_operation : value -> value -> result value
}.

(** Modelled from the spec: the test [b == 0] of the division strategy,
    which is not among the sources. *)
Definition is_zero (v : value) : bool :=
  match v with
  | VInt z => (z =? 0)%Z
  | VBool b => negb b
  | VFloat f => float_is_zero f
  end.

(** Modelled from the spec: the function of the division strategy, which
    is not among the sources; it refuses a zero divisor with the error
    that the tests expect ("Division by zero"). *)
Definition divide (a b : value) : result value :=
  if is_zero b then Raise (Exn ValueError "Division by zero is not allowed")
  else truediv a b.

(** Modelled from the spec: the four strategies of the module
    [operation], which is not among the sources. *)
Definition AddOperation : Operation :=
  {| symbol := "+"; execute_operation := add |}.
Definition SubtractOperation : Operation :=
  {| symbol := "-"; execute_operation := sub |}.
Definition MultiplyOperation : Operation :=
  {| symbol := "*"; execute_operation := mul |}.
Definition DivideOperation : Operation :=
  {| symbol := "/"; execute_operation := divide |}.

(** Modelled from the spec: the binding of an operator symbol to its
    two-argument function. *)
Definition bound_function (sym : string)
  : option (value -> value -> result value) :=
  if String.eqb sym "+" then Some add
  else if String.eqb sym "-" then Some sub
  else if String.eqb sym "*" then Some mul
  else if String.eqb sym "/" then Some divide
  else None.

(** Modelled from the spec: a calculation holds its two operands and its
    strategy; [execute] stores the result. *)
Record Calculation := {
  a : value;
  b : value;
  operation : Operation;
  result_ : option value
}.

(** Modelled from the spec: [Calculation.execute], which is not among the
    sources: it applies the function of the strategy to the operands. *)
Definition execute (c : Calculation) : result Calculation :=
  let! r := execute_operation (operation c) (a c) (b c) in
  Ok {| a := a c; b := b c; operation := operation c; result_ := Some r |}.

(** Modelled from the spec: the table of the factory, keyed by the
    lower-case operation string. *)
Definition operations : gmap string Operation :=
  <["add" := AddOperation]> (<["+" := AddOperation]> (
  <["subtract" := SubtractOperation]> (<["-" := SubtractOperation]> (
  <["multiply" := MultiplyOperation]> (<["*" := MultiplyOperation]> (
  <["divide" := DivideOperation]> (<["/" := DivideOperation]> ∅))))))).

(** Modelled from the spec: the symbol of an operation string, after the
    help text ("+, add", "-, subtract", "*, multiply", "/, divide"). *)
Definition operator_symbol (operation_str : string) : string :=
  if String.eqb operation_str "add" then "+"
  else if String.eqb operation_str "subtract" then "-"
  else if String.eqb operation_str "multiply" then "*"
  else if String.eqb operation_str "divide" then "/"
  else operation_str.

(** Modelled from the spec: [CalculationFactory.create_calculation],
    which is not among the sources. *)
Definition create_calculation (x y : value) (operation_str : string)
  : result Calculation :=
  match operations !! PyStr.lower operation_str with
  | Some op => Ok {| a := x; b := y; operation := op; result_ := None |}
  | None =>
      Raise (Exn ValueError ("Unsupported operation: " +:+ operation_str))
  end.

Section Str.
Variable float_repr : float -> string.

(** Modelled from the spec: [str] of an operand, for [__str__], which is
    not among the sources; [str] of an int beyond the limit of digits
    raises. *)
Definition str_number (v : value) : result string :=
  match v with
  | VInt z => str_of_int z
  | VFloat f => Ok (float_repr f)
  | VBool true => Ok "True"
  | VBool false => Ok "False"
  end.

(** Modelled from the spec: [str(calculation)], as the tests show it. *)
Definition __str__ (c : Calculation) : result string :=
  let! x := str_number (a c) in
  let! y := str_number (b c) in
  match result_ c with
  | Some r =>
      let! z := str_number r in
      Ok (x +:+ " " +:+ symbol (operation c) +:+ " " +:+ y +:+ " = " +:+ z)
  | None => Ok (x +:+ " " +:+ symbol (operation c) +:+ " " +:+ y)
  end.
End Str.

End Calculation.

(** ** calculator/__init__.py *)

Module Calculator.
Import Py.

(** A Python list is an object: the heap maps its address to its items. *)
Definition loc := positive.

Section WithCalculation.

(** The class [Calculation] and the three functions of the module
    [calculation] that [_handle_calculation] calls: the factory,
    [calculation.execute()] (the object as it is after the call) and
    [str(calculation)]. *)
Variable Calculation : Type.
Variable create_calculation : value -> value -> string -> result Calculation.
Variable execute : Calculation -> result Calculation.
Variable calculation_str : Calculation -> result string.

(** [int(s)] and [float(s)] for a string; [None] is their [ValueError]. *)
Variable int_of_str : string -> option Z.
Variable float_of_str : string -> option float.

Abbreviation heap := (gmap loc (list Calculation)).

(** *** class CalculatorHistory *)

Record CalculatorHistory := { _history : loc }.

Definition CalculatorHistory_init (h : heap) : CalculatorHistory * heap :=
  let l := fresh (dom h) in
  ({| _history := l |}, <[l := []]> h).

Definition add_calculation (self : CalculatorHistory) (calculation : Calculation)
    (h : heap) : heap :=
  alter (fun items => items ++ [calculation]) (_history self) h.

(** [self._history.copy()]: a new list object with the same items. *)
Definition get_history (self : CalculatorHistory) (h : heap) : loc * heap :=
  let l := fresh (dom h) in
  (l, <[l := h !!! _history self]> h).

Definition clear_history (self : CalculatorHistory) (h : heap) : heap :=
  alter (fun _ => []) (_history self) h.

Definition get_last_calculation (self : CalculatorHistory) (h : heap)
  : option Calculation :=
  match h !!! _history self with
  | [] => None
  | items => last items
  end.

Definition __len__ (self : CalculatorHistory) (h : heap) : nat :=
  length (h !!! _history self).

(** What a caller can do to a list it holds: [l.clear()], [l.append(x)],
    [l.pop(i)] / [del l[i]], [l.insert(i, x)], [l[i] = x], [l.reverse()].
    An index out of range raises and leaves the list as it was. *)
Inductive list_mutation :=
| Clear
| Append (x : Calculation)
| Pop (i : nat)
| Insert (i : nat) (x : Calculation)
| SetItem (i : nat) (x : Calculation)
| Reverse.

Definition mutate_items (m : list_mutation) (items : list Calculation)
  : list Calculation :=
  match m with
  | Clear => []
  | Append x => items ++ [x]
  | Pop i => delete i items
  | Insert i x => take i items ++ x :: drop i items
  | SetItem i x => <[i := x]> items
  | Reverse => rev items
  end.

Definition mutate (l : loc) (m : list_mutation) (h : heap) : heap :=
  alter (mutate_items m) l h.

(** *** class InputValidator *)

Definition validate_number (value : string) : result Py.value :=
  let value := PyStr.strip value in
  if String.eqb value "" then
    Raise (Exn ValueError "Empty input is not a valid number")
  else
    let converted :=
      if negb (PyStr.contains "." value)
         && negb (PyStr.contains "e" (PyStr.lower value))
      then option_map VInt (int_of_str value)
      else option_map VFloat (float_of_str value) in
    match converted with
    | Some v => Ok v
    | None => Raise (Exn ValueError ("'" +:+ value +:+ "' is not a valid number"))
    end.

Definition valid_operations : list string :=
  ["add"; "subtract"; "multiply"; "divide"; "+"; "-"; "*"; "/"].

(** [str(valid_operations)] *)
Definition valid_operations_repr : string :=
  "['add', 'subtract', 'multiply', 'divide', '+', '-', '*', '/']".

Definition validate_operation (operation : string) : result string :=
  let operation := PyStr.strip operation in
  if String.eqb operation "" then
    Raise (Exn ValueError "Operation cannot be empty")
  else if negb (existsb (String.eqb (PyStr.lower operation)) valid_operations)
  then
    Raise (Exn ValueError
             ("Unsupported operation: '" +:+ operation +:+ "'. "
              +:+ "Valid operations: " +:+ valid_operations_repr))
  else Ok operation.

(** *** class Calculator *)

(** The calculator object ([self.history] is set once), and what its
    methods change: the heap, [self.running] and the lines printed. *)
Record Calculator := { history : CalculatorHistory }.

Record state := State {
  heap_of : heap;
  running : bool;
  printed : list string
}.

Definition print (line : string) (st : state) : state :=
  {| heap_of := heap_of st; running := running st;
     printed := printed st ++ [line] |}.

Definition is_ValueError (e : exn) : bool := exn_class_eqb (exn_type e) ValueError.

Definition _handle_calculation (self : Calculator) (expression : string)
    (st : state) : state :=
  match PyStr.split expression with
  | [p0; p1; p2] =>
      let validated :=
        let! num1 := validate_number p0 in
        let! operation := validate_operation p1 in
        let! num2 := validate_number p2 in
        Ok (num1, operation, num2) in
      match validated with
      | Raise e =>
          if is_ValueError e then print ("Input Error: " +:+ exn_msg e) st
          else print ("Error processing calculation: " +:+ exn_msg e) st
      | Ok (num1, operation, num2) =>
          let report (e : exn) (st : state) : state :=
            if is_ValueError e then print ("Calculation Error: " +:+ exn_msg e) st
            else print ("Unexpected calculation error: " +:+ exn_msg e) st in
          let executed :=
            let! calculation := create_calculation num1 num2 operation in
            execute calculation in
          match executed with
          | Raise e => report e st
          | Ok calculation =>
              let st1 :=
                {| heap_of := add_calculation (history self) calculation (heap_of st);
                   running := running st;
                   printed := printed st |} in
              match calculation_str calculation with
              | Ok s => print ("Result: " +:+ s) st1
              | Raise e => report e st1
              end
          end
      end
  | _ =>
      print "Example: 5 + 3 or 10 / 2"
        (print "Error: Please enter calculation in format: <number> <operation> <number>" st)
  end.

Definition _handle_clear_history (self : Calculator) (st : state) : state :=
  let count := __len__ (history self) (heap_of st) in
  print ("Cleared " +:+ str_int (Z.of_nat count) +:+ " calculation(s) from history.")
    {| heap_of := clear_history (history self) (heap_of st);
       running := running st;
       printed := printed st |}.

(** The items of the history list, as the heap holds them. *)
Definition items (self : Calculator) (st : state) : list Calculation :=
  heap_of st !!! _history (history self).

(** The input is a calculation that succeeds and leaves the object [c']:
    it splits into exactly three parts, the first and third validate as
    numbers, the second validates as an operation, and the calculation is
    created and executed without an exception. *)
Definition accepted (expression : string) (c' : Calculation) : Prop :=
  exists p0 p1 p2 num1 operation num2 c,
    PyStr.split expression = [p0; p1; p2]
    /\ validate_number p0 = Ok num1
    /\ validate_operation p1 = Ok operation
    /\ validate_number p2 = Ok num2
    /\ create_calculation num1 num2 operation = Ok c
    /\ execute c = Ok c'.

(** *** class Calculator: the commands and the loop *)

(** [calc.timestamp.strftime("%H:%M:%S")] *)
Variable timestamp_str : Calculation -> string.

Definition newline : string := String (ascii_of_nat 10) "".

(** The lines of a text, joined by line feeds. *)
Fixpoint join_lines (lines : list string) : string :=
  match lines with
  | [] => ""
  | [l] => l
  | l :: rest => l +:+ newline +:+ join_lines rest
  end.

Definition help_text : string :=
  join_lines
  ["";
   "Calculator Help";
   "===============";
   "";
   "Usage:";
   "  <number> <operation> <number>    Perform calculation";
   "  ";
   "Operations:";
   "  +, add         Addition";
   "  -, subtract    Subtraction  ";
   "  *, multiply    Multiplication";
   "  /, divide      Division";
   "";
   "Commands:";
   "  help, h, ?     Show this help message";
   "  history, hist  Show calculation history";
   "  clear, cls     Clear calculation history";
   "  exit, quit, q  Exit calculator";
   "";
   "Examples:";
   "  5 + 3          Addition: 5 + 3 = 8";
   "  10.5 - 2.3     Subtraction: 10.5 - 2.3 = 8.2";
   "  4 * 7          Multiplication: 4 * 7 = 28";
   "  15 / 3         Division: 15 / 3 = 5.0";
   "  ";
   "Notes:";
   "  - Use decimal points for floating-point numbers";
   "  - Division by zero is not allowed";
   "  - All calculations are saved in history";
   "        "].

Definition welcome_text : string :=
  join_lines
  ["";
   "╔══════════════════════════════════════╗";
   "║        Professional Calculator        ║";
   "║                v1.0.0                ║";
   "╚══════════════════════════════════════╝";
   "";
   "Type 'help' for usage instructions.";
   "Type 'exit' to quit.";
   "        "].

(** [Calculator()]: a new history, and [running] false. *)
Definition Calculator_init (h : heap) : Calculator * state :=
  let '(hist, h') := CalculatorHistory_init h in
  ({| history := hist |},
   {| heap_of := h'; running := false; printed := [] |}).

Definition _handle_exit (self : Calculator) (st : state) : state :=
  let st := print "Thank you for using the calculator. Goodbye!" st in
  {| heap_of := heap_of st; running := false; printed := printed st |}.

Definition _handle_help (self : Calculator) (st : state) : state :=
  print help_text st.

Definition _print_welcome (self : Calculator) (st : state) : state :=
  print welcome_text st.

(** [f"{i:2d}"]: the decimal digits of [i], right-aligned in two columns. *)
Definition format_2d (i : nat) : string :=
  if (i <? 10)%nat then " " +:+ str_int (Z.of_nat i) else str_int (Z.of_nat i).

(** The loop of [_handle_history] over the copied list, from index [i]:
    a line per calculation, until [str(calc)] raises. *)
Fixpoint print_history (i : nat) (calcs : list Calculation) (st : state)
  : option exn * state :=
  match calcs with
  | [] => (None, st)
  | calc :: rest =>
      let timestamp := timestamp_str calc in
      match calculation_str calc with
      | Ok s =>
          print_history (S i) rest
            (print (format_2d i +:+ ". [" +:+ timestamp +:+ "] " +:+ s) st)
      | Raise e => (Some e, st)
      end
  end.

(** [_handle_history]; the exception is the one that leaves the method,
    if any. *)
Definition _handle_history (self : Calculator) (st : state) : option exn * state :=
  if (__len__ (history self) (heap_of st) =? 0)%nat then
    (None, print "No calculations in history." st)
  else
    let st :=
      print (newline +:+ "Calculation History ("
             +:+ str_int (Z.of_nat (__len__ (history self) (heap_of st)))
             +:+ " entries):") st in
    let st := print "========================================" st in
    let '(l, h) := get_history (history self) (heap_of st) in
    print_history 1 (h !!! l)
      {| heap_of := h; running := running st; printed := printed st |}.

Definition _process_command (self : Calculator) (command : string) (st : state)
  : option exn * state :=
  let command_lower := PyStr.lower command in
  if existsb (String.eqb command_lower) ["exit"; "quit"; "q"] then
    (None, _handle_exit self st)
  else if existsb (String.eqb command_lower) ["help"; "h"; "?"] then
    (None, _handle_help self st)
  else if existsb (String.eqb command_lower) ["history"; "hist"] then
    _handle_history self st
  else if existsb (String.eqb command_lower) ["clear"; "cls"] then
    (None, _handle_clear_history self st)
  else (None, _handle_calculation self command st).

(** What a call of [input] gives: a line, Ctrl-C, the end of the input,
    or another exception.  After the last event the input is at its end. *)
Inductive input_event :=
| Line (s : string)
| KeyboardInterrupt
| EOFError
| InputRaises (e : exn).

Definition exiting (st : state) : state :=
  print (newline +:+ newline +:+ "Exiting calculator...") st.

Definition unexpected (e : exn) (st : state) : state :=
  print ("Unexpected error: " +:+ exn_msg e) st.

(** The loop [while self.running] of [start]. *)
Fixpoint run_loop (self : Calculator) (inputs : list input_event) (st : state)
  : state :=
  if running st then
    match inputs with
    | [] => exiting st
    | Line s :: rest =>
        let user_input := PyStr.strip s in
        if String.eqb user_input "" then run_loop self rest st
        else
          match _process_command self user_input st with
          | (None, st') => run_loop self rest st'
          | (Some e, st') => run_loop self rest (unexpected e st')
          end
    | KeyboardInterrupt :: _ => exiting st
    | EOFError :: _ => exiting st
    | InputRaises e :: rest => run_loop self rest (unexpected e st)
    end
  else st.

Definition start (self : Calculator) (inputs : list input_event) (st : state)
  : state :=
  let st := {| heap_of := heap_of st; running := true; printed := printed st |} in
  run_loop self inputs (_print_welcome self st).

(** [main]: a new calculator, started. *)
Definition main (inputs : list input_event) (h : heap) : Calculator * state :=
  let '(calculator, st) := Calculator_init h in
  (calculator, start calculator inputs st).

(** *** What the properties of the loop speak of *)

(** The calls that change a history. *)
Inductive history_call :=
| AddCalculation (calculation : Calculation)
| ClearHistory.

Definition call (self : CalculatorHistory) (m : history_call) (h : heap) : heap :=
  match m with
  | AddCalculation c => add_calculation self c h
  | ClearHistory => clear_history self h
  end.

(** The items after a call, from the items before it. *)
Definition called (items : list Calculation) (m : history_call) : list Calculation :=
  match m with
  | AddCalculation c => items ++ [c]
  | ClearHistory => []
  end.

(** The branch that [_process_command] takes. *)
Inductive command_class :=
| ExitCommand | HelpCommand | HistoryCommand | ClearCommand | CalculationInput.

Definition classify (command : string) : command_class :=
  let command_lower := PyStr.lower command in
  if existsb (String.eqb command_lower) ["exit"; "quit"; "q"] then ExitCommand
  else if existsb (String.eqb command_lower) ["help"; "h"; "?"] then HelpCommand
  else if existsb (String.eqb command_lower) ["history"; "hist"] then HistoryCommand
  else if existsb (String.eqb command_lower) ["clear"; "cls"] then ClearCommand
  else CalculationInput.

(** The calculation that [_handle_calculation] executes on an input, if it
    comes that far. *)
Definition accepted_calculation (expression : string) : option Calculation :=
  match PyStr.split expression with
  | [p0; p1; p2] =>
      let executed :=
        let! num1 := validate_number p0 in
        let! operation := validate_operation p1 in
        let! num2 := validate_number p2 in
        let! calculation := create_calculation num1 num2 operation in
        execute calculation in
      match executed with
      | Ok c => Some c
      | Raise _ => None
      end
  | _ => None
  end.

(** The session is ended by an exit command (rather than by Ctrl-C or
    the end of the input). *)
Fixpoint exit_requested (inputs : list input_event) : bool :=
  match inputs with
  | [] => false
  | Line s :: rest =>
      match classify (PyStr.strip s) with
      | ExitCommand => true
      | _ => exit_requested rest
      end
  | KeyboardInterrupt :: _ => false
  | EOFError :: _ => false
  | InputRaises _ :: rest => exit_requested rest
  end.

(** An event after which the loop is left. *)
Definition ends_session (ev : input_event) : bool :=
  match ev with
  | Line s =>
      match classify (PyStr.strip s) with
      | ExitCommand => true
      | _ => false
      end
  | KeyboardInterrupt => true
  | EOFError => true
  | InputRaises _ => false
  end.

(** The items of the history at the end of a session that starts with
    [items]: the calculations executed since the last clear command. *)
Fixpoint session_history (inputs : list input_event) (items : list Calculation)
  : list Calculation :=
  match inputs with
  | [] => items
  | Line s :: rest =>
      let user_input := PyStr.strip s in
      if String.eqb user_input "" then session_history rest items
      else
        match classify user_input with
        | ExitCommand => items
        | HelpCommand => session_history rest items
        | HistoryCommand => session_history rest items
        | ClearCommand => session_history rest []
        | CalculationInput =>
            match accepted_calculation user_input with
            | Some c => session_history rest (items ++ [c])
            | None => session_history rest items
            end
        end
  | KeyboardInterrupt :: _ => items
  | EOFError :: _ => items
  | InputRaises _ :: rest => session_history rest items
  end.

End WithCalculation.

End Calculator.

(** ** The restricted grammar of arithmetic expressions *)

(** The strings of the grammar, as derivation trees of
<<
   sum    := sum ('+'|'-') term | term
   term   := term ('*'|'/') factor | factor
   factor := ('+'|'-') factor | atom
   atom   := NUMBER | '(' sum ')'
>>
    Every token carries the number of spaces written after it, so that a
    tree determines its string, and every string of the grammar (which
    cannot begin with a space) is the string of one tree. *)

Module Grammar.
Import Py Ast PyParser.

Inductive exponent_sign := NoSign | PlusSign | MinusSign.

(** Number literals: a decimal integer, or a float with an integer part,
    an optional fraction after a point, and an optional exponent (the
    marker is "E" when [upper]). *)
Inductive literal :=
| IntLit (ds : list ascii)
| FloatLit (ip : list ascii) (frac : option (list ascii))
    (ex : option (bool * exponent_sign * list ascii)).

Definition nonempty {A} (l : list A) : bool :=
  match l with [] => false | _ => true end.

Definition wf_exponent (ex : option (bool * exponent_sign * list ascii)) : bool :=
  match ex with
  | Some (_, _, ds) => nonempty ds && forallb is_digit ds
  | None => true
  end.

Definition wf_literal (l : literal) : bool :=
  match l with
  | IntLit ds => nonempty ds && forallb is_digit ds && valid_decinteger ds
  | FloatLit ip (Some fp) ex =>
      forallb is_digit ip && forallb is_digit fp
      && (nonempty ip || nonempty fp) && wf_exponent ex
  | FloatLit ip None ex =>
      forallb is_digit ip && nonempty ip
      && match ex with Some _ => true | None => false end && wf_exponent ex
  end.

Definition exponent_chars (ex : option (bool * exponent_sign * list ascii))
    (k : list ascii) : list ascii :=
  match ex with
  | Some (upper, sg, ds) =>
      (if upper : bool then "E"%char else "e"%char)
      :: match sg with
         | NoSign => ds ++ k
         | PlusSign => "+"%char :: ds ++ k
         | MinusSign => "-"%char :: ds ++ k
         end
  | None => k
  end.

(** The characters of a literal, followed by [k]. *)
Definition literal_chars (l : literal) (k : list ascii) : list ascii :=
  match l with
  | IntLit ds => ds ++ k
  | FloatLit ip (Some fp) ex => ip ++ "."%char :: fp ++ exponent_chars ex k
  | FloatLit ip None ex => ip ++ exponent_chars ex k
  end.

Definition exponent_value (ex : option (bool * exponent_sign * list ascii)) : Z :=
  match ex with
  | Some (_, MinusSign, ds) => (- digits_value ds)%Z
  | Some (_, _, ds) => digits_value ds
  | None => 0%Z
  end.

(** The constant that a literal denotes. *)
Definition literal_constant (l : literal) : constant :=
  match l with
  | IntLit ds => CInt (digits_value ds)
  | FloatLit ip frac ex =>
      float_literal ip (default [] frac) (exponent_value ex)
  end.

Definition literal_value (l : literal) : value :=
  match l with
  | IntLit ds => VInt (digits_value ds)
  | FloatLit ip frac ex =>
      let fp := default [] frac in
      VFloat (float_of_decimal (digits_value (ip ++ fp))
                (exponent_value ex - Z.of_nat (length fp)))
  end.

Inductive addop := Plus | Minus.
Inductive mulop := Times | Over.

Inductive gsum :=
| SumTerm (t : gterm)
| SumAdd (s : gsum) (op : addop) (sp : nat) (t : gterm)
with gterm :=
| TermFactor (f : gfactor)
| TermMul (t : gterm) (op : mulop) (sp : nat) (f : gfactor)
with gfactor :=
| FactorSign (op : addop) (sp : nat) (f : gfactor)
| FactorAtom (a : gatom)
with gatom :=
| AtomNumber (l : literal) (sp : nat)
| AtomParen (sp1 : nat) (s : gsum) (sp2 : nat).

Scheme gsum_mut := Induction for gsum Sort Prop
  with gterm_mut := Induction for gterm Sort Prop
  with gfactor_mut := Induction for gfactor Sort Prop
  with gatom_mut := Induction for gatom Sort Prop.
Combined Scheme grammar_ind from gsum_mut, gterm_mut, gfactor_mut, gatom_mut.

Fixpoint wf_sum (s : gsum) : bool :=
  match s with
  | SumTerm t => wf_term t
  | SumAdd s _ _ t => wf_sum s && wf_term t
  end
with wf_term (t : gterm) : bool :=
  match t with
  | TermFactor f => wf_factor f
  | TermMul t _ _ f => wf_term t && wf_factor f
  end
with wf_factor (f : gfactor) : bool :=
  match f with
  | FactorSign _ _ f => wf_factor f
  | FactorAtom a => wf_atom a
  end
with wf_atom (a : gatom) : bool :=
  match a with
  | AtomNumber l _ => wf_literal l
  | AtomParen _ s _ => wf_sum s
  end.

Definition addop_char (op : addop) : ascii :=
  match op with Plus => "+" | Minus => "-" end.
Definition mulop_char (op : mulop) : ascii :=
  match op with Times => "*" | Over => "/" end.

Fixpoint spaces (n : nat) (k : list ascii) : list ascii :=
  match n with
  | O => k
  | S n' => " "%char :: spaces n' k
  end.

(** The characters of a tree, followed by [k]. *)
Fixpoint sum_chars (s : gsum) (k : list ascii) : list ascii :=
  match s with
  | SumTerm t => term_chars t k
  | SumAdd s op sp t =>
      sum_chars s (addop_char op :: spaces sp (term_chars t k))
  end
with term_chars (t : gterm) (k : list ascii) : list ascii :=
  match t with
  | TermFactor f => factor_chars f k
  | TermMul t op sp f =>
      term_chars t (mulop_char op :: spaces sp (factor_chars f k))
  end
with factor_chars (f : gfactor) (k : list ascii) : list ascii :=
  match f with
  | FactorSign op sp f => addop_char op :: spaces sp (factor_chars f k)
  | FactorAtom a => atom_chars a k
  end
with atom_chars (a : gatom) (k : list ascii) : list ascii :=
  match a with
  | AtomNumber l sp => literal_chars l (spaces sp k)
  | AtomParen sp1 s sp2 =>
      "("%char :: spaces sp1 (sum_chars s (")"%char :: spaces sp2 k))
  end.

(** The expression string of a tree. *)
Definition render (s : gsum) : string := string_of_list_ascii (sum_chars s []).

(** *** The value of an expression: products and quotients first, from
    left to right, then sums and differences, from left to right *)

Definition apply_addop (op : addop) : value -> value -> result value :=
  match op with Plus => add | Minus => sub end.
Definition apply_mulop (op : mulop) : value -> value -> result value :=
  match op with Times => mul | Over => truediv end.
Definition apply_sign (op : addop) : value -> value :=
  match op with Plus => pos | Minus => neg end.

Fixpoint sum_value (s : gsum) : result value :=
  match s with
  | SumTerm t => term_value t
  | SumAdd s op _ t =>
      let! x := sum_value s in
      let! y := term_value t in
      apply_addop op x y
  end
with term_value (t : gterm) : result value :=
  match t with
  | TermFactor f => factor_value f
  | TermMul t op _ f =>
      let! x := term_value t in
      let! y := factor_value f in
      apply_mulop op x y
  end
with factor_value (f : gfactor) : result value :=
  match f with
  | FactorSign op _ f => let! x := factor_value f in Ok (apply_sign op x)
  | FactorAtom a => atom_value a
  end
with atom_value (a : gatom) : result value :=
  match a with
  | AtomNumber l _ => Ok (literal_value l)
  | AtomParen _ s _ => sum_value s
  end.

(** *** The tokens and the tree that Python's grammar gives to a string *)

Definition addop_token (op : addop) : token :=
  match op with Plus => TPlus | Minus => TMinus end.
Definition mulop_token (op : mulop) : token :=
  match op with Times => TStar | Over => TSlash end.
Definition addop_operator (op : addop) : operator :=
  match op with Plus => Add | Minus => Sub end.
Definition mulop_operator (op : mulop) : operator :=
  match op with Times => Mult | Over => Div end.
Definition sign_unaryop (op : addop) : unaryop :=
  match op with Plus => UAdd | Minus => USub end.

Fixpoint sum_tokens (s : gsum) (k : list token) : list token :=
  match s with
  | SumTerm t => term_tokens t k
  | SumAdd s op _ t => sum_tokens s (addop_token op :: term_tokens t k)
  end
with term_tokens (t : gterm) (k : list token) : list token :=
  match t with
  | TermFactor f => factor_tokens f k
  | TermMul t op _ f => term_tokens t (mulop_token op :: factor_tokens f k)
  end
with factor_tokens (f : gfactor) (k : list token) : list token :=
  match f with
  | FactorSign op _ f => addop_token op :: factor_tokens f k
  | FactorAtom a => atom_tokens a k
  end
with atom_tokens (a : gatom) (k : list token) : list token :=
  match a with
  | AtomNumber l _ => TNum (literal_constant l) :: k
  | AtomParen _ s _ => TLPar :: sum_tokens s (TRPar :: k)
  end.

Fixpoint sum_node (s : gsum) : node :=
  match s with
  | SumTerm t => term_node t
  | SumAdd s op _ t => BinOp (sum_node s) (addop_operator op) (term_node t)
  end
with term_node (t : gterm) : node :=
  match t with
  | TermFactor f => factor_node f
  | TermMul t op _ f => BinOp (term_node t) (mulop_operator op) (factor_node f)
  end
with factor_node (f : gfactor) : node :=
  match f with
  | FactorSign op _ f => UnaryOp (sign_unaryop op) (factor_node f)
  | FactorAtom a => atom_node a
  end
with atom_node (a : gatom) : node :=
  match a with
  | AtomNumber l _ => Constant (literal_constant l)
  | AtomParen _ s _ => sum_node s
  end.

(** The number of tokens of a tree. *)
Fixpoint sum_size (s : gsum) : nat :=
  match s with
  | SumTerm t => term_size t
  | SumAdd s _ _ t => sum_size s + 1 + term_size t
  end
with term_size (t : gterm) : nat :=
  match t with
  | TermFactor f => factor_size f
  | TermMul t _ _ f => term_size t + 1 + factor_size f
  end
with factor_size (f : gfactor) : nat :=
  match f with
  | FactorSign _ _ f => 1 + factor_size f
  | FactorAtom a => atom_size a
  end
with atom_size (a : gatom) : nat :=
  match a with
  | AtomNumber _ _ => 1
  | AtomParen _ s _ => 2 + sum_size s
  end.

(** The number of turns of the loops [sum_rest] and [term_rest]. *)
Fixpoint adds (s : gsum) : nat :=
  match s with
  | SumTerm _ => 0
  | SumAdd s _ _ _ => S (adds s)
  end.

Fixpoint muls (t : gterm) : nat :=
  match t with
  | TermFactor _ => 0
  | TermMul t _ _ _ => S (muls t)
  end.

(** The expressions "a op b" of two literals. *)
Inductive binary_operator := BAdd (op : addop) | BMul (op : mulop).

Definition binary_symbol (op : binary_operator) : string :=
  match op with
  | BAdd Plus => "+"
  | BAdd Minus => "-"
  | BMul Times => "*"
  | BMul Over => "/"
  end.

Definition binary_expression (a : literal) (sp1 : nat) (op : binary_operator)
    (sp2 : nat) (b : literal) (sp3 : nat) : gsum :=
  match op with
  | BAdd o =>
      SumAdd (SumTerm (TermFactor (FactorAtom (AtomNumber a sp1)))) o sp2
        (TermFactor (FactorAtom (AtomNumber b sp3)))
  | BMul o =>
      SumTerm
        (TermMul (TermFactor (FactorAtom (AtomNumber a sp1))) o sp2
           (FactorAtom (AtomNumber b sp3)))
  end.

End Grammar.

(** ** Inputs on which the model is run *)

Module Examples.
Import Py Ast PyParser Grammar.

(** The tree of the string "2+3*4". *)
Definition two_plus_three_times_four : gsum :=
  SumAdd
    (SumTerm (TermFactor (FactorAtom (AtomNumber (IntLit ["2"%char]) 0))))
    Plus 0
    (TermMul
       (TermFactor (FactorAtom (AtomNumber (IntLit ["3"%char]) 0)))
       Times 0
       (FactorAtom (AtomNumber (IntLit ["4"%char]) 0))).

(** The tree of the string "- (1.5e1 +2 )/ 4". *)
Definition spaced_quotient : gsum :=
  SumTerm
    (TermMul
       (TermFactor
          (FactorSign Minus 1
             (FactorAtom
                (AtomParen 0
                   (SumAdd
                      (SumTerm
                         (TermFactor
                            (FactorAtom
                               (AtomNumber
                                  (FloatLit ["1"%char] (Some ["5"%char])
                                     (Some (false, NoSign, ["1"%char]))) 1))))
                      Plus 0
                      (TermFactor (FactorAtom (AtomNumber (IntLit ["2"%char]) 1))))
                   0))))
       Over 1
       (FactorAtom (AtomNumber (IntLit ["4"%char]) 0))).

(** [int(s)] on plain decimal notation: an optional sign, then digits. *)
Definition plain_digits (ds : list ascii) : option Z :=
  if nonempty ds && forallb is_digit ds then Some (digits_value ds) else None.

Definition plain_int (s : string) : option Z :=
  match list_ascii_of_string s with
  | c :: r =>
      if Ascii.eqb c "-" then option_map Z.opp (plain_digits r)
      else if Ascii.eqb c "+" then plain_digits r
      else plain_digits (c :: r)
  | [] => None
  end.

(** [float(s)] on plain decimal notation: one number literal. *)
Definition plain_float (s : string) : option float :=
  match lex_number (list_ascii_of_string s) with
  | Some (CFloat f, []) => Some f
  | Some (CInt z, []) => Some (float_of_Z z)
  | _ => None
  end.

(** A calculator whose history list is at address 1, and is empty. *)
Definition calculator : Calculator.Calculator :=
  {| Calculator.history := {| Calculator._history := 1%positive |} |}.

Definition fresh_state : Calculator.state Calculation.Calculation :=
  {| Calculator.heap_of := {[ 1%positive := [] ]};
     Calculator.running := true;
     Calculator.printed := [] |}.

(** The calculation 5 + 3 once executed. *)
Definition five_plus_three : Calculation.Calculation :=
  {| Calculation.a := VInt 5; Calculation.b := VInt 3;
     Calculation.operation := Calculation.AddOperation;
     Calculation.result_ := Some (VInt 8) |}.

(** Request fields that hold ints: [float(x)] converts, [str(x)] is the
    decimal notation; the clock counts, and a float is printed with
    [int_of_float] when it is integral. *)
Definition int_field_float (z : Z) : result float := Ok (float_of_Z z).

Definition integral_repr (f : float) : string :=
  match int_of_float f with
  | Ok z => str_int z +:+ ".0"
  | Raise _ => "nan"
  end.

Definition clock_reading (n : nat) : string := str_int (Z.of_nat n).

(** Two requests: GET /calc?expression=2+3*4, then POST /calc of 6 / 3. *)
Definition two_requests : list (Main.env nat * Main.request Z) :=
  [(Main.Env nat 0 "id-a", Main.GetCalc Z "2+3*4");
   (Main.Env nat 1 "id-b", Main.PostCalc Z 6%Z 3%Z "/")].

(** The no-break space U+00A0, a space character outside ASCII. *)
Definition nbsp : string := string_of_list_ascii (PyStr.utf8 160).

(** A clock that shows noon for every calculation. *)
Definition noon (c : Calculation.Calculation) : string := "12:00:00".

(** A session of the calculator: a calculation, the history, an exit in
    capitals, and a calculation that is not read any more. *)
Definition session : list Calculator.input_event :=
  [Calculator.Line "5 + 3"; Calculator.Line "history"; Calculator.Line "EXIT";
   Calculator.Line "1 + 1"].

(** The state of [calculator] once 5 + 3 is in its history. *)
Definition state_after_sum : Calculator.state Calculation.Calculation :=
  {| Calculator.heap_of := {[ 1%positive := [five_plus_three] ]};
     Calculator.running := true;
     Calculator.printed := [] |}.

End Examples.

(** * Properties *)

(** ** HW8/operations.py: [calculate] *)

Section CalculateProperties.
Import Py Ast Operations.

Lemma ops_add : ops !! "+" = Some add.
Proof. reflexivity. Qed.

Lemma ops_sub : ops !! "-" = Some sub.
Proof. reflexivity. Qed.

Lemma ops_mul : ops !! "*" = Some mul.
Proof. reflexivity. Qed.

Lemma ops_truediv : ops !! "/" = Some truediv.
Proof. reflexivity. Qed.

(** A symbol other than the four keys is not in [ops]. *)
Lemma ops_other (s : string) :
  s <> "+" -> s <> "-" -> s <> "*" -> s <> "/" -> ops !! s = None.
Proof.
  intros H1 H2 H3 H4. unfold ops.
  rewrite !lookup_insert_ne by congruence. apply lookup_empty.
Qed.

(** Once the symbol is found, [calculate] returns or raises what the
    function bound to it does. *)
Lemma calculate_found (first last : value) (s : string) f :
  ops !! s = Some f -> outcome (calculate first last s) = f first last.
Proof.
  intros Hf. unfold calculate. rewrite Hf.
  destruct (f first last); reflexivity.
Qed.

(** C2.  For every pair of numbers, [calculate first last s] is
    [first + last] for the symbol "+", [first - last] for "-",
    [first * last] for "*" and the true division [first / last] for "/":
    it returns the value of that Python operation, and raises exactly what
    the operation raises (a zero divisor, an int out of the float range). *)
Theorem calculate_applies_operator (first last : value) :
  outcome (calculate first last "+") = add first last
  /\ outcome (calculate first last "-") = sub first last
  /\ outcome (calculate first last "*") = mul first last
  /\ outcome (calculate first last "/") = truediv first last.
Proof.
  repeat split.
  - apply calculate_found, ops_add.
  - apply calculate_found, ops_sub.
  - apply calculate_found, ops_mul.
  - apply calculate_found, ops_truediv.
Qed.

End CalculateProperties.

(** ** HW8/HW8/main.py: the handlers and the history store *)

Section MainProperties.
Import Py Ast Operations Main.

Variable ast_parse : string -> result node.
Variable float_repr : float -> string.
Variable datetime : Type.
Variable isoformat : datetime -> string.
Variable field : Type.
Variable float_of_field : field -> result float.
Variable str_of_field : field -> string.

Lemma objects_to_json_all (st : list entry) : objects_to_json st = st.
Proof.
  induction st as [|x st IH]; [reflexivity|].
  cbn. destruct x. f_equal. exact IH.
Qed.

(** An integral float converts to an int without raising. *)
Lemma int_of_integral_float (f : float) :
  float_is_integer f = true -> exists z, int_of_float f = Ok z.
Proof.
  destruct f; cbn; intros H; try discriminate; eauto.
Qed.

(** C10.  For every number, the formatting written inline in [post_calc]
    gives the same string as [_fmt] of [get_calc]: the string of the
    integer [int(v)] for a float with an integral value, and [str(v)] for
    every other value (where [str(v)] raises, for an int beyond the limit
    of digits, both raise the same). *)
Theorem post_fmt_agrees_with_fmt (v : value) :
  post_fmt float_repr v = _fmt float_repr v
  /\ (forall f, v = VFloat f -> float_is_integer f = true ->
        exists z, int_of_float f = Ok z /\ _fmt float_repr v = Ok (str_int z))
  /\ ((forall f, v = VFloat f -> float_is_integer f = false) ->
        _fmt float_repr v = str_value float_repr v).
Proof.
  split; [|split].
  - destruct v as [z|f|b].
    + unfold post_fmt, _fmt, str_value. by destruct (str_of_int z).
    + unfold post_fmt, _fmt.
      destruct (float_is_integer f) eqn:Hi; [|reflexivity].
      destruct (int_of_integral_float f Hi) as [z Hz]. rewrite Hz. reflexivity.
    + by destruct b.
  - intros f -> Hi.
    destruct (int_of_integral_float f Hi) as [z Hz].
    exists z. split; [exact Hz|].
    unfold _fmt. rewrite Hi, Hz. reflexivity.
  - intros Hv. destruct v as [z|f|b]; try reflexivity.
    unfold _fmt. rewrite (Hv f eq_refl). reflexivity.
Qed.

Lemma get_calc_cases (e : env datetime) (expression : string) (st : list entry) :
  match get_calc ast_parse float_repr datetime isoformat e expression st with
  | (Ok r, st') =>
      st' = st ++ [saved_entry datetime isoformat e (r_operation r) (r_result r)]
      /\ r_uid r = uuid4 datetime e /\ r_operation r = expression
  | (Raise _, st') => st' = st
  end.
Proof.
  unfold get_calc.
  destruct (outcome (evaluate_expression ast_parse expression)) as [res|];
    cbn [bind]; [|reflexivity].
  destruct (_fmt float_repr res); cbn; auto.
Qed.

Lemma post_calc_cases (e : env datetime) (first last : field) (op : string)
    (st : list entry) :
  match post_calc float_repr datetime isoformat field float_of_field
          str_of_field e first last op st with
  | (Ok r, st') =>
      st' = st ++ [saved_entry datetime isoformat e (r_operation r) (r_result r)]
      /\ r_uid r = uuid4 datetime e
      /\ r_operation r = str_of_field first +:+ op +:+ str_of_field last
  | (Raise _, st') => st' = st
  end.
Proof.
  unfold post_calc.
  destruct (float_of_field first) as [x|]; cbn [bind]; [|reflexivity].
  destruct (float_of_field last) as [y|]; cbn [bind]; [|reflexivity].
  destruct (outcome (calculate (VFloat x) (VFloat y) op)) as [res|]; cbn [bind];
    [|reflexivity].
  destruct (post_fmt float_repr res); cbn; auto.
Qed.

(** C5.  The store is append-only.  A GET /calc or POST /calc request that
    succeeds appends exactly one record (operation string, result string,
    timestamp, id) and one that raises appends nothing; whatever the
    request, the records already stored stay as they are, in place; and
    GET /history always answers with every stored record, in order, and
    stores nothing. *)
Theorem history_store_append_only (e : env datetime) (req : request field)
    (st : list entry) :
  let run := app ast_parse float_repr datetime isoformat field float_of_field
               str_of_field e req st in
  st `prefix_of` snd run
  /\ match req, fst run with
     | GetHistory _, HistoryBody records => records = st /\ snd run = st
     | GetCalc _ _, CalcBody r
     | PostCalc _ _ _ _, CalcBody r =>
         snd run
         = st ++ [Entry (r_operation r) (r_result r)
                    (isoformat (now datetime e)) (uuid4 datetime e)]
         /\ length (snd run) = S (length st)
     | GetCalc _ _, DetailBody _
     | PostCalc _ _ _ _, DetailBody _ => snd run = st
     | _, _ => False
     end.
Proof.
  destruct req as [|expression|first last op]; cbn.
  - rewrite objects_to_json_all. auto.
  - pose proof (get_calc_cases e expression st) as H.
    destruct (get_calc _ _ _ _ _ _ _) as [[r|exc] st']; cbn.
    + destruct H as (-> & _ & _). split; [by apply prefix_app_r|].
      split; [reflexivity|]. rewrite length_app. cbn. lia.
    + subst st'. auto.
  - pose proof (post_calc_cases e first last op st) as H.
    destruct (post_calc _ _ _ _ _ _ _ _ _ _ _) as [[r|exc] st']; cbn.
    + destruct H as (-> & _ & _). split; [by apply prefix_app_r|].
      split; [reflexivity|]. rewrite length_app. cbn. lia.
    + subst st'. auto.
Qed.

(** C6.  When GET /calc or POST /calc succeeds, the record it saved is the
    last of the store and agrees with the response: same operation, same
    result, and the response's uid is the id of the record. *)
Theorem saved_record_agrees_with_response (e : env datetime) (st : list entry) :
  (forall expression,
     match get_calc ast_parse float_repr datetime isoformat e expression st with
     | (Ok r, st') =>
         exists x, st' = st ++ [x]
           /\ entry_operation x = r_operation r
           /\ entry_result x = r_result r
           /\ entry_id x = r_uid r
     | (Raise _, _) => True
     end)
  /\ (forall first last op,
     match post_calc float_repr datetime isoformat field float_of_field
             str_of_field e first last op st with
     | (Ok r, st') =>
         exists x, st' = st ++ [x]
           /\ entry_operation x = r_operation r
           /\ entry_result x = r_result r
           /\ entry_id x = r_uid r
     | (Raise _, _) => True
     end).
Proof.
  split.
  - intros expression.
    pose proof (get_calc_cases e expression st) as H.
    destruct (get_calc _ _ _ _ _ _ _) as [[r|exc] st']; [|exact I].
    destruct H as (-> & Hu & _). eexists. split; [reflexivity|].
    cbn. auto.
  - intros first last op.
    pose proof (post_calc_cases e first last op st) as H.
    destruct (post_calc _ _ _ _ _ _ _ _ _ _ _) as [[r|exc] st']; [|exact I].
    destruct H as (-> & Hu & _). eexists. split; [reflexivity|].
    cbn. auto.
Qed.

End MainProperties.

(** ** calculator/__init__.py: the history object *)

Section HistoryProperties.
Import Py Calculator.

Variable Calculation : Type.

Abbreviation heap := (gmap loc (list Calculation)).

Implicit Types (self : CalculatorHistory) (h : heap).

(** The list that [get_history] returns is a new object. *)
Lemma get_history_fresh self h :
  is_Some (h !! _history self) -> fst (get_history Calculation self h) <> _history self.
Proof.
  intros Hs Heq. cbn in Heq.
  apply (is_fresh (dom h)). rewrite Heq. by apply elem_of_dom.
Qed.

Lemma get_history_items self h :
  let '(l, h1) := get_history Calculation self h in
  h1 !!! l = h !!! _history self.
Proof. cbn. apply lookup_total_insert_eq. Qed.

(** Changing another list leaves the history list as it is. *)
Lemma mutate_other (l l' : loc) (m : list_mutation Calculation) h :
  l' <> l -> mutate Calculation l' m h !! l = h !! l.
Proof. intros Hne. unfold mutate. by apply lookup_alter_ne. Qed.

Lemma mutations_other (l l' : loc) (ms : list (list_mutation Calculation)) h :
  l' <> l ->
  foldl (fun h m => mutate Calculation l' m h) h ms !! l = h !! l.
Proof.
  intros Hne. revert h.
  induction ms as [|m ms IH]; intros h; cbn; [reflexivity|].
  rewrite IH. by apply mutate_other.
Qed.

Lemma get_last_calculation_last self h :
  get_last_calculation Calculation self h = last (h !!! _history self).
Proof.
  unfold get_last_calculation. by destruct (h !!! _history self).
Qed.

(** The three observations of a history depend on its list only. *)
Lemma observations_same_list self h h' :
  h' !! _history self = h !! _history self ->
  __len__ Calculation self h' = __len__ Calculation self h
  /\ get_last_calculation Calculation self h' = get_last_calculation Calculation self h
  /\ h' !!! _history self = h !!! _history self.
Proof.
  intros Heq.
  assert (h' !!! _history self = h !!! _history self) as Ht.
  { by rewrite !lookup_total_alt, Heq. }
  unfold __len__. rewrite !get_last_calculation_last, Ht. auto.
Qed.

Lemma add_calculation_items self (c : Calculation) h :
  is_Some (h !! _history self) ->
  add_calculation Calculation self c h !!! _history self
  = h !!! _history self ++ [c].
Proof.
  intros [items Hi]. unfold add_calculation.
  rewrite lookup_total_alter_eq, (lookup_total_correct _ _ _ Hi), Hi.
  reflexivity.
Qed.

(** C9.  [get_history] returns a copy.  For a history whose list is
    allocated, the list [l] it returns is a new object with the same items,
    and whatever sequence of mutations is applied to [l] (clearing it,
    appending to it, removing, inserting or replacing items), the history
    is unchanged as seen by [len], by a later [get_history] and by
    [get_last_calculation].  [get_last_calculation] is the last item of the
    list: [None] exactly when the history is empty, and the calculation
    just added after [add_calculation]. *)
Theorem get_history_returns_copy self h
    (ms : list (list_mutation Calculation)) :
  is_Some (h !! _history self) ->
  let l := fst (get_history Calculation self h) in
  let h1 := snd (get_history Calculation self h) in
  let h2 := foldl (fun h m => mutate Calculation l m h) h1 ms in
  l <> _history self
  /\ h1 !!! l = h !!! _history self
  /\ __len__ Calculation self h2 = __len__ Calculation self h
  /\ snd (get_history Calculation self h2) !!! fst (get_history Calculation self h2)
     = h !!! _history self
  /\ get_last_calculation Calculation self h2 = get_last_calculation Calculation self h
  /\ (get_last_calculation Calculation self h = None <-> __len__ Calculation self h = 0%nat)
  /\ (forall c,
        get_last_calculation Calculation self (add_calculation Calculation self c h)
        = Some c).
Proof.
  intros Hs l h1 h2.
  pose proof (get_history_fresh self h Hs) as Hne. fold l in Hne.
  assert (h2 !! _history self = h !! _history self) as Hsame.
  { unfold h2. rewrite mutations_other by exact Hne.
    unfold h1. cbn. apply lookup_insert_ne. exact Hne. }
  destruct (observations_same_list self h h2 Hsame) as (Hlen & Hlast & Hitems).
  split; [exact Hne|].
  split; [apply (get_history_items self h)|].
  split; [exact Hlen|].
  split.
  { pose proof (get_history_items self h2) as H2. cbn in H2. cbn.
    rewrite H2. exact Hitems. }
  split; [exact Hlast|].
  split.
  - rewrite get_last_calculation_last, last_None. unfold __len__.
    split; [intros ->; reflexivity|]. apply length_zero_iff_nil.
  - intros c. rewrite get_last_calculation_last, add_calculation_items by exact Hs.
    apply last_snoc.
Qed.

End HistoryProperties.

(** ** calculator/__init__.py: [_handle_calculation] *)

Section HandleCalculationProperties.
Import Py Calculator.

Variable Calculation : Type.
Variable create_calculation : value -> value -> string -> result Calculation.
Variable execute : Calculation -> result Calculation.
Variable calculation_str : Calculation -> result string.
Variable int_of_str : string -> option Z.
Variable float_of_str : string -> option float.

Local Abbreviation handle :=
  (_handle_calculation Calculation create_calculation execute calculation_str
     int_of_str float_of_str).
Local Abbreviation number := (validate_number int_of_str float_of_str).
Local Abbreviation accepted_ :=
  (accepted Calculation create_calculation execute int_of_str float_of_str).

Lemma heap_of_print (line : string) (st : state Calculation) :
  heap_of Calculation (print Calculation line st) = heap_of Calculation st.
Proof. reflexivity. Qed.

(** Reporting an error prints a line and changes nothing else. *)
Lemma heap_of_report (b : bool) (l1 l2 : string) (st : state Calculation) :
  heap_of Calculation
    (if b then print Calculation l1 st else print Calculation l2 st)
  = heap_of Calculation st.
Proof. destruct b; reflexivity. Qed.

(** An input that stops before the end of [_handle_calculation] is not an
    accepted calculation: one of the conditions fails on it. *)
Ltac not_accepted Hsplit :=
  let H := fresh "H" in
  intros ? (? & ? & ? & ? & ? & ? & ? & H & ? & ? & ? & ? & ?);
  rewrite Hsplit in H;
  first [discriminate | injection H as <- <- <-; congruence].

(** C4.  [_handle_calculation] records atomically.  When the input is an
    accepted calculation, exactly that one calculation is appended to the
    history list and no other list changes; for every other input (wrong
    format, invalid number, invalid operation, an error while creating or
    executing) the heap, and so the history, is left exactly as it was. *)
Theorem handle_calculation_records_atomically (self : Calculator)
    (expression : string) (st : state Calculation) :
  is_Some (heap_of Calculation st !! _history (history self)) ->
  let st' := handle self expression st in
  (forall c', accepted_ expression c' ->
     items Calculation self st' = items Calculation self st ++ [c']
     /\ forall l, l <> _history (history self) ->
          heap_of Calculation st' !! l = heap_of Calculation st !! l)
  /\ ((~ exists c', accepted_ expression c') ->
      heap_of Calculation st' = heap_of Calculation st).
Proof.
  intros Halloc st'. subst st'. unfold _handle_calculation.
  destruct (PyStr.split expression) as [|p0 [|p1 [|p2 [|p3 ps]]]] eqn:Hsplit;
    try (split; [not_accepted Hsplit | intros _; reflexivity]).
  destruct (number p0) as [num1|e0] eqn:H0; cbn [bind];
    [|split; [not_accepted Hsplit | intros _; apply heap_of_report]].
  destruct (validate_operation p1) as [operation|e1] eqn:H1; cbn [bind];
    [|split; [not_accepted Hsplit | intros _; apply heap_of_report]].
  destruct (number p2) as [num2|e2] eqn:H2; cbn [bind];
    [|split; [not_accepted Hsplit | intros _; apply heap_of_report]].
  destruct (create_calculation num1 num2 operation) as [c|e3] eqn:H3; cbn [bind];
    [|split; [not_accepted Hsplit | intros _; apply heap_of_report]].
  destruct (execute c) as [c1|e4] eqn:H4;
    [|split; [not_accepted Hsplit | intros _; apply heap_of_report]].
  split.
  - intros c' (q0 & q1 & q2 & n1 & o & n2 & d & Hq & Hn1 & Ho & Hn2 & Hc & He).
    rewrite Hsplit in Hq. injection Hq as <- <- <-.
    assert (c' = c1) as -> by congruence.
    assert (forall s : state Calculation,
              heap_of Calculation
                (match calculation_str c1 with
                 | Ok line => print Calculation ("Result: " +:+ line) s
                 | Raise e =>
                     if is_ValueError e
                     then print Calculation ("Calculation Error: " +:+ exn_msg e) s
                     else print Calculation
                            ("Unexpected calculation error: " +:+ exn_msg e) s
                 end) = heap_of Calculation s) as Hp.
    { intros s. destruct (calculation_str c1) as [line|e];
        [reflexivity|apply heap_of_report]. }
    unfold items. rewrite Hp. cbn [heap_of]. split.
    + apply add_calculation_items. exact Halloc.
    + intros l Hl. unfold add_calculation. by apply lookup_alter_ne.
  - intros Hno. exfalso. apply Hno. exists c1.
    exists p0, p1, p2, num1, operation, num2, c. auto 10.
Qed.

End HandleCalculationProperties.

(** ** The modules [calculation] and [operation]: the factory *)

Section FactoryProperties.
Import Py Calculation.

Lemma operations_valid (s : string) :
  existsb (String.eqb s) Calculator.valid_operations = true ->
  exists op, operations !! s = Some op
    /\ symbol op = operator_symbol s
    /\ bound_function (symbol op) = Some (execute_operation op).
Proof.
  unfold Calculator.valid_operations. cbn [existsb].
  rewrite !orb_true_iff, !String.eqb_eq.
  intros [->|[->|[->|[->|[->|[->|[->|[->|[=]]]]]]]]];
    eexists; (split; [reflexivity|split; reflexivity]).
Qed.

Lemma validate_operation_Ok (operation op' : string) :
  Calculator.validate_operation operation = Ok op' ->
  op' = PyStr.strip operation
  /\ existsb (String.eqb (PyStr.lower op')) Calculator.valid_operations = true.
Proof.
  unfold Calculator.validate_operation.
  destruct (String.eqb (PyStr.strip operation) ""); [discriminate|].
  destruct (existsb _ _) eqn:He; cbn; [|discriminate].
  intros [= <-]. auto.
Qed.

(** C7.  For every pair of numbers and every operation string that
    [validate_operation] accepts, [create_calculation] produces a
    calculation that holds the two operands and the strategy of the
    operator symbol of that string, and [execute] applies the two-argument
    function bound to that symbol to the two operands: it stores what the
    function returns, and raises what it raises. *)
Theorem factory_binds_symbol_to_function (x y : value) (operation op' : string) :
  Calculator.validate_operation operation = Ok op' ->
  exists c f,
    create_calculation x y op' = Ok c
    /\ a c = x /\ b c = y /\ result_ c = None
    /\ symbol (Calculation.operation c) = operator_symbol (PyStr.lower op')
    /\ bound_function (symbol (Calculation.operation c)) = Some f
    /\ execute c
       = (let! r := f x y in
          Ok {| a := x; b := y; operation := Calculation.operation c;
                result_ := Some r |}).
Proof.
  intros Hv. apply validate_operation_Ok in Hv as [_ Hin].
  destruct (operations_valid _ Hin) as (op & Hop & Hsym & Hf).
  unfold create_calculation. rewrite Hop.
  eexists _, (execute_operation op). repeat split; cbn; auto.
Qed.

End FactoryProperties.

(** ** HW8/operations.py: [_eval_node] and [evaluate_expression] *)

Section EvalProperties.
Import Py Ast Operations.

Lemma outcome_bindM {A B} (m : M A) (k : A -> M B) :
  outcome (bindM m k) = let! a := outcome m in outcome (k a).
Proof.
  destruct m as [l [a|e]]; cbn; [|reflexivity].
  destruct (k a); reflexivity.
Qed.

(** The result of [_eval_node], node by node. *)
Lemma eval_BinOp (l r : node) (op : operator) :
  outcome (_eval_node (BinOp l op r))
  = (let! a := outcome (_eval_node l) in
     let! b := outcome (_eval_node r) in
     match _OPS op with
     | Some f => f a b
     | None =>
         Raise (Exn ValueError
                  ("Unsupported operator: " +:+ class_repr (operator_name op)))
     end).
Proof.
  cbn [_eval_node]. rewrite outcome_bindM.
  destruct (outcome (_eval_node l)) as [a|e]; cbn [bind]; [|reflexivity].
  rewrite outcome_bindM.
  destruct (outcome (_eval_node r)) as [b|e]; cbn [bind]; [|reflexivity].
  destruct (_OPS op) as [f|]; [|reflexivity].
  rewrite outcome_bindM. cbn. destruct (f a b); reflexivity.
Qed.

Lemma eval_UAdd (t : node) :
  outcome (_eval_node (UnaryOp UAdd t))
  = (let! v := outcome (_eval_node t) in Ok (pos v)).
Proof.
  cbn [_eval_node]. rewrite outcome_bindM.
  destruct (outcome (_eval_node t)); reflexivity.
Qed.

Lemma eval_USub (t : node) :
  outcome (_eval_node (UnaryOp USub t))
  = (let! v := outcome (_eval_node t) in Ok (neg v)).
Proof.
  cbn [_eval_node]. rewrite outcome_bindM.
  destruct (outcome (_eval_node t)); reflexivity.
Qed.

(** [evaluate_expression] returns what [_eval_node] returns on the parsed
    tree, and raises what parsing or [_eval_node] raises. *)
Lemma evaluate_expression_outcome (ast_parse : string -> result node) (s : string) :
  outcome (evaluate_expression ast_parse s)
  = (let! t := ast_parse s in outcome (_eval_node t)).
Proof.
  unfold evaluate_expression, try_except, bindM, lift, log, ret, raise, outcome.
  destruct (ast_parse s) as [t|e]; cbn; [|reflexivity].
  destruct (_eval_node t) as [l [v|e]]; reflexivity.
Qed.

(** When it raises, the last record logged is the error record that
    carries the exception. *)
Lemma evaluate_expression_logs_error (ast_parse : string -> result node)
    (s : string) (e : exn) :
  outcome (evaluate_expression ast_parse s) = Raise e ->
  last (logged (evaluate_expression ast_parse s))
  = Some (Log ERROR "Failed to evaluate expression '%s': %s" [AStr s; AExn e] None).
Proof.
  unfold evaluate_expression, try_except, bindM, lift, log, ret, raise,
    outcome, logged.
  destruct (ast_parse s) as [t|e']; cbn.
  - destruct (_eval_node t) as [l [v|e']]; cbn; [discriminate|].
    intros [= ->]. rewrite app_comm_cons. apply last_snoc.
  - intros [= ->]. reflexivity.
Qed.

Lemma calculate_logs_error (first last_ : value) (s : string) f (e : exn) :
  ops !! s = Some f -> f first last_ = Raise e ->
  outcome (calculate first last_ s) = Raise e
  /\ last (logged (calculate first last_ s))
     = Some (Log ERROR "Error during calculation" [] (Some e)).
Proof.
  intros Hf He. unfold calculate. rewrite Hf, He. cbn. auto.
Qed.

(** *** Which exceptions arithmetic raises *)

Lemma to_double_error (v : value) (e : exn) :
  to_double v = Raise e -> exn_type e = OverflowError.
Proof.
  destruct v as [z|f|b]; cbn; unfold long_as_double; try discriminate.
  - destruct (float_of_Z z); intros [= <-]; reflexivity.
  - destruct (float_of_Z (Z.b2z b)); intros [= <-]; reflexivity.
Qed.

Lemma arith_error fi ff (a b : value) (e : exn) :
  (forall x y e, fi x y = Raise e ->
     exn_type e = ZeroDivisionError \/ exn_type e = OverflowError) ->
  (forall x y e, ff x y = Raise e ->
     exn_type e = ZeroDivisionError \/ exn_type e = OverflowError) ->
  arith fi ff a b = Raise e ->
  exn_type e = ZeroDivisionError \/ exn_type e = OverflowError.
Proof.
  intros Hfi Hff. unfold arith.
  assert (bind (to_double a) (fun x => bind (to_double b) (fun y => ff x y)) = Raise e ->
          exn_type e = ZeroDivisionError \/ exn_type e = OverflowError) as Hfloat.
  { destruct (to_double a) as [x|e1] eqn:Ha; cbn.
    - destruct (to_double b) as [y|e2] eqn:Hb; cbn; [apply Hff|].
      intros [= <-]. right. eapply to_double_error, Hb.
    - intros [= <-]. right. eapply to_double_error, Ha. }
  destruct (as_int a), (as_int b); auto. apply Hfi.
Qed.

Lemma _OPS_error (op : operator) f (a b : value) (e : exn) :
  _OPS op = Some f -> f a b = Raise e ->
  exn_type e = ZeroDivisionError \/ exn_type e = OverflowError.
Proof.
  destruct op; intros [= <-]; apply arith_error; try discriminate.
  - intros x y e'. unfold long_true_divide.
    destruct (y =? 0)%Z; [intros [= <-]; auto|].
    destruct (fdiv _ _); intros [= <-]; auto.
  - intros x y e'. destruct (float_is_zero y); intros [= <-]; auto.
Qed.

(** Every exception of [_eval_node] is one of three classes. *)
Lemma eval_error_classes (t : node) (e : exn) :
  outcome (_eval_node t) = Raise e ->
  exn_type e = ValueError \/ exn_type e = ZeroDivisionError
  \/ exn_type e = OverflowError.
Proof.
  revert e. induction t as [b IH|l IHl op r IHr|op t IH|c|cls]; intros e.
  - exact (IH e).
  - rewrite eval_BinOp.
    destruct (outcome (_eval_node l)) as [x|e1]; cbn [bind];
      [|intros [= <-]; auto].
    destruct (outcome (_eval_node r)) as [y|e2]; cbn [bind];
      [|intros [= <-]; auto].
    destruct (_OPS op) as [f|] eqn:Hop; [|intros [= <-]; auto].
    intros He. right. eapply _OPS_error; eauto.
  - destruct op; try (intros [= <-]; auto).
    + rewrite eval_UAdd. destruct (outcome (_eval_node t)); cbn; [discriminate|].
      intros [= <-]. auto.
    + rewrite eval_USub. destruct (outcome (_eval_node t)); cbn; [discriminate|].
      intros [= <-]. auto.
  - cbn. destruct (numeric_constant c); cbn; [discriminate|].
    intros [= <-]. auto.
  - intros [= <-]. auto.
Qed.

(** *** Unsupported operators and constants *)

Lemma offending_raises (t : node) :
  offending t -> exists e, outcome (_eval_node t) = Raise e.
Proof.
  induction 1 as [l op r Hop|c Hc|b _ IH|l op r _ IH|l op r _ IH|op t _ IH].
  - rewrite eval_BinOp, Hop.
    destruct (outcome (_eval_node l)); cbn; eauto.
    destruct (outcome (_eval_node r)); cbn; eauto.
  - cbn. rewrite Hc. cbn. eauto.
  - exact IH.
  - destruct IH as [e He]. rewrite eval_BinOp, He. cbn. eauto.
  - destruct IH as [e He]. rewrite eval_BinOp, He.
    destruct (outcome (_eval_node l)); cbn; eauto.
  - destruct IH as [e He]. destruct op.
    + cbn. eauto.
    + cbn. eauto.
    + rewrite eval_UAdd, He. cbn. eauto.
    + rewrite eval_USub, He. cbn. eauto.
Qed.

Lemma arithmetic_succeeds_error (t : node) (e : exn) :
  arithmetic_succeeds t -> outcome (_eval_node t) = Raise e ->
  exn_type e = ValueError.
Proof.
  revert e. induction t as [b IH|l IHl op r IHr|op t IH|c|cls]; intros e Ht.
  - exact (IH e Ht).
  - destruct Ht as (Hl & Hr & Hop). rewrite eval_BinOp.
    destruct (outcome (_eval_node l)) as [x|e1]; cbn [bind]; [|intros [= <-]; auto].
    destruct (outcome (_eval_node r)) as [y|e2]; cbn [bind]; [|intros [= <-]; auto].
    destruct (_OPS op) as [f|]; [|intros [= <-]; auto].
    intros He. specialize (Hop f x y eq_refl eq_refl eq_refl).
    rewrite He in Hop. discriminate.
  - destruct op; try (intros [= <-]; reflexivity).
    + rewrite eval_UAdd.
      destruct (outcome (_eval_node t)); cbn; [discriminate|].
      intros [= <-]. auto.
    + rewrite eval_USub.
      destruct (outcome (_eval_node t)); cbn; [discriminate|].
      intros [= <-]. auto.
  - cbn. destruct (numeric_constant c); cbn; [discriminate|].
    intros [= <-]. auto.
  - intros [= <-]. auto.
Qed.

(** Coming to an unsupported operator or constant before anything raises
    is a ValueError. *)
Lemma meets_unsupported_raises (t : node) :
  meets_unsupported t -> raises (outcome (_eval_node t)) ValueError.
Proof.
  induction 1 as [l op r x y Hl Hr Hop|c Hc|l op r _ [m IH]|l op r x Hl _ [m IH]
                 |t _ [m IH]|t _ [m IH]|b _ IH].
  - rewrite eval_BinOp, Hl, Hr, Hop. cbn. by eexists.
  - cbn. rewrite Hc. cbn. by eexists.
  - rewrite eval_BinOp, IH. cbn. by eexists.
  - rewrite eval_BinOp, Hl, IH. cbn. by eexists.
  - rewrite eval_UAdd, IH. cbn. by eexists.
  - rewrite eval_USub, IH. cbn. by eexists.
  - exact IH.
Qed.

(** C3, as the code has it.  [calculate] raises ValueError for every
    symbol other than "+", "-", "*", "/".  [evaluate_expression] never
    returns a value for an expression that contains a binary operator
    outside that set or a constant that is not a number: it raises.  The
    exception is ValueError whenever the evaluation, in its order (left
    operand, then right operand, then the operator), comes to such an
    operator or constant before anything raises, and so whenever the
    supported operations of the expression all succeed.  An operand that
    raises stops the evaluation: its exception (the ZeroDivisionError or
    OverflowError of a supported operation, say) is what the operation
    raises, the left operand before the right one, whatever the
    operator. *)
Theorem unsupported_input_raises :
  (forall first last_ s,
     s <> "+" -> s <> "-" -> s <> "*" -> s <> "/" ->
     raises (outcome (calculate first last_ s)) ValueError)
  /\ (forall ast_parse s t,
        ast_parse s = Ok t -> offending t ->
        exists e,
          outcome (evaluate_expression ast_parse s) = Raise e
          /\ (exn_type e = ValueError \/ exn_type e = ZeroDivisionError
              \/ exn_type e = OverflowError))
  /\ (forall ast_parse s t,
        ast_parse s = Ok t -> offending t -> arithmetic_succeeds t ->
        raises (outcome (evaluate_expression ast_parse s)) ValueError)
  /\ (forall ast_parse s t,
        ast_parse s = Ok t -> meets_unsupported t ->
        raises (outcome (evaluate_expression ast_parse s)) ValueError)
  /\ (forall l op r e,
        outcome (_eval_node l) = Raise e ->
        outcome (_eval_node (BinOp l op r)) = Raise e)
  /\ (forall l op r x e,
        outcome (_eval_node l) = Ok x -> outcome (_eval_node r) = Raise e ->
        outcome (_eval_node (BinOp l op r)) = Raise e).
Proof.
  split; [|split; [|split; [|split; [|split]]]].
  - intros first last_ s H1 H2 H3 H4. unfold calculate.
    rewrite ops_other by assumption. cbn. eexists. reflexivity.
  - intros ast_parse s t Hs Ht.
    rewrite evaluate_expression_outcome, Hs. cbn [bind].
    destruct (offending_raises t Ht) as [e He].
    exists e. split; [exact He|]. apply (eval_error_classes t e He).
  - intros ast_parse s t Hs Ht Ha.
    rewrite evaluate_expression_outcome, Hs. cbn [bind].
    destruct (offending_raises t Ht) as [[c msg] He].
    pose proof (arithmetic_succeeds_error t _ Ha He) as Hc. cbn in Hc.
    subst c. exists msg. exact He.
  - intros ast_parse s t Hs Ht.
    rewrite evaluate_expression_outcome, Hs. cbn [bind].
    by apply meets_unsupported_raises.
  - intros l op r e He. by rewrite eval_BinOp, He.
  - intros l op r x e Hl He. by rewrite eval_BinOp, Hl, He.
Qed.

(** C3 as stated fails: "1/0%2" contains the operator [%], and evaluating
    it raises ZeroDivisionError, because the left operand [1/0] is
    evaluated before the operator is looked up. *)
Lemma unsupported_operator_not_always_ValueError :
  ~ (forall ast_parse s t,
       ast_parse s = Ok t -> offending t ->
       raises (outcome (evaluate_expression ast_parse s)) ValueError).
Proof.
  intros H.
  specialize (H PyParser.parse_or_reject "1/0%2"
                (Expression
                   (BinOp (BinOp (Constant (CInt 1)) Div (Constant (CInt 0)))
                      Mod (Constant (CInt 2))))
                eq_refl).
  destruct H as [msg H].
  - apply offending_body, offending_operator. reflexivity.
  - vm_compute in H. discriminate.
Qed.

(** *** Division by zero *)

Lemma truediv_zero_divisor (a b : value) :
  zero_divisor a b = true -> raises (truediv a b) ZeroDivisionError.
Proof.
  unfold zero_divisor, truediv, arith, raises.
  assert (match to_double a, to_double b with
          | Ok _, Ok y => float_is_zero y
          | _, _ => false
          end = true ->
          exists msg,
            bind (to_double a) (fun x => bind (to_double b) (fun y =>
              if float_is_zero y
              then Raise (Exn ZeroDivisionError "float division by zero")
              else Ok (VFloat (fdiv x y))))
            = Raise (Exn ZeroDivisionError msg)) as Hfloat.
  { destruct (to_double a); [|discriminate].
    destruct (to_double b) as [y|]; [|discriminate].
    cbn. intros ->. eauto. }
  destruct (as_int a), (as_int b); auto.
  unfold long_true_divide. intros ->. eauto.
Qed.

Lemma zero_divisor_int_zero (a : value) : zero_divisor a (VInt 0) = true.
Proof. destruct a as [z|f|b]; reflexivity. Qed.

Lemma divides_by_zero_raises (t : node) :
  divides_by_zero t -> raises (outcome (_eval_node t)) ZeroDivisionError.
Proof.
  induction 1 as [l r x y Hl Hr Hz|l op r _ IH|l op r x Hl _ IH|t _ IH|t _ IH|b _ IH].
  - rewrite eval_BinOp, Hl, Hr. cbn. by apply truediv_zero_divisor.
  - destruct IH as [msg He]. rewrite eval_BinOp, He. cbn. by exists msg.
  - destruct IH as [msg He]. rewrite eval_BinOp, Hl, He. cbn. by exists msg.
  - destruct IH as [msg He]. rewrite eval_UAdd, He. cbn. by exists msg.
  - destruct IH as [msg He]. rewrite eval_USub, He. cbn. by exists msg.
  - exact IH.
Qed.

(** C8.  Division by zero is not turned into ValueError.  [calculate]
    with the divisor 0, and more generally with any zero divisor, raises
    ZeroDivisionError; [evaluate_expression] raises ZeroDivisionError for
    an expression whose reduction divides by zero; and both functions
    raise again the very exception that the operation or [_eval_node]
    raised, after logging an error record that carries it. *)
Theorem zero_division_propagates :
  (forall first, raises (outcome (calculate first (VInt 0) "/")) ZeroDivisionError)
  /\ (forall first last_,
        zero_divisor first last_ = true ->
        raises (outcome (calculate first last_ "/")) ZeroDivisionError)
  /\ (forall ast_parse s t,
        ast_parse s = Ok t -> divides_by_zero t ->
        raises (outcome (evaluate_expression ast_parse s)) ZeroDivisionError)
  /\ (forall ast_parse s t e,
        ast_parse s = Ok t -> outcome (_eval_node t) = Raise e ->
        outcome (evaluate_expression ast_parse s) = Raise e
        /\ last (logged (evaluate_expression ast_parse s))
           = Some (Log ERROR "Failed to evaluate expression '%s': %s"
                     [AStr s; AExn e] None))
  /\ (forall first last_ s f e,
        ops !! s = Some f -> f first last_ = Raise e ->
        outcome (calculate first last_ s) = Raise e
        /\ last (logged (calculate first last_ s))
           = Some (Log ERROR "Error during calculation" [] (Some e))).
Proof.
  assert (forall first last_,
            zero_divisor first last_ = true ->
            raises (outcome (calculate first last_ "/")) ZeroDivisionError) as Hc.
  { intros first last_ Hz. rewrite (calculate_found _ _ _ _ ops_truediv).
    by apply truediv_zero_divisor. }
  split; [|split; [|split; [|split]]].
  - intros first. apply Hc, zero_divisor_int_zero.
  - exact Hc.
  - intros ast_parse s t Hs Ht.
    rewrite evaluate_expression_outcome, Hs. cbn [bind].
    by apply divides_by_zero_raises.
  - intros ast_parse s t e Hs He.
    assert (outcome (evaluate_expression ast_parse s) = Raise e) as Ho.
    { rewrite evaluate_expression_outcome, Hs. exact He. }
    split; [exact Ho|]. by apply evaluate_expression_logs_error.
  - intros first last_ s f e. apply calculate_logs_error.
Qed.

End EvalProperties.

(** ** The model of [ast.parse] on the restricted grammar: tokens *)

Section LexerProperties.
Import Py Ast PyParser Grammar.

Lemma span_digits_app (ds k : list ascii) :
  forallb is_digit ds = true -> digits_end k = true ->
  span_digits (ds ++ k) = (ds, k).
Proof.
  intros Hds Hk. induction ds as [|d ds IH]; cbn [app span_digits].
  - destruct k as [|c r]; [reflexivity|].
    cbn [digits_end] in Hk. apply negb_true_iff in Hk.
    cbn [span_digits]. rewrite Hk. reflexivity.
  - cbn [forallb] in Hds. apply andb_true_iff in Hds as [Hd Hds].
    rewrite Hd, (IH Hds). reflexivity.
Qed.

Lemma number_end_digits_end (k : list ascii) :
  number_end k = true -> digits_end k = true.
Proof.
  destruct k as [|c r]; [reflexivity|]. cbn.
  rewrite !andb_true_iff. tauto.
Qed.

Lemma operand_end_number_end (k : list ascii) :
  operand_end k = true -> number_end k = true.
Proof.
  destruct k as [|c r]; [reflexivity|]. cbn.
  rewrite !orb_true_iff, !Ascii.eqb_eq.
  intros [[[[[->| ->]| ->]| ->]| ->]| ->]; reflexivity.
Qed.

Lemma number_end_spaces (sp : nat) (k : list ascii) :
  operand_end k = true -> number_end (spaces sp k) = true.
Proof.
  destruct sp; [apply operand_end_number_end|reflexivity].
Qed.

Lemma operand_end_spaces (sp : nat) (k : list ascii) :
  operand_end k = true -> operand_end (spaces sp k) = true.
Proof. destruct sp; [auto|reflexivity]. Qed.

(** A digit is not a sign. *)
Lemma digit_not_sign (c : ascii) :
  is_digit c = true -> Ascii.eqb c "+" = false /\ Ascii.eqb c "-" = false.
Proof.
  intros Hc. split.
  - destruct (Ascii.eqb_spec c "+"); [subst; discriminate|reflexivity].
  - destruct (Ascii.eqb_spec c "-"); [subst; discriminate|reflexivity].
Qed.

Lemma lex_exponent_none (k : list ascii) :
  number_end k = true -> lex_exponent k = None.
Proof.
  destruct k as [|c r]; [reflexivity|]. cbn [number_end lex_exponent].
  rewrite !andb_true_iff, !negb_true_iff. intros [_ ->]. reflexivity.
Qed.

Lemma lex_exponent_chars upper sg (ds k : list ascii) :
  nonempty ds && forallb is_digit ds = true -> number_end k = true ->
  lex_exponent (exponent_chars (Some (upper, sg, ds)) k)
  = Some (exponent_value (Some (upper, sg, ds)), k).
Proof.
  intros Hds Hk. apply andb_true_iff in Hds as [Hne Hds].
  pose proof (span_digits_app ds k Hds (number_end_digits_end k Hk)) as Hspan.
  assert (is_e (if upper then "E"%char else "e"%char) = true) as He
    by (destruct upper; reflexivity).
  unfold lex_exponent, exponent_chars. rewrite He.
  destruct sg.
  - destruct ds as [|d ds']; [discriminate|].
    cbn in Hds. apply andb_true_iff in Hds as [Hd Hds'].
    destruct (digit_not_sign d Hd) as [Hp Hm].
    cbn [app]. rewrite Hp, Hm. change (d :: ds' ++ k) with ((d :: ds') ++ k).
    rewrite Hspan. cbn [exponent_value]. by rewrite Z.mul_1_l.
  - cbn. rewrite Hspan. destruct ds; [discriminate|].
    cbn [exponent_value]. by rewrite Z.mul_1_l.
  - cbn. rewrite Hspan. destruct ds; [discriminate|].
    cbn [exponent_value]. do 2 f_equal; lia.
Qed.

Lemma exponent_chars_digits_end ex (k : list ascii) :
  number_end k = true -> digits_end (exponent_chars ex k) = true.
Proof.
  destruct ex as [[[upper sg] ds]|]; [|apply number_end_digits_end].
  intros _. destruct upper; reflexivity.
Qed.

Lemma lex_exponent_of ex (k : list ascii) :
  wf_exponent ex = true -> number_end k = true ->
  match ex with
  | Some _ => lex_exponent (exponent_chars ex k) = Some (exponent_value ex, k)
  | None => lex_exponent (exponent_chars ex k) = None
  end.
Proof.
  destruct ex as [[[upper sg] ds]|]; cbn [wf_exponent]; intros Hw Hk.
  - by apply lex_exponent_chars.
  - by apply lex_exponent_none.
Qed.

(** The tokenizer reads a well-formed literal as the constant it denotes
    and stops right after it. *)
Lemma lex_number_literal (l : literal) (k : list ascii) :
  wf_literal l = true -> number_end k = true ->
  lex_number (literal_chars l k) = Some (literal_constant l, k).
Proof.
  intros Hw Hk. destruct l as [ds|ip [fp|] ex]; cbn in Hw.
  - apply andb_true_iff in Hw as [Hw Hv]. apply andb_true_iff in Hw as [Hne Hds].
    unfold lex_number, literal_chars.
    rewrite (span_digits_app ds k Hds (number_end_digits_end k Hk)).
    assert (lex_fraction k = (false, [], k)) as ->.
    { destruct k as [|c r]; [reflexivity|]. cbn in Hk |- *.
      rewrite !andb_true_iff, !negb_true_iff in Hk.
      destruct Hk as [[_ ->] _]. reflexivity. }
    rewrite (lex_exponent_none k Hk), Hv.
    destruct ds; [discriminate|reflexivity].
  - rewrite !andb_true_iff in Hw. destruct Hw as [[[Hip Hfp] Hne] Hex].
    unfold lex_number, literal_chars.
    rewrite (span_digits_app ip _ Hip) by reflexivity.
    cbn [lex_fraction]. change (Ascii.eqb "." ".") with true. cbn iota.
    rewrite (span_digits_app fp _ Hfp (exponent_chars_digits_end ex k Hk)).
    pose proof (lex_exponent_of ex k Hex Hk) as He.
    assert (match ip, fp with [], [] => false | _, _ => true end = true) as Hsome.
    { destruct ip, fp; try reflexivity. discriminate. }
    destruct ex as [e|]; rewrite He; cbn [literal_constant default].
    + destruct ip, fp; try reflexivity. discriminate.
    + destruct ip, fp; try reflexivity. discriminate.
  - rewrite !andb_true_iff in Hw. destruct Hw as [[[Hip Hne] Hsome] Hex].
    destruct ex as [e|]; [|discriminate].
    unfold lex_number, literal_chars.
    rewrite (span_digits_app ip _ Hip (exponent_chars_digits_end _ k Hk)).
    assert (lex_fraction (exponent_chars (Some e) k)
            = (false, [], exponent_chars (Some e) k)) as ->.
    { destruct e as [[[] sg] ds]; reflexivity. }
    pose proof (lex_exponent_of (Some e) k Hex Hk) as He. cbn beta iota in He.
    rewrite He. destruct ip; [discriminate|reflexivity].
Qed.

Lemma literal_chars_head (l : literal) (k : list ascii) :
  wf_literal l = true ->
  exists c r, literal_chars l k = c :: r
    /\ is_digit c || Ascii.eqb c "." = true.
Proof.
  destruct l as [ds|ip [fp|] ex]; cbn [wf_literal literal_chars];
    rewrite ?andb_true_iff.
  - intros [[Hne Hds] _]. destruct ds as [|d ds]; [discriminate|].
    cbn [forallb] in Hds. apply andb_true_iff in Hds as [Hd _].
    exists d, (ds ++ k). by rewrite Hd.
  - intros [[[Hip _] _] _]. destruct ip as [|d ip].
    + eexists _, _. split; reflexivity.
    + cbn [forallb] in Hip. apply andb_true_iff in Hip as [Hd _].
      eexists d, _. split; [reflexivity|]. by rewrite Hd.
  - intros [[[Hip Hne] _] _]. destruct ip as [|d ip]; [discriminate|].
    cbn [forallb] in Hip. apply andb_true_iff in Hip as [Hd _].
    eexists d, _. split; [reflexivity|]. by rewrite Hd.
Qed.

Lemma scan_literal (l : literal) (k : list ascii) :
  wf_literal l = true -> number_end k = true ->
  scan (literal_chars l k) = Some (Some (TNum (literal_constant l)), k).
Proof.
  intros Hw Hk.
  pose proof (lex_number_literal l k Hw Hk) as Hn.
  destruct (literal_chars_head l k Hw) as (c & r & Heq & Hc).
  rewrite Heq in *. unfold scan. rewrite Hc, Hn. reflexivity.
Qed.

(** After [*] or [/], an operand (or a space) does not make the operator
    a double one. *)
Lemma scan_mulop (op : mulop) (k : list ascii) :
  operand_start k = true ->
  scan (mulop_char op :: k) = Some (Some (mulop_token op), k).
Proof.
  destruct k as [|c r]; [discriminate|]. intros Hc. cbn [operand_start] in Hc.
  assert (Ascii.eqb c "*" = false /\ Ascii.eqb c "/" = false) as [Hs Hd].
  { split.
    - destruct (Ascii.eqb_spec c "*"); [subst; discriminate|reflexivity].
    - destruct (Ascii.eqb_spec c "/"); [subst; discriminate|reflexivity]. }
  destruct op; cbn; [rewrite Hs|rewrite Hd]; reflexivity.
Qed.

Lemma scan_addop (op : addop) (k : list ascii) :
  scan (addop_char op :: k) = Some (Some (addop_token op), k).
Proof. destruct op; reflexivity. Qed.

(** *** The tokenizer does not depend on its fuel *)

Lemma span_digits_length (s ds r : list ascii) :
  span_digits s = (ds, r) -> length s = (length ds + length r)%nat.
Proof.
  revert ds r. induction s as [|c s IH]; intros ds r; cbn [span_digits].
  - intros [= <- <-]. reflexivity.
  - destruct (is_digit c).
    + destruct (span_digits s) as [ds' r'] eqn:Hs. intros [= <- <-].
      cbn. by rewrite (IH ds' r').
    + intros [= <- <-]. reflexivity.
Qed.

Lemma lex_fraction_length (s fp r : list ascii) (point : bool) :
  lex_fraction s = (point, fp, r) ->
  length s = ((if point then 1 else 0) + length fp + length r)%nat.
Proof.
  destruct s as [|c s]; cbn [lex_fraction].
  - intros [= <- <- <-]. reflexivity.
  - destruct (Ascii.eqb c ".").
    + destruct (span_digits s) as [fp' r'] eqn:Hs. intros [= <- <- <-].
      cbn. by rewrite (span_digits_length s fp' r').
    + intros [= <- <- <-]. reflexivity.
Qed.

Lemma lex_exponent_shorter (s r : list ascii) (ex : Z) :
  lex_exponent s = Some (ex, r) -> (length r < length s)%nat.
Proof.
  destruct s as [|c s]; cbn [lex_exponent]; [discriminate|].
  destruct (is_e c); [|discriminate].
  assert (forall sgn r1, (length r1 <= length s)%nat ->
            (let '(ds, r2) := span_digits r1 in
             match ds with
             | [] => None
             | _ => Some ((sgn * digits_value ds)%Z, r2)
             end) = Some (ex, r) -> (length r < length (c :: s))%nat) as Hgo.
  { intros sgn r1 Hle. destruct (span_digits r1) as [ds r2] eqn:Hs.
    apply span_digits_length in Hs. destruct ds; [discriminate|].
    intros [= _ <-]. cbn in *. lia. }
  destruct s as [|c2 s']; [apply Hgo; cbn; lia|].
  destruct (Ascii.eqb c2 "+"); [apply Hgo; cbn; lia|].
  destruct (Ascii.eqb c2 "-"); apply Hgo; cbn; lia.
Qed.

Lemma lex_number_shorter (s r : list ascii) (k : constant) :
  lex_number s = Some (k, r) -> (length r < length s)%nat.
Proof.
  unfold lex_number.
  destruct (span_digits s) as [ip r1] eqn:H1.
  destruct (lex_fraction r1) as [[point fp] r2] eqn:H2.
  apply span_digits_length in H1. apply lex_fraction_length in H2.
  assert (match lex_exponent r2 with
          | Some (ex, r3) => Some (float_literal ip fp ex, r3)
          | None =>
              if point then Some (float_literal ip fp 0, r2)
              else if valid_decinteger ip then Some (CInt (digits_value ip), r2)
              else None
          end = Some (k, r) ->
          (0 < length ip + length fp)%nat -> (length r < length s)%nat) as Hgo.
  { destruct (lex_exponent r2) as [[ex r3]|] eqn:H3.
    - apply lex_exponent_shorter in H3. intros [= _ <-]. lia.
    - destruct point; [intros [= _ <-]; lia|].
      destruct (valid_decinteger ip); [|discriminate].
      intros [= _ <-]. lia. }
  destruct ip, fp; try discriminate; intros H; apply Hgo; cbn; try lia; exact H.
Qed.

Lemma scan_shorter (s r : list ascii) x :
  scan s = Some (x, r) -> (length r < length s)%nat.
Proof.
  destruct s as [|c s]; cbn [scan]; [discriminate|].
  destruct (is_digit c || Ascii.eqb c ".").
  { destruct (lex_number (c :: s)) as [[k r']|] eqn:Hn; [|discriminate].
    apply lex_number_shorter in Hn. intros [= _ <-]. exact Hn. }
  repeat match goal with
         | |- context [if Ascii.eqb c ?x then _ else _] =>
             destruct (Ascii.eqb c x)
         end;
    try (intros [= _ <-]; cbn; lia); try discriminate.
  - destruct s as [|c2 s']; [intros [= _ <-]; cbn; lia|].
    destruct (Ascii.eqb c2 "*"); intros [= _ <-]; cbn; lia.
  - destruct s as [|c2 s']; [intros [= _ <-]; cbn; lia|].
    destruct (Ascii.eqb c2 "/"); intros [= _ <-]; cbn; lia.
Qed.

Lemma lex_fuel (n m : nat) (s : list ascii) :
  (length s < n)%nat -> (length s < m)%nat -> lex n s = lex m s.
Proof.
  revert m s. induction n as [|n IH]; intros m s Hn Hm; [lia|].
  destruct m as [|m]; [lia|]. cbn [lex].
  destruct s as [|c s]; [reflexivity|].
  destruct (scan (c :: s)) as [[[t|] r]|] eqn:Hs; [| |reflexivity];
    apply scan_shorter in Hs; rewrite (IH m r) by lia; reflexivity.
Qed.

Lemma lex_all_token (s r : list ascii) (t : token) :
  scan s = Some (Some t, r) -> lex_all s = cons_token t (lex_all r).
Proof.
  intros Hs. unfold lex_all.
  destruct s as [|c s]; [discriminate|].
  assert (lex (S (length (c :: s))) (c :: s)
          = cons_token t (lex (length (c :: s)) r)) as ->.
  { cbn [lex]. rewrite Hs. reflexivity. }
  apply scan_shorter in Hs. f_equal. apply lex_fuel; lia.
Qed.

Lemma lex_all_spaces (sp : nat) (k : list ascii) :
  lex_all (spaces sp k) = lex_all k.
Proof.
  induction sp as [|sp IH]; [reflexivity|]. rewrite <- IH.
  unfold lex_all. cbn [spaces lex length]. reflexivity.
Qed.

Lemma operand_start_factor (f : gfactor) (sp : nat) (k : list ascii) :
  wf_factor f = true -> operand_start (spaces sp (factor_chars f k)) = true.
Proof.
  intros Hw. destruct sp; [|reflexivity]. cbn [spaces].
  destruct f as [op sp' f|[l sp'|sp1 s sp2]]; cbn.
  - destruct op; reflexivity.
  - cbn in Hw. destruct (literal_chars_head l (spaces sp' k) Hw) as (c & r & -> & Hc).
    cbn [operand_start]. by rewrite Hc.
  - reflexivity.
Qed.

(** The tokenizer returns the tokens of a tree, then those of what
    follows it. *)
Lemma lex_grammar :
  (forall s k, wf_sum s = true -> operand_end k = true ->
     lex_all (sum_chars s k) = map_tokens (sum_tokens s) (lex_all k))
  /\ (forall t k, wf_term t = true -> operand_end k = true ->
     lex_all (term_chars t k) = map_tokens (term_tokens t) (lex_all k))
  /\ (forall f k, wf_factor f = true -> operand_end k = true ->
     lex_all (factor_chars f k) = map_tokens (factor_tokens f) (lex_all k))
  /\ (forall a k, wf_atom a = true -> operand_end k = true ->
     lex_all (atom_chars a k) = map_tokens (atom_tokens a) (lex_all k)).
Proof.
  apply grammar_ind.
  - intros t IH k Hw Hk. exact (IH k Hw Hk).
  - intros s IHs op sp t IHt k Hw Hk.
    cbn [wf_sum] in Hw. apply andb_true_iff in Hw as [Hs Ht].
    cbn [sum_chars sum_tokens].
    rewrite IHs by (try assumption; destruct op; reflexivity).
    rewrite (lex_all_token _ _ _ (scan_addop op _)), lex_all_spaces, (IHt k Ht Hk).
    destruct (lex_all k); reflexivity.
  - intros f IH k Hw Hk. exact (IH k Hw Hk).
  - intros t IHt op sp f IHf k Hw Hk.
    cbn [wf_term] in Hw. apply andb_true_iff in Hw as [Ht Hf].
    cbn [term_chars term_tokens].
    rewrite IHt by (try assumption; destruct op; reflexivity).
    rewrite (lex_all_token _ _ _ (scan_mulop op _ (operand_start_factor f sp k Hf))).
    rewrite lex_all_spaces, (IHf k Hf Hk).
    destruct (lex_all k); reflexivity.
  - intros op sp f IH k Hw Hk. cbn [wf_factor] in Hw.
    cbn [factor_chars factor_tokens].
    rewrite (lex_all_token _ _ _ (scan_addop op _)), lex_all_spaces, (IH k Hw Hk).
    destruct (lex_all k); reflexivity.
  - intros a IH k Hw Hk. exact (IH k Hw Hk).
  - intros l sp k Hw Hk. cbn [wf_atom] in Hw. cbn [atom_chars atom_tokens].
    rewrite (lex_all_token _ _ _
               (scan_literal l _ Hw (number_end_spaces sp k Hk))).
    rewrite lex_all_spaces. destruct (lex_all k); reflexivity.
  - intros sp1 s IH sp2 k Hw Hk. cbn [wf_atom] in Hw.
    cbn [atom_chars atom_tokens].
    rewrite (lex_all_token ("("%char :: _) _ TLPar eq_refl), lex_all_spaces.
    rewrite IH by (try assumption; reflexivity).
    rewrite (lex_all_token (")"%char :: _) _ TRPar eq_refl), lex_all_spaces.
    destruct (lex_all k); reflexivity.
Qed.

End LexerProperties.

(** ** The model of [ast.parse] on the restricted grammar: trees *)

Section ParserProperties.
Import Py Ast PyParser Grammar.

Lemma tokens_length :
  (forall s k, length (sum_tokens s k) = (sum_size s + length k)%nat)
  /\ (forall t k, length (term_tokens t k) = (term_size t + length k)%nat)
  /\ (forall f k, length (factor_tokens f k) = (factor_size f + length k)%nat)
  /\ (forall a k, length (atom_tokens a k) = (atom_size a + length k)%nat).
Proof.
  apply grammar_ind; intros; cbn;
    rewrite ?H, ?H0; cbn; rewrite ?H, ?H0; cbn; lia.
Qed.

Lemma sizes_positive :
  (forall s, (1 <= sum_size s)%nat) /\ (forall t, (1 <= term_size t)%nat)
  /\ (forall f, (1 <= factor_size f)%nat) /\ (forall a, (1 <= atom_size a)%nat).
Proof. apply grammar_ind; intros; cbn; lia. Qed.

Lemma adds_le (s : gsum) : (adds s <= sum_size s)%nat.
Proof. induction s; cbn; lia. Qed.

Lemma muls_le (t : gterm) : (muls t <= term_size t)%nat.
Proof. induction t; cbn; lia. Qed.

Lemma stops_term_factor (k : list token) :
  stops_term k = true -> stops_factor k = true.
Proof. destruct k as [|[] k]; auto. Qed.

Lemma term_rest_stop (m : nat) (l : node) (k : list token) :
  stops_term k = true -> term_rest (S m) l k = Some (l, k).
Proof. destruct k as [|[] k]; try discriminate; reflexivity. Qed.

Lemma sum_rest_stop (m : nat) (l : node) (k : list token) :
  stops_sum k = true -> sum_rest (S m) l k = Some (l, k).
Proof. destruct k as [|[] k]; try discriminate; reflexivity. Qed.

Lemma parse_power_atom (n : nat) (ts k : list token) (x : node) :
  parse_atom n ts = Some (x, k) -> stops_factor k = true ->
  parse_power (S n) ts = Some (x, k).
Proof.
  intros Ha Hk. cbn [parse_power]. rewrite Ha.
  destruct k as [|[] k]; try discriminate; reflexivity.
Qed.

(** The parser on the tokens of a tree, with enough fuel: atoms and
    factors are parsed to their nodes; for terms and sums, parsing the
    first operand and running the loop is running the loop from the node
    of the whole. *)
Lemma parse_grammar :
  (forall s k n, stops_term k = true -> (7 * sum_size s <= n + 2)%nat ->
     match parse_term n (sum_tokens s k) with
     | Some (l, r) => sum_rest n l r
     | None => None
     end = sum_rest (n - adds s) (sum_node s) k)
  /\ (forall t k n, stops_factor k = true -> (7 * term_size t <= n + 4)%nat ->
     match parse_factor n (term_tokens t k) with
     | Some (l, r) => term_rest n l r
     | None => None
     end = term_rest (n - muls t) (term_node t) k)
  /\ (forall f k n, stops_factor k = true -> (7 * factor_size f <= n + 4)%nat ->
     parse_factor n (factor_tokens f k) = Some (factor_node f, k))
  /\ (forall a k n, (7 * atom_size a <= n + 6)%nat ->
     parse_atom n (atom_tokens a k) = Some (atom_node a, k)).
Proof.
  assert (forall t,
            (forall k n, stops_factor k = true -> (7 * term_size t <= n + 4)%nat ->
               match parse_factor n (term_tokens t k) with
               | Some (l, r) => term_rest n l r
               | None => None
               end = term_rest (n - muls t) (term_node t) k) ->
            forall k n, stops_term k = true -> (7 * term_size t <= n + 2)%nat ->
              parse_term n (term_tokens t k) = Some (term_node t, k)) as Hterm.
  { intros t IH k n Hk Hn. pose proof (muls_le t) as Hm.
    destruct sizes_positive as (_ & Hpos & _). specialize (Hpos t).
    destruct n as [|n]; [lia|].
    cbn [parse_term]. rewrite IH by (try lia; by apply stops_term_factor).
    destruct (n - muls t)%nat as [|m] eqn:E; [lia|].
    by apply term_rest_stop. }
  apply grammar_ind.
  - (* sum := term *)
    intros t IH k n Hk Hn. cbn [sum_tokens sum_node adds sum_size] in *.
    rewrite (Hterm t IH k n Hk Hn), Nat.sub_0_r. reflexivity.
  - (* sum := sum op term *)
    intros s IHs op sp t IHt k n Hk Hn.
    cbn [sum_tokens sum_node adds sum_size] in *.
    pose proof (adds_le s) as Ha.
    rewrite IHs by (try lia; destruct op; reflexivity).
    destruct (n - adds s)%nat as [|m] eqn:E; [lia|].
    replace (n - S (adds s))%nat with m by lia.
    cbn [sum_rest].
    replace (addop_of (addop_token op)) with (Some (addop_operator op))
      by (destruct op; reflexivity).
    rewrite (Hterm t IHt k m Hk) by lia. reflexivity.
  - (* term := factor *)
    intros f IH k n Hk Hn. cbn [term_tokens term_node muls term_size] in *.
    rewrite (IH k n Hk Hn), Nat.sub_0_r. reflexivity.
  - (* term := term op factor *)
    intros t IHt op sp f IHf k n Hk Hn.
    cbn [term_tokens term_node muls term_size] in *.
    pose proof (muls_le t) as Hm.
    rewrite IHt by (try lia; destruct op; reflexivity).
    destruct (n - muls t)%nat as [|m] eqn:E; [lia|].
    replace (n - S (muls t))%nat with m by lia.
    cbn [term_rest].
    replace (mulop_of (mulop_token op)) with (Some (mulop_operator op))
      by (destruct op; reflexivity).
    rewrite (IHf k m Hk) by lia. reflexivity.
  - (* factor := sign factor *)
    intros op sp f IH k n Hk Hn. cbn [factor_tokens factor_node factor_size] in *.
    destruct n as [|n]; [lia|].
    destruct op; cbn [parse_factor addop_token sign_unaryop];
      rewrite (IH k n Hk) by lia; reflexivity.
  - (* factor := atom *)
    intros a IH k n Hk Hn. cbn [factor_tokens factor_node factor_size] in *.
    destruct sizes_positive as (_ & _ & _ & Hpos). specialize (Hpos a).
    destruct n as [|[|n]]; [lia..|].
    assert (parse_power (S n) (atom_tokens a k) = Some (atom_node a, k)) as Hp.
    { apply parse_power_atom; [|exact Hk]. apply IH. lia. }
    destruct a; exact Hp.
  - (* atom := NUMBER *)
    intros l sp k n Hn. cbn [atom_size] in Hn.
    destruct n as [|n]; [lia|]. reflexivity.
  - (* atom := ( sum ) *)
    intros sp1 s IH sp2 k n Hn. cbn [atom_tokens atom_node atom_size] in *.
    pose proof (adds_le s) as Ha.
    destruct n as [|[|n]]; [lia..|].
    cbn [parse_atom parse_sum].
    rewrite IH by (try lia; reflexivity).
    destruct (n - adds s)%nat as [|m] eqn:E; [lia|].
    rewrite sum_rest_stop by reflexivity. reflexivity.
Qed.

(** The tokens of a tree parse to the expression of its node. *)
Lemma parse_tokens_grammar (s : gsum) :
  parse_tokens (sum_tokens s []) = Some (Expression (sum_node s)).
Proof.
  unfold parse_tokens, parse_fuel.
  destruct tokens_length as (Hlen & _). rewrite Hlen. cbn [length].
  rewrite Nat.add_0_r. pose proof (adds_le s) as Ha.
  replace (7 * sum_size s + 2)%nat with (S (7 * sum_size s + 1)) by lia.
  cbn [parse_sum].
  destruct parse_grammar as (Hsum & _).
  rewrite Hsum by (try lia; reflexivity).
  destruct (7 * sum_size s + 1 - adds s)%nat as [|m] eqn:E; [lia|].
  rewrite sum_rest_stop by reflexivity. reflexivity.
Qed.

End ParserProperties.

(** ** [evaluate_expression] on the restricted grammar *)

Section GrammarProperties.
Import Py Ast PyParser Grammar Operations.

Lemma numeric_literal (l : literal) :
  numeric_constant (literal_constant l) = Some (literal_value l).
Proof. destruct l; reflexivity. Qed.

(** Reducing the tree of an expression gives the value of the expression. *)
Lemma eval_grammar :
  (forall s, outcome (_eval_node (sum_node s)) = sum_value s)
  /\ (forall t, outcome (_eval_node (term_node t)) = term_value t)
  /\ (forall f, outcome (_eval_node (factor_node f)) = factor_value f)
  /\ (forall a, outcome (_eval_node (atom_node a)) = atom_value a).
Proof.
  apply grammar_ind.
  - intros t IH. exact IH.
  - intros s IHs op sp t IHt. cbn [sum_node sum_value].
    rewrite eval_BinOp, IHs, IHt. destruct op; reflexivity.
  - intros f IH. exact IH.
  - intros t IHt op sp f IHf. cbn [term_node term_value].
    rewrite eval_BinOp, IHt, IHf. destruct op; reflexivity.
  - intros op sp f IH. cbn [factor_node factor_value].
    destruct op; cbn [sign_unaryop].
    + rewrite eval_UAdd, IH. reflexivity.
    + rewrite eval_USub, IH. reflexivity.
  - intros a IH. exact IH.
  - intros l sp. cbn [atom_node atom_value _eval_node].
    rewrite numeric_literal. reflexivity.
  - intros sp1 s IH sp2. exact IH.
Qed.

(** An expression does not begin with a space. *)
Lemma grammar_no_leading_space :
  (forall s k, wf_sum s = true -> starts_with_space (sum_chars s k) = false)
  /\ (forall t k, wf_term t = true -> starts_with_space (term_chars t k) = false)
  /\ (forall f k, wf_factor f = true -> starts_with_space (factor_chars f k) = false)
  /\ (forall a k, wf_atom a = true -> starts_with_space (atom_chars a k) = false).
Proof.
  apply grammar_ind.
  - intros t IH k Hw. exact (IH k Hw).
  - intros s IHs op sp t _ k Hw. cbn [wf_sum] in Hw.
    apply andb_true_iff in Hw as [Hs _]. exact (IHs _ Hs).
  - intros f IH k Hw. exact (IH k Hw).
  - intros t IHt op sp f _ k Hw. cbn [wf_term] in Hw.
    apply andb_true_iff in Hw as [Ht _]. exact (IHt _ Ht).
  - intros op sp f _ k _. destruct op; reflexivity.
  - intros a IH k Hw. exact (IH k Hw).
  - intros l sp k Hw. cbn [wf_atom] in Hw. cbn [atom_chars].
    destruct (literal_chars_head l (spaces sp k) Hw) as (c & r & -> & Hc).
    cbn [starts_with_space].
    destruct (Ascii.eqb_spec c " "); [subst; discriminate|reflexivity].
  - reflexivity.
Qed.

(** The model of [ast.parse] gives every expression of the grammar its
    tree: products bind tighter than sums, operators of one level group
    from the left, a sign applies to the factor after it. *)
Lemma ast_parse_model_grammar (s : gsum) :
  wf_sum s = true ->
  ast_parse_model (render s) = Some (Expression (sum_node s)).
Proof.
  intros Hw. unfold ast_parse_model, render.
  rewrite list_ascii_of_string_of_list_ascii.
  destruct grammar_no_leading_space as (Hsp & _). rewrite (Hsp s [] Hw).
  destruct lex_grammar as (Hlex & _).
  specialize (Hlex s [] Hw eq_refl). unfold lex_all in Hlex at 1.
  rewrite Hlex. cbn [map_tokens lex_all lex length].
  apply parse_tokens_grammar.
Qed.

(** C1.  For every expression of the restricted grammar (integer and float
    literals, the binary operators + - * /, unary + and -, parentheses,
    spaces after tokens), [evaluate_expression] parses the string into the
    tree that the precedence of the operators prescribes and reduces it:
    it returns the value of the expression, computed with products and
    quotients before sums and differences, from left to right; when that
    computation raises (a division by zero, an int out of the float
    range), it raises the same exception. *)
Theorem evaluate_expression_grammar (ast_parse : string -> result node)
    (s : gsum) :
  agrees_with_model ast_parse -> wf_sum s = true ->
  ast_parse (render s) = Ok (Expression (sum_node s))
  /\ outcome (evaluate_expression ast_parse (render s)) = sum_value s.
Proof.
  intros Hparse Hw.
  pose proof (Hparse _ _ (ast_parse_model_grammar s Hw)) as Ht.
  split; [exact Ht|].
  rewrite evaluate_expression_outcome, Ht. cbn [bind _eval_node].
  apply eval_grammar.
Qed.

End GrammarProperties.

(** ** The model at the inputs of the tests *)

Section Witnesses.
Import Py Ast PyParser Grammar Operations Examples.

Lemma parse_or_reject_agrees : agrees_with_model parse_or_reject.
Proof.
  intros s t H. unfold parse_or_reject. rewrite H. reflexivity.
Defined.

(** test_evaluate_simple_add, test_evaluate_division, test_evaluate_unary *)
Example evaluate_tests :
  outcome (evaluate_expression parse_or_reject "2+3") = Ok (VInt 5)
  /\ outcome (evaluate_expression parse_or_reject "5/2")
     = Ok (VFloat (float_of_decimal 25 (-1)))
  /\ outcome (evaluate_expression parse_or_reject "-3+5") = Ok (VInt 2).
Proof. repeat split; vm_compute; reflexivity. Qed.

(** test_calculate_add, test_calculate_div *)
Example calculate_tests :
  outcome (calculate (VInt 10) (VInt 5) "+") = Ok (VInt 15)
  /\ outcome (calculate (VInt 11) (VInt 2) "/")
     = Ok (VFloat (float_of_decimal 55 (-1))).
Proof. repeat split; vm_compute; reflexivity. Qed.

(** "2+3*4" is an expression of the grammar and evaluates to 14
    (test_evaluate_precedence). *)
Lemma evaluate_expression_grammar_witness :
  agrees_with_model parse_or_reject
  /\ wf_sum two_plus_three_times_four = true
  /\ render two_plus_three_times_four = "2+3*4"
  /\ outcome (evaluate_expression parse_or_reject "2+3*4") = Ok (VInt 14).
Proof.
  split; [exact parse_or_reject_agrees|].
  split; [reflexivity|]. split; [reflexivity|].
  exact (proj2 (evaluate_expression_grammar parse_or_reject
                  two_plus_three_times_four parse_or_reject_agrees eq_refl)).
Defined.

(** Spaces, a float literal, a sign and parentheses:
    -(15.0 + 2) / 4 is -4.25. *)
Example evaluate_spaced_quotient :
  render spaced_quotient = "- (1.5e1 +2 )/ 4"
  /\ outcome (evaluate_expression parse_or_reject "- (1.5e1 +2 )/ 4")
     = Ok (VFloat (float_of_decimal (-425) (-2))).
Proof.
  split; [reflexivity|]. vm_compute. reflexivity.
Qed.

(** "^" is not an operator of [calculate], "2**3" holds the operator [**],
    and in "2**3+1/0" the operator [**] is met before the division by
    zero: all three raise ValueError. *)
Lemma unsupported_input_raises_witness :
  raises (outcome (calculate (VInt 1) (VInt 2) "^")) ValueError
  /\ raises (outcome (evaluate_expression parse_or_reject "2**3")) ValueError
  /\ raises (outcome (evaluate_expression parse_or_reject "2**3+1/0")) ValueError.
Proof.
  destruct unsupported_input_raises as (Hcalc & _ & Heval & Hmeets & _).
  split; [|split].
  - apply Hcalc; discriminate.
  - apply (Heval parse_or_reject "2**3"
             (Expression (BinOp (Constant (CInt 2)) Pow (Constant (CInt 3))))).
    + reflexivity.
    + apply offending_body, offending_operator. reflexivity.
    + cbn. repeat split. discriminate.
  - apply (Hmeets parse_or_reject "2**3+1/0"
             (Expression
                (BinOp (BinOp (Constant (CInt 2)) Pow (Constant (CInt 3))) Add
                   (BinOp (Constant (CInt 1)) Div (Constant (CInt 0)))))).
    + reflexivity.
    + apply meets_body, meets_left,
        (meets_operator _ _ _ (VInt 2) (VInt 3)); reflexivity.
Defined.

(** "1/0" divides by zero. *)
Lemma zero_division_propagates_witness :
  raises (outcome (calculate (VFloat (float_of_Z 1)) (VInt 0) "/")) ZeroDivisionError
  /\ raises (outcome (evaluate_expression parse_or_reject "1/0")) ZeroDivisionError.
Proof.
  destruct zero_division_propagates as (Hcalc & _ & Heval & _). split.
  - apply Hcalc.
  - apply (Heval parse_or_reject "1/0"
             (Expression (BinOp (Constant (CInt 1)) Div (Constant (CInt 0))))).
    + reflexivity.
    + apply divides_body, (divides_here _ _ (VInt 1) (VInt 0)); reflexivity.
Defined.

(** " Multiply " is a valid operation: the factory binds it to [*]. *)
Lemma factory_binds_symbol_to_function_witness :
  Calculator.validate_operation " Multiply " = Ok "Multiply"
  /\ exists c f,
       Calculation.create_calculation (VInt 6) (VInt 7) "Multiply" = Ok c
       /\ Calculation.a c = VInt 6 /\ Calculation.b c = VInt 7
       /\ Calculation.result_ c = None
       /\ Calculation.symbol (Calculation.operation c)
          = Calculation.operator_symbol (PyStr.lower "Multiply")
       /\ Calculation.bound_function (Calculation.symbol (Calculation.operation c))
          = Some f
       /\ Calculation.execute c
          = (let! r := f (VInt 6) (VInt 7) in
             Ok {| Calculation.a := VInt 6; Calculation.b := VInt 7;
                   Calculation.operation := Calculation.operation c;
                   Calculation.result_ := Some r |}).
Proof.
  split; [reflexivity|].
  apply (factory_binds_symbol_to_function (VInt 6) (VInt 7) " Multiply " "Multiply").
  reflexivity.
Defined.

(** The input "5 + 3" on a calculator with an empty history
    (test_handle_calculation_valid): the history holds the executed
    calculation, and nothing else. *)
Lemma handle_calculation_records_atomically_witness :
  is_Some (Calculator.heap_of _ fresh_state
             !! Calculator._history (Calculator.history calculator))
  /\ Calculator.items _ calculator
       (Calculator._handle_calculation Calculation.Calculation
          Calculation.create_calculation Calculation.execute
          (Calculation.__str__ (fun _ => ""%string)) plain_int plain_float
          calculator "5 + 3" fresh_state)
     = [five_plus_three].
Proof.
  assert (is_Some (Calculator.heap_of _ fresh_state
                     !! Calculator._history (Calculator.history calculator)))
    as Hs by (exists []; reflexivity).
  split; [exact Hs|].
  destruct (handle_calculation_records_atomically Calculation.Calculation
              Calculation.create_calculation Calculation.execute
              (Calculation.__str__ (fun _ => ""%string)) plain_int plain_float
              calculator "5 + 3" fresh_state Hs) as [Hacc _].
  destruct (Hacc five_plus_three) as [Hitems _].
  - exists "5"%string, "+"%string, "3"%string, (VInt 5), "+"%string, (VInt 3),
      {| Calculation.a := VInt 5; Calculation.b := VInt 3;
         Calculation.operation := Calculation.AddOperation;
         Calculation.result_ := None |}.
    repeat split; reflexivity.
  - exact Hitems.
Defined.

(** A history of two items: after [get_history], clearing the returned
    list and appending to it changes nothing in the history. *)
Lemma get_history_returns_copy_witness :
  let self := {| Calculator._history := 1%positive |} in
  let h : gmap Calculator.loc (list Z) := {[ 1%positive := [10%Z; 20%Z] ]} in
  let l := fst (Calculator.get_history Z self h) in
  let h2 := foldl (fun h m => Calculator.mutate Z l m h)
              (snd (Calculator.get_history Z self h))
              [Calculator.Clear Z; Calculator.Append Z 5%Z] in
  is_Some (h !! Calculator._history self)
  /\ Calculator.__len__ Z self h2 = Calculator.__len__ Z self h
  /\ Calculator.get_last_calculation Z self h2
     = Calculator.get_last_calculation Z self h.
Proof.
  intros self h l h2.
  assert (is_Some (h !! Calculator._history self)) as Hs
    by (exists [10%Z; 20%Z]; reflexivity).
  split; [exact Hs|].
  destruct (get_history_returns_copy Z self h
              [Calculator.Clear Z; Calculator.Append Z 5%Z] Hs)
    as (_ & _ & Hlen & _ & Hlast & _).
  split; [exact Hlen|exact Hlast].
Defined.

End Witnesses.

(** * Further properties *)

(** ** HW8/operations.py: results, exceptions and log records *)

Section OperationsMore.
Import Py Ast Operations.

Lemma logged_bindM {A B} (m : M A) (k : A -> M B) :
  logged (bindM m k)
  = logged m ++ match outcome m with Ok a => logged (k a) | Raise _ => [] end.
Proof.
  destruct m as [l [a|e]]; cbn.
  - destruct (k a); reflexivity.
  - by rewrite app_nil_r.
Qed.

Lemma eval_integer (t : node) (z : Z) :
  integer_value t = Some z -> outcome (_eval_node t) = Ok (VInt z).
Proof.
  revert z. induction t as [b IH|l IHl op r IHr|op t IH|c|cls]; intros z; cbn [integer_value].
  - apply IH.
  - destruct (integer_value l) as [x|]; [|discriminate].
    destruct (integer_value r) as [y|]; [|discriminate].
    intros Hz. rewrite eval_BinOp, (IHl x eq_refl), (IHr y eq_refl).
    destruct op; try discriminate; injection Hz as <-; reflexivity.
  - destruct op; try discriminate.
    + intros Hz. rewrite eval_UAdd, (IH z Hz). reflexivity.
    + destruct (integer_value t) as [x|]; [|discriminate].
      intros [= <-]. rewrite eval_USub, (IH x eq_refl). reflexivity.
  - destruct c; try discriminate. intros [= ->]. reflexivity.
  - discriminate.
Qed.

(** [_eval_node] logs at the level DEBUG only. *)
Lemma eval_logs_debug (t : node) :
  List.filter is_error_record (logged (_eval_node t)) = [].
Proof.
  induction t as [b IH|l IHl op r IHr|op t IH|c|cls]; cbn [_eval_node].
  - exact IH.
  - rewrite logged_bindM, List.filter_app, IHl.
    destruct (outcome (_eval_node l)) as [x|]; [|reflexivity].
    rewrite logged_bindM, List.filter_app, IHr.
    destruct (outcome (_eval_node r)) as [y|]; [|reflexivity].
    destruct (_OPS op) as [f|]; [|reflexivity].
    cbn. destruct (f x y); reflexivity.
  - destruct op; try reflexivity.
    + rewrite logged_bindM, List.filter_app, IH.
      destruct (outcome (_eval_node t)); reflexivity.
    + rewrite logged_bindM, List.filter_app, IH.
      destruct (outcome (_eval_node t)); reflexivity.
  - destruct (numeric_constant c); reflexivity.
  - reflexivity.
Qed.

(** The records of [evaluate_expression], in order. *)
Lemma evaluate_expression_logged (ast_parse : string -> result node) (s : string) :
  logged (evaluate_expression ast_parse s)
  = Log INFO "Evaluating expression: %s" [AStr s] None
    :: match ast_parse s with
       | Ok t =>
           logged (_eval_node t)
           ++ match outcome (_eval_node t) with
              | Ok v =>
                  [Log INFO "Evaluated expression result: %s -> %s"
                     [AStr s; AValue v] None]
              | Raise e =>
                  [Log ERROR "Failed to evaluate expression '%s': %s"
                     [AStr s; AExn e] None]
              end
       | Raise e =>
           [Log ERROR "Failed to evaluate expression '%s': %s"
              [AStr s; AExn e] None]
       end.
Proof.
  unfold evaluate_expression, try_except, bindM, lift, log, ret, raise,
    outcome, logged.
  destruct (ast_parse s) as [t|e]; cbn; [|reflexivity].
  destruct (_eval_node t) as [l [v|e]]; reflexivity.
Qed.

(** X1.  Integer arithmetic is exact.  When the expression parses to a tree
    of integer constants under [+], [-], [*] and the two signs,
    [evaluate_expression] returns the int that the integers give,
    whatever its size, and the last record it logs carries that int. *)
Theorem evaluate_integer_expression (ast_parse : string -> result node)
    (s : string) (t : node) (z : Z) :
  ast_parse s = Ok t -> integer_value t = Some z ->
  outcome (evaluate_expression ast_parse s) = Ok (VInt z)
  /\ last (logged (evaluate_expression ast_parse s))
     = Some (Log INFO "Evaluated expression result: %s -> %s"
               [AStr s; AValue (VInt z)] None).
Proof.
  intros Hs Hz. pose proof (eval_integer t z Hz) as He.
  split.
  - rewrite evaluate_expression_outcome, Hs. exact He.
  - rewrite evaluate_expression_logged, Hs, He.
    rewrite app_comm_cons. apply last_snoc.
Qed.

Lemma arith_kind fi ff (ints : bool) (a b v : value) :
  (forall x y v, fi x y = Ok v -> is_float v = ints /\ forall b0, v <> VBool b0) ->
  (forall x y v, ff x y = Ok v -> exists f, v = VFloat f) ->
  arith fi ff a b = Ok v ->
  is_float v = (if is_float a || is_float b then true else ints)
  /\ forall b0, v <> VBool b0.
Proof.
  intros Hfi Hff. unfold arith.
  assert (bind (to_double a) (fun x => bind (to_double b) (fun y => ff x y)) = Ok v ->
          is_float v = true /\ forall b0, v <> VBool b0) as Hfloat.
  { destruct (to_double a) as [x|]; cbn; [|discriminate].
    destruct (to_double b) as [y|]; cbn; [|discriminate].
    intros H. destruct (Hff x y v H) as [f ->]. split; [reflexivity|discriminate]. }
  destruct a as [x|x|x], b as [y|y|y]; cbn [as_int is_float orb];
    try exact Hfloat; apply Hfi.
Qed.

Lemma _OPS_kind (op : operator) f (a b v : value) :
  _OPS op = Some f -> f a b = Ok v ->
  is_float v = match op with
               | Div => true
               | _ => is_float a || is_float b
               end
  /\ forall b0, v <> VBool b0.
Proof.
  destruct op; intros [= <-] Hv.
  - apply (arith_kind _ _ false) in Hv.
    + destruct (is_float a || is_float b); exact Hv.
    + intros x y w [= <-]. split; [reflexivity|discriminate].
    + intros x y w [= <-]. eauto.
  - apply (arith_kind _ _ false) in Hv.
    + destruct (is_float a || is_float b); exact Hv.
    + intros x y w [= <-]. split; [reflexivity|discriminate].
    + intros x y w [= <-]. eauto.
  - apply (arith_kind _ _ false) in Hv.
    + destruct (is_float a || is_float b); exact Hv.
    + intros x y w [= <-]. split; [reflexivity|discriminate].
    + intros x y w [= <-]. eauto.
  - apply (arith_kind _ _ true) in Hv.
    + destruct (is_float a || is_float b); exact Hv.
    + intros x y w. unfold long_true_divide.
      destruct (y =? 0)%Z; [discriminate|].
      destruct (fdiv _ _); intros [= <-]; split; try reflexivity; discriminate.
    + intros x y w. destruct (float_is_zero y); [discriminate|].
      intros [= <-]. eauto.
Qed.

(** X2.  The type of a result follows Python's numbers: a division always
    gives a float, even when it is exact; a sum, difference or product
    gives a float exactly when one of its operands is a float, and an int
    otherwise; no binary operation gives a bool. *)
Theorem binary_operation_result_type (l r : node) (op : operator) (a b v : value) :
  outcome (_eval_node l) = Ok a -> outcome (_eval_node r) = Ok b ->
  outcome (_eval_node (BinOp l op r)) = Ok v ->
  is_float v = match op with
               | Div => true
               | _ => is_float a || is_float b
               end
  /\ forall b0, v <> VBool b0.
Proof.
  intros Ha Hb. rewrite eval_BinOp, Ha, Hb. cbn [bind].
  destruct (_OPS op) as [f|] eqn:Hop; [|discriminate].
  intros Hv. exact (_OPS_kind op f a b v Hop Hv).
Qed.

Lemma eval_Ok_supported (t : node) (v : value) :
  outcome (_eval_node t) = Ok v -> supported t = true.
Proof.
  revert v. induction t as [b IH|l IHl op r IHr|op t IH|c|cls]; intros v.
  - apply IH.
  - rewrite eval_BinOp. cbn [supported].
    destruct (outcome (_eval_node l)) as [x|]; cbn [bind]; [|discriminate].
    destruct (outcome (_eval_node r)) as [y|]; cbn [bind]; [|discriminate].
    destruct (_OPS op); [|discriminate].
    intros _. by rewrite (IHl x), (IHr y).
  - destruct op; try discriminate.
    + rewrite eval_UAdd. destruct (outcome (_eval_node t)) as [x|]; [|discriminate].
      intros _. exact (IH x eq_refl).
    + rewrite eval_USub. destruct (outcome (_eval_node t)) as [x|]; [|discriminate].
      intros _. exact (IH x eq_refl).
  - cbn. destruct (numeric_constant c); [reflexivity|discriminate].
  - discriminate.
Qed.

Lemma supported_error (t : node) (e : exn) :
  supported t = true -> outcome (_eval_node t) = Raise e ->
  exn_type e = ZeroDivisionError \/ exn_type e = OverflowError.
Proof.
  revert e. induction t as [b IH|l IHl op r IHr|op t IH|c|cls]; intros e; cbn [supported].
  - apply IH.
  - rewrite !andb_true_iff. intros [[Hop Hl] Hr]. rewrite eval_BinOp.
    destruct (outcome (_eval_node l)) as [x|e1] eqn:El; cbn [bind];
      [|intros [= <-]; by apply IHl].
    destruct (outcome (_eval_node r)) as [y|e2] eqn:Er; cbn [bind];
      [|intros [= <-]; by apply IHr].
    destruct (_OPS op) as [f|] eqn:Hf; [|discriminate].
    intros He. eapply _OPS_error; eauto.
  - destruct op; try discriminate; intros Ht.
    + rewrite eval_UAdd. destruct (outcome (_eval_node t)) as [x|e1] eqn:Et; cbn;
        [discriminate|]. intros [= <-]. by apply IH.
    + rewrite eval_USub. destruct (outcome (_eval_node t)) as [x|e1] eqn:Et; cbn;
        [discriminate|]. intros [= <-]. by apply IH.
  - cbn. destruct (numeric_constant c); discriminate.
  - discriminate.
Qed.

(** X3.  [evaluate_expression] returns a value only for a tree made of the
    supported nodes (operators of [_OPS], the two signs, numbers); on such
    a tree it never raises ValueError: the only exceptions are
    ZeroDivisionError and OverflowError, raised by the arithmetic. *)
Theorem supported_trees (ast_parse : string -> result node) (s : string) (t : node) :
  ast_parse s = Ok t ->
  (forall v, outcome (evaluate_expression ast_parse s) = Ok v -> supported t = true)
  /\ (supported t = true ->
      forall e, outcome (evaluate_expression ast_parse s) = Raise e ->
        exn_type e = ZeroDivisionError \/ exn_type e = OverflowError).
Proof.
  intros Hs. rewrite evaluate_expression_outcome, Hs. cbn [bind]. split.
  - intros v. apply eval_Ok_supported.
  - intros Ht e. by apply supported_error.
Qed.

(** X4.  A record at the level ERROR is logged exactly when the call
    raises: [evaluate_expression] and [calculate] log one such record when
    they raise and none when they return. *)
Theorem error_logged_iff_raised :
  (forall ast_parse s,
     error_count (evaluate_expression ast_parse s)
     = if is_ok (outcome (evaluate_expression ast_parse s)) then 0%nat else 1%nat)
  /\ (forall first last_ s,
        error_count (calculate first last_ s)
        = if is_ok (outcome (calculate first last_ s)) then 0%nat else 1%nat).
Proof.
  split.
  - intros ast_parse s. unfold error_count.
    rewrite evaluate_expression_logged, evaluate_expression_outcome.
    destruct (ast_parse s) as [t|e]; cbn [bind]; [|reflexivity].
    cbn [List.filter is_error_record log_level]. rewrite List.filter_app, eval_logs_debug.
    destruct (outcome (_eval_node t)); reflexivity.
  - intros first last_ s. unfold error_count, calculate.
    destruct (ops !! s) as [f|]; [|reflexivity].
    cbn. destruct (f first last_); reflexivity.
Qed.

Lemma eval_log_count (t : node) (v : value) :
  outcome (_eval_node t) = Ok v -> length (logged (_eval_node t)) = binops t.
Proof.
  revert v. induction t as [b IH|l IHl op r IHr|op t IH|c|cls]; intros v.
  - apply IH.
  - rewrite eval_BinOp. cbn [_eval_node binops].
    rewrite logged_bindM.
    destruct (outcome (_eval_node l)) as [x|] eqn:El; cbn [bind]; [|discriminate].
    rewrite logged_bindM.
    destruct (outcome (_eval_node r)) as [y|] eqn:Er; cbn [bind]; [|discriminate].
    destruct (_OPS op) as [f|]; [|discriminate].
    intros Hv. rewrite !length_app, (IHl x eq_refl), (IHr y eq_refl).
    cbn. rewrite Hv. cbn. lia.
  - destruct op; try discriminate.
    + rewrite eval_UAdd. cbn [_eval_node binops]. rewrite logged_bindM.
      destruct (outcome (_eval_node t)) as [x|] eqn:Et; [|discriminate].
      intros _. rewrite length_app, (IH x eq_refl). cbn. lia.
    + rewrite eval_USub. cbn [_eval_node binops]. rewrite logged_bindM.
      destruct (outcome (_eval_node t)) as [x|] eqn:Et; [|discriminate].
      intros _. rewrite length_app, (IH x eq_refl). cbn. lia.
  - cbn. destruct (numeric_constant c); [reflexivity|discriminate].
  - discriminate.
Qed.

Lemma eval_log_levels (t : node) :
  Forall (fun r => log_level r = DEBUG) (logged (_eval_node t)).
Proof.
  induction t as [b IH|l IHl op r IHr|op t IH|c|cls]; cbn [_eval_node].
  - exact IH.
  - rewrite logged_bindM. apply Forall_app. split; [exact IHl|].
    destruct (outcome (_eval_node l)) as [x|]; [|constructor].
    rewrite logged_bindM. apply Forall_app. split; [exact IHr|].
    destruct (outcome (_eval_node r)) as [y|]; [|constructor].
    destruct (_OPS op) as [f|]; [|constructor].
    cbn. destruct (f x y); cbn; repeat constructor.
  - destruct op; try constructor.
    + rewrite logged_bindM. apply Forall_app. split; [exact IH|].
      destruct (outcome (_eval_node t)); constructor.
    + rewrite logged_bindM. apply Forall_app. split; [exact IH|].
      destruct (outcome (_eval_node t)); constructor.
  - cbn. destruct (numeric_constant c); constructor.
  - constructor.
Qed.

(** X5.  When [evaluate_expression] returns, its log is the record of the
    expression, one DEBUG record for each binary operation of the tree,
    and the record of the result. *)
Theorem evaluate_expression_success_log (ast_parse : string -> result node)
    (s : string) (t : node) (v : value) :
  ast_parse s = Ok t -> outcome (evaluate_expression ast_parse s) = Ok v ->
  logged (evaluate_expression ast_parse s)
  = Log INFO "Evaluating expression: %s" [AStr s] None
    :: logged (_eval_node t)
    ++ [Log INFO "Evaluated expression result: %s -> %s" [AStr s; AValue v] None]
  /\ length (logged (_eval_node t)) = binops t
  /\ Forall (fun r => log_level r = DEBUG) (logged (_eval_node t)).
Proof.
  intros Hs. rewrite evaluate_expression_outcome, evaluate_expression_logged, Hs.
  cbn [bind]. intros Hv. rewrite Hv. split; [reflexivity|].
  split; [exact (eval_log_count t v Hv)|exact (eval_log_levels t)].
Qed.

(** X6.  On two floats [calculate] returns exactly when the symbol is one
    of + - *, or is / with a divisor other than zero, and what it returns
    is a float: float arithmetic overflows to an infinity, it does not
    raise. *)
Theorem calculate_on_floats (x y : float) (s : string) :
  (is_ok (outcome (calculate (VFloat x) (VFloat y) s)) = true
   <-> s = "+" \/ s = "-" \/ s = "*" \/ (s = "/" /\ float_is_zero y = false))
  /\ forall v, outcome (calculate (VFloat x) (VFloat y) s) = Ok v ->
       exists f, v = VFloat f.
Proof.
  destruct (decide (s = "+")) as [->|H1];
    [rewrite (calculate_found _ _ _ _ ops_add)|].
  { split; [split; [tauto|reflexivity]|]. intros v [= <-]. eauto. }
  destruct (decide (s = "-")) as [->|H2];
    [rewrite (calculate_found _ _ _ _ ops_sub)|].
  { split; [split; [tauto|reflexivity]|]. intros v [= <-]. eauto. }
  destruct (decide (s = "*")) as [->|H3];
    [rewrite (calculate_found _ _ _ _ ops_mul)|].
  { split; [split; [tauto|reflexivity]|]. intros v [= <-]. eauto. }
  destruct (decide (s = "/")) as [->|H4];
    [rewrite (calculate_found _ _ _ _ ops_truediv)|].
  { cbn. destruct (float_is_zero y); cbn.
    - split; [|discriminate]. split; [discriminate|].
      intros [|[|[|[_ ?]]]]; discriminate.
    - split; [split; [tauto|reflexivity]|]. intros v [= <-]. eauto. }
  unfold calculate. rewrite (ops_other s H1 H2 H3 H4). cbn.
  split; [|discriminate]. split; [discriminate|].
  intros [|[|[|[? _]]]]; congruence.
Qed.

End OperationsMore.

Section OperationsAgreement.
Import Py Ast PyParser Grammar Operations Examples.

Lemma binary_expression_wf (a : literal) sp1 op sp2 (b : literal) sp3 :
  wf_literal a = true -> wf_literal b = true ->
  wf_sum (binary_expression a sp1 op sp2 b sp3) = true.
Proof.
  intros Ha Hb. destruct op; cbn; rewrite Ha, Hb; reflexivity.
Qed.

Lemma binary_expression_value (a : literal) sp1 op sp2 (b : literal) sp3 f :
  ops !! binary_symbol op = Some f ->
  sum_value (binary_expression a sp1 op sp2 b sp3)
  = f (literal_value a) (literal_value b).
Proof.
  destruct op as [[]|[]]; intros [= <-]; reflexivity.
Qed.

(** X7.  The two entry points agree: an expression "a op b" of two number
    literals (spaces allowed after each token) evaluates with
    [evaluate_expression] to what [calculate] gives for the values of the
    literals and the symbol of the operator, and raises when it raises;
    the string is the first literal, the symbol and the second literal. *)
Theorem evaluate_binary_agrees_with_calculate (ast_parse : string -> result node)
    (a : literal) (sp1 : nat) (op : binary_operator) (sp2 : nat) (b : literal)
    (sp3 : nat) :
  agrees_with_model ast_parse -> wf_literal a = true -> wf_literal b = true ->
  render (binary_expression a sp1 op sp2 b sp3)
  = string_of_list_ascii
      (literal_chars a
         (spaces sp1
            (list_ascii_of_string (binary_symbol op)
             ++ spaces sp2 (literal_chars b (spaces sp3 [])))))
  /\ outcome (evaluate_expression ast_parse
                (render (binary_expression a sp1 op sp2 b sp3)))
     = outcome (calculate (literal_value a) (literal_value b) (binary_symbol op)).
Proof.
  intros Hparse Ha Hb. split.
  - destruct op as [[]|[]]; reflexivity.
  - pose proof (binary_expression_wf a sp1 op sp2 b sp3 Ha Hb) as Hw.
    rewrite evaluate_expression_outcome,
      (Hparse _ _ (ast_parse_model_grammar _ Hw)).
    cbn [bind _eval_node]. destruct eval_grammar as (-> & _).
    assert (exists f, ops !! binary_symbol op = Some f) as [f Hf]
      by (destruct op as [[]|[]]; eexists; reflexivity).
    rewrite (calculate_found _ _ _ f Hf).
    by apply binary_expression_value.
Qed.

(** "2+3*4" is an integer expression: its value is the int 14. *)
Lemma evaluate_integer_expression_witness :
  outcome (evaluate_expression parse_or_reject "2+3*4") = Ok (VInt 14)
  /\ last (logged (evaluate_expression parse_or_reject "2+3*4"))
     = Some (Log INFO "Evaluated expression result: %s -> %s"
               [AStr "2+3*4"; AValue (VInt 14)] None).
Proof.
  apply (evaluate_integer_expression parse_or_reject "2+3*4"
           (Expression (sum_node two_plus_three_times_four)) 14);
    reflexivity.
Defined.

(** 6 / 3 is a float, and 6 - 3 is not. *)
Lemma binary_operation_result_type_witness :
  (exists v, outcome (_eval_node (BinOp (Constant (CInt 6)) Div (Constant (CInt 3))))
             = Ok v /\ is_float v = true)
  /\ (exists v, outcome (_eval_node (BinOp (Constant (CInt 6)) Sub (Constant (CInt 3))))
                = Ok v /\ is_float v = false).
Proof.
  split.
  - destruct (outcome (_eval_node (BinOp (Constant (CInt 6)) Div (Constant (CInt 3)))))
      as [v|e] eqn:Hv; [|vm_compute in Hv; discriminate].
    exists v. split; [reflexivity|].
    exact (proj1 (binary_operation_result_type (Constant (CInt 6)) (Constant (CInt 3))
                    Div (VInt 6) (VInt 3) v eq_refl eq_refl Hv)).
  - destruct (outcome (_eval_node (BinOp (Constant (CInt 6)) Sub (Constant (CInt 3)))))
      as [v|e] eqn:Hv; [|vm_compute in Hv; discriminate].
    exists v. split; [reflexivity|].
    exact (proj1 (binary_operation_result_type (Constant (CInt 6)) (Constant (CInt 3))
                    Sub (VInt 6) (VInt 3) v eq_refl eq_refl Hv)).
Defined.

(** "1/0" is a supported tree: it raises, and what it raises is a
    ZeroDivisionError or an OverflowError. *)
Lemma supported_trees_witness :
  exists e, outcome (evaluate_expression parse_or_reject "1/0") = Raise e
    /\ (exn_type e = ZeroDivisionError \/ exn_type e = OverflowError).
Proof.
  destruct (outcome (evaluate_expression parse_or_reject "1/0")) as [v|e] eqn:He;
    [vm_compute in He; discriminate|].
  exists e. split; [reflexivity|].
  exact (proj2 (supported_trees parse_or_reject "1/0"
                  (Expression (BinOp (Constant (CInt 1)) Div (Constant (CInt 0))))
                  eq_refl) eq_refl e He).
Defined.

(** "2+3*4" has two binary operations: its log has four records. *)
Lemma evaluate_expression_success_log_witness :
  length (logged (evaluate_expression parse_or_reject "2+3*4")) = 4%nat.
Proof.
  destruct (evaluate_expression_success_log parse_or_reject "2+3*4"
              (Expression (sum_node two_plus_three_times_four)) (VInt 14)
              eq_refl eq_refl) as (-> & Hn & _).
  cbn [length]. rewrite length_app, Hn. reflexivity.
Defined.

(** "1.5 * 4" is the product of the literals 1.5 and 4. *)
Lemma evaluate_binary_agrees_with_calculate_witness :
  outcome (evaluate_expression parse_or_reject "1.5 * 4")
  = outcome (calculate (VFloat (float_of_decimal 15 (-1))) (VInt 4) "*").
Proof.
  exact (proj2 (evaluate_binary_agrees_with_calculate parse_or_reject
                  (FloatLit ["1"%char] (Some ["5"%char]) None) 1 (BMul Times) 1
                  (IntLit ["4"%char]) 0 parse_or_reject_agrees eq_refl eq_refl)).
Defined.

End OperationsAgreement.

(** ** HW8/HW8/main.py: responses and sessions *)

Section MainMore.
Import Py Ast Operations Main.

Variable ast_parse : string -> result node.
Variable float_repr : float -> string.
Variable datetime : Type.
Variable isoformat : datetime -> string.
Variable field : Type.
Variable float_of_field : field -> result float.
Variable str_of_field : field -> string.

Local Abbreviation app := (app ast_parse float_repr datetime isoformat field
                         float_of_field str_of_field).
Local Abbreviation serve := (serve ast_parse float_repr datetime isoformat field
                           float_of_field str_of_field).
Local Abbreviation recorded := (recorded datetime isoformat).
Local Abbreviation session_records := (session_records datetime isoformat field).
Local Abbreviation saved_entry := (saved_entry datetime isoformat).

Lemma calculate_floats_cases (x y : float) (s : string) :
  match outcome (calculate (VFloat x) (VFloat y) s) with
  | Ok v =>
      (s = "+" \/ s = "-" \/ s = "*" \/ (s = "/" /\ float_is_zero y = false))
      /\ exists f, v = VFloat f
  | Raise exc =>
      (s <> "+" /\ s <> "-" /\ s <> "*" /\ s <> "/"
       /\ exc = Exn ValueError "only simple math requiert")
      \/ (s = "/" /\ float_is_zero y = true
          /\ exc = Exn ZeroDivisionError "float division by zero")
  end.
Proof.
  destruct (decide (s = "+")) as [->|H1];
    [rewrite (calculate_found _ _ _ _ ops_add); cbn; eauto|].
  destruct (decide (s = "-")) as [->|H2];
    [rewrite (calculate_found _ _ _ _ ops_sub); cbn; eauto 6|].
  destruct (decide (s = "*")) as [->|H3];
    [rewrite (calculate_found _ _ _ _ ops_mul); cbn; eauto 7|].
  destruct (decide (s = "/")) as [->|H4];
    [rewrite (calculate_found _ _ _ _ ops_truediv); cbn|].
  { destruct (float_is_zero y); cbn; [right; auto|]. split; [|eauto]. auto 6. }
  unfold calculate. rewrite (ops_other s H1 H2 H3 H4). cbn. left. auto 6.
Qed.

(** The formatting of a float does not raise. *)
Lemma post_fmt_float (f : float) :
  exists s, post_fmt float_repr (VFloat f) = Ok s.
Proof.
  unfold post_fmt. destruct (float_is_integer f) eqn:Hi; [|by eexists].
  destruct (int_of_integral_float f Hi) as [z ->]. by eexists.
Qed.

(** X8.  POST /calc with two fields that convert to floats.  It responds
    with the body of a calculation exactly for the symbols + - * and for /
    with a divisor other than zero; the result is then formatted from a
    float, the operation is the two fields around the symbol, and the
    record is stored.  For any other symbol the response is the detail
    "only simple math requiert", for a zero divisor the detail "float
    division by zero", and nothing is stored. *)
Theorem post_calc_response (e : env datetime) (first last : field) (op : string)
    (st : list entry) (x y : float) :
  float_of_field first = Ok x -> float_of_field last = Ok y ->
  let run := app e (PostCalc field first last op) st in
  match fst run with
  | CalcBody r =>
      (op = "+" \/ op = "-" \/ op = "*" \/ (op = "/" /\ float_is_zero y = false))
      /\ (exists f, outcome (calculate (VFloat x) (VFloat y) op) = Ok (VFloat f)
            /\ post_fmt float_repr (VFloat f) = Ok (r_result r))
      /\ r_operation r = str_of_field first +:+ op +:+ str_of_field last
      /\ r_uid r = uuid4 datetime e
      /\ snd run = st ++ [saved_entry e (r_operation r) (r_result r)]
  | DetailBody d =>
      snd run = st
      /\ ((op <> "+" /\ op <> "-" /\ op <> "*" /\ op <> "/"
           /\ d = "only simple math requiert")
          \/ (op = "/" /\ float_is_zero y = true
              /\ d = "float division by zero"))
  | HistoryBody _ => False
  end.
Proof.
  intros Hx Hy. cbn. unfold post_calc. rewrite Hx, Hy. cbn [bind].
  pose proof (calculate_floats_cases x y op) as H.
  destruct (outcome (calculate (VFloat x) (VFloat y) op)) as [v|exc] eqn:Hc;
    cbn [bind].
  - destruct H as (Hop & f & ->). destruct (post_fmt_float f) as [s Hs].
    rewrite Hs. cbn. split; [exact Hop|].
    split; [exists f; split; [exact Hc|exact Hs]|]. auto.
  - cbn. split; [reflexivity|].
    destruct H as [(H1 & H2 & H3 & H4 & ->)|(-> & Hz & ->)]; [left; auto 6|].
    right. auto.
Qed.

(** X9.  GET /calc on an expression of ints with the operators + - * and
    signs.  When the exact integer value has at most 4300 digits, the
    response holds its decimal notation, the expression itself and the id
    drawn, and that record is stored; when it has more, [str] refuses
    it: the response is the detail of that ValueError and nothing is
    stored. *)
Theorem get_calc_integer_expression (e : env datetime) (expression : string)
    (t : node) (z : Z) (st : list entry) :
  ast_parse expression = Ok t -> integer_value t = Some z ->
  app e (GetCalc field expression) st
  = if fits_str_digits z
    then (CalcBody (Responce (str_int z) expression (uuid4 datetime e)),
          st ++ [Entry expression (str_int z) (isoformat (now datetime e))
                   (uuid4 datetime e)])
    else (DetailBody (exn_msg digits_limit_error), st).
Proof.
  intros Hs Hz. cbn [Main.app]. unfold get_calc.
  rewrite evaluate_expression_outcome, Hs. cbn [bind].
  rewrite (eval_integer t z Hz). cbn [bind].
  unfold _fmt, str_value, str_of_int.
  destruct (fits_str_digits z); reflexivity.
Qed.

Lemma app_step (e : env datetime) (req : request field) (st : list entry) :
  snd (app e req st) = st ++ recorded e (fst (app e req st))
  /\ forall r, fst (app e req st) = CalcBody r -> r_uid r = uuid4 datetime e.
Proof.
  destruct req as [|expression|first last op]; cbn.
  - split; [by rewrite app_nil_r|discriminate].
  - pose proof (get_calc_cases ast_parse float_repr datetime isoformat
                  e expression st) as H.
    destruct (get_calc _ _ _ _ _ _ _) as [[r|exc] st']; cbn.
    + destruct H as (-> & Hu & _). split; [reflexivity|]. by intros ? [= <-].
    + subst st'. split; [by rewrite app_nil_r|discriminate].
  - pose proof (post_calc_cases float_repr datetime isoformat field float_of_field
                  str_of_field e first last op st) as H.
    destruct (post_calc _ _ _ _ _ _ _ _ _ _ _) as [[r|exc] st']; cbn.
    + destruct H as (-> & Hu & _). split; [reflexivity|]. by intros ? [= <-].
    + subst st'. split; [by rewrite app_nil_r|discriminate].
Qed.

Lemma serve_cons (e : env datetime) (req : request field) reqs (st : list entry) :
  serve ((e, req) :: reqs) st
  = (fst (app e req st) :: fst (serve reqs (snd (app e req st))),
     snd (serve reqs (snd (app e req st)))).
Proof.
  cbn [Main.serve]. destruct (app e req st) as [body st'].
  cbn [fst snd]. destruct (serve reqs st'); reflexivity.
Qed.

Lemma serve_store reqs (st : list entry) :
  snd (serve reqs st) = st ++ session_records reqs (fst (serve reqs st))
  /\ length (fst (serve reqs st)) = length reqs.
Proof.
  revert st. induction reqs as [|[e req] reqs IH]; intros st.
  - cbn. by rewrite app_nil_r.
  - rewrite serve_cons. cbn [fst snd Main.session_records length].
    destruct (IH (snd (app e req st))) as [-> ->].
    destruct (app_step e req st) as [-> _].
    split; [by rewrite <- app_assoc|reflexivity].
Qed.

(** X10.  After a session the store is the store before it, followed by
    one record for each calculation body among the responses, in the
    order of the requests; requests that were answered with a detail and
    GET /history leave no trace.  There is one response for each request,
    and a GET /history that follows returns the whole store. *)
Theorem session_store (reqs : list (env datetime * request field))
    (st : list entry) (e : env datetime) :
  let bodies := fst (serve reqs st) in
  let final := snd (serve reqs st) in
  final = st ++ session_records reqs bodies
  /\ length bodies = length reqs
  /\ length final
     = (length st
        + length (List.filter (fun b => match b with CalcBody _ => true | _ => false end)
                    bodies))%nat
  /\ app e (GetHistory field) final = (HistoryBody final, final).
Proof.
  cbn zeta. destruct (serve_store reqs st) as [Hst Hlen].
  split; [exact Hst|]. split; [exact Hlen|]. split.
  - rewrite Hst at 1. rewrite length_app. f_equal.
    clear Hst. revert Hlen. generalize (fst (serve reqs st)) as bodies.
    induction reqs as [|[e0 req] reqs IH]; intros [|b bodies]; try discriminate;
      [reflexivity|].
    cbn [length]. intros [= Hlen]. cbn [Main.session_records List.filter].
    rewrite length_app, (IH bodies Hlen). destruct b; reflexivity.
  - cbn. by rewrite objects_to_json_all.
Qed.

Lemma session_records_ids reqs bodies (x : entry) :
  x ∈ session_records reqs bodies ->
  entry_id x ∈ map (fun p => uuid4 datetime (fst p)) reqs.
Proof.
  revert bodies. induction reqs as [|[e req] reqs IH]; intros [|b bodies];
    cbn [Main.session_records]; try (by intros ?%elem_of_nil).
  rewrite elem_of_app. intros [Hx|Hx].
  - destruct b; cbn in Hx; try (by apply elem_of_nil in Hx).
    apply list_elem_of_singleton in Hx as ->. cbn. apply elem_of_cons. by left.
  - cbn [map]. apply elem_of_cons. right. by eapply IH.
Qed.

Lemma filter_id_none (u : string) (l : list entry) :
  (forall x, x ∈ l -> entry_id x <> u) ->
  filter (fun x => entry_id x = u) l = [].
Proof.
  intros H. induction l as [|x l IH]; [reflexivity|].
  rewrite filter_cons_False.
  - apply IH. intros y Hy. apply H. by right.
  - apply H. by left.
Qed.

(** X11.  When the ids drawn during a session are pairwise distinct and
    none of them is in the store already, the uid of a calculation
    response identifies its record: at the end of the session exactly one
    stored record has that id, and it carries the operation and the
    result of the response. *)
Theorem uid_identifies_record (reqs : list (env datetime * request field))
    (st : list entry) (i : nat) (e : env datetime) (req : request field)
    (r : responce) :
  NoDup (map (fun p => uuid4 datetime (fst p)) reqs) ->
  (forall x, x ∈ st -> entry_id x ∉ map (fun p => uuid4 datetime (fst p)) reqs) ->
  reqs !! i = Some (e, req) ->
  fst (serve reqs st) !! i = Some (CalcBody r) ->
  r_uid r = uuid4 datetime e
  /\ filter (fun x => entry_id x = r_uid r) (snd (serve reqs st))
     = [Entry (r_operation r) (r_result r) (isoformat (now datetime e)) (r_uid r)].
Proof.
  revert st i. induction reqs as [|[e0 req0] reqs IH]; intros st i Hnd Hfresh;
    [discriminate|].
  rewrite serve_cons. cbn [fst snd map] in *.
  apply NoDup_cons in Hnd as [Hnew Hnd].
  destruct (app_step e0 req0 st) as [Hst Huid].
  destruct i as [|i]; cbn [lookup list_lookup].
  - intros [= <- <-] [= Hb]. specialize (Huid r Hb).
    split; [exact Huid|].
    destruct (serve_store reqs (snd (app e0 req0 st))) as [-> _].
    rewrite Hst, Hb. cbn [Main.recorded].
    rewrite !filter_app, filter_cons_True by (cbn; congruence).
    rewrite filter_nil, !filter_id_none.
    + unfold Main.saved_entry. by rewrite Huid.
    + intros x Hx%session_records_ids. rewrite Huid. congruence.
    + intros x Hx. rewrite Huid. intros Hid. apply (Hfresh x Hx).
      rewrite Hid. apply elem_of_cons. by left.
  - intros Hreq Hbody. apply (IH (snd (app e0 req0 st)) i Hnd); [|exact Hreq|exact Hbody].
    intros x. rewrite Hst, elem_of_app. intros [Hx|Hx].
    + intros Hin. apply (Hfresh x Hx). apply elem_of_cons. by right.
    + destruct (fst (app e0 req0 st)); cbn in Hx; try (by apply elem_of_nil in Hx).
      apply list_elem_of_singleton in Hx as ->. exact Hnew.
Qed.

End MainMore.

Section MainWitnesses.
Import Py Ast PyParser Operations Main Examples.

(** POST /calc of 6 / 0 answers with a detail and stores nothing. *)
Lemma post_calc_response_witness :
  snd (app parse_or_reject integral_repr nat clock_reading Z int_field_float
         str_int (Env nat 0 "id-a") (PostCalc Z 6%Z 0%Z "/") [])
  = [].
Proof.
  pose proof (post_calc_response parse_or_reject integral_repr nat clock_reading Z int_field_float
                str_int (Env nat 0 "id-a") 6%Z 0%Z "/" [] (float_of_Z 6) (float_of_Z 0)
                eq_refl eq_refl) as H.
  vm_compute in H. destruct H as [H _]. vm_compute. exact H.
Defined.

(** GET /calc?expression=2+3*4 answers 14. *)
Lemma get_calc_integer_expression_witness :
  app parse_or_reject integral_repr nat clock_reading Z int_field_float
    str_int (Env nat 0 "id-a") (GetCalc Z "2+3*4") []
  = (CalcBody (Responce "14" "2+3*4" "id-a"), [Entry "2+3*4" "14" "0" "id-a"]).
Proof.
  rewrite (get_calc_integer_expression parse_or_reject integral_repr nat
             clock_reading Z int_field_float str_int (Env nat 0 "id-a") "2+3*4"
             (Expression (BinOp (Constant (CInt 2)) Add
                            (BinOp (Constant (CInt 3)) Mult (Constant (CInt 4)))))
             14%Z [] eq_refl eq_refl).
  vm_compute. reflexivity.
Defined.

(** In the session of the two requests, the uid of the second response
    finds the record of 6/3. *)
Lemma uid_identifies_record_witness :
  filter (fun x => entry_id x = "id-b")
    (snd (serve parse_or_reject integral_repr nat clock_reading Z int_field_float
            str_int two_requests []))
  = [Entry "6/3" "2" "1" "id-b"].
Proof.
  assert (NoDup (map (fun p : env nat * request Z => uuid4 nat (fst p)) two_requests))
    as Hnd.
  { cbn. repeat constructor; rewrite ?elem_of_cons, ?elem_of_nil;
      intros H; repeat destruct H as [H|H]; try discriminate; exact H. }
  exact (proj2 (uid_identifies_record parse_or_reject integral_repr nat clock_reading
                  Z int_field_float str_int two_requests [] 1
                  (Env nat 1 "id-b") (PostCalc Z 6%Z 3%Z "/")
                  (Responce "2" "6/3" "id-b") Hnd
                  (fun x Hx => False_ind _ (proj1 (elem_of_nil x) Hx))
                  eq_refl eq_refl)).
Defined.

End MainWitnesses.

(** ** calculator/__init__.py: the validators *)

Section StringProperties.
Import PyStr.

Lemma same_eq (a b : list ascii) : same a b = true <-> a = b.
Proof.
  revert b. induction a as [|x a IH]; intros [|y b]; cbn; try (split; done).
  rewrite andb_true_iff, IH, Ascii.eqb_eq. split; [by intros [-> ->]|by intros [= -> ->]].
Qed.

Lemma chars_segmented (s : list ascii) : segmented (chars s) = true.
Proof.
  induction s as [|c s IH]; [reflexivity|]. cbn [chars].
  destruct (chars s) as [|[|d ch] rest]; try reflexivity.
  destruct (is_continuation d) eqn:Hd.
  - cbn [segmented forallb] in IH |- *. by rewrite Hd.
  - cbn [segmented forallb]. rewrite Hd. exact IH.
Qed.

Lemma concat_chars (s : list ascii) : concat (chars s) = s.
Proof.
  induction s as [|c s IH]; [reflexivity|].
  pose proof (chars_segmented s) as Hs. cbn [chars].
  destruct (chars s) as [|[|d ch] rest]; [by subst s|discriminate|].
  cbn [concat] in IH. subst s. by destruct (is_continuation d).
Qed.

Lemma segmented_app (a b : list (list ascii)) :
  segmented (a ++ b) = true -> segmented a = true /\ segmented b = true.
Proof.
  induction a as [|ch a IH]; [by split|].
  cbn [app segmented]. rewrite !andb_true_iff. intros [[Hch Hn] Hr].
  destruct (IH Hr) as [Ha Hb]. split; [|exact Hb].
  split; [split; [exact Hch|]|exact Ha].
  destruct a as [|[|d t] a]; [reflexivity|reflexivity|exact Hn].
Qed.

Lemma chars_cons (c : ascii) (s : list ascii) :
  chars (c :: s)
  = match chars s with
    | (d :: ch) :: rest =>
        if is_continuation d then (c :: d :: ch) :: rest
        else [c] :: (d :: ch) :: rest
    | _ => [[c]]
    end.
Proof. reflexivity. Qed.

Lemma chars_char (t : list ascii) (r : list (list ascii)) (c : ascii) :
  forallb is_continuation t = true ->
  chars (concat r) = r ->
  match r with (d :: _) :: _ => negb (is_continuation d) | _ => true end = true ->
  chars (c :: t ++ concat r) = (c :: t) :: r.
Proof.
  intros Ht Hr Hn. revert c. induction t as [|x t IH]; intros c.
  - pose proof (chars_segmented (concat r)) as Hs. rewrite Hr in Hs.
    cbn [app chars]. rewrite Hr.
    destruct r as [|[|d ch] rest]; [reflexivity|discriminate|].
    apply negb_true_iff in Hn. by rewrite Hn.
  - cbn [forallb] in Ht. apply andb_true_iff in Ht as [Hx Ht].
    rewrite <- app_comm_cons, (chars_cons c), (IH Ht x). by rewrite Hx.
Qed.

(** A list of characters is the list of characters of its text. *)
Lemma segmented_chars (cs : list (list ascii)) :
  segmented cs = true -> chars (concat cs) = cs.
Proof.
  induction cs as [|ch cs IH]; [reflexivity|].
  cbn [segmented]. rewrite !andb_true_iff. intros [[Hch Hn] Hr].
  destruct ch as [|c t]; [discriminate|].
  cbn [concat]. rewrite <- app_comm_cons. by apply chars_char; [| apply IH |].
Qed.

Lemma lstrip_spec (cs : list (list ascii)) :
  exists ws, cs = ws ++ lstrip cs /\ headed (lstrip cs) = true.
Proof.
  induction cs as [|ch cs (ws & Hl & Hh)]; [by exists []|].
  cbn [lstrip]. destruct (isspace ch) eqn:Hc.
  - exists (ch :: ws). split; [cbn; by f_equal|exact Hh].
  - exists []. split; [reflexivity|]. cbn [headed]. by rewrite Hc.
Qed.

Lemma lstrip_headed (cs : list (list ascii)) : headed cs = true -> lstrip cs = cs.
Proof.
  destruct cs as [|ch cs]; [reflexivity|]. cbn [headed lstrip].
  by destruct (isspace ch).
Qed.

(** [strip] leaves a text of characters with no space at either end as
    it is. *)
Lemma strip_fixed (cs : list (list ascii)) :
  segmented cs = true -> headed cs = true -> headed (rev cs) = true ->
  strip (string_of_list_ascii (concat cs)) = string_of_list_ascii (concat cs).
Proof.
  intros Hs H1 H2. unfold strip.
  rewrite list_ascii_of_string_of_list_ascii, (segmented_chars cs Hs).
  by rewrite (lstrip_headed _ H1), (lstrip_headed _ H2), rev_involutive.
Qed.

(** The characters that [strip] keeps. *)
Lemma strip_kept (s : string) :
  exists cs, strip s = string_of_list_ascii (concat cs)
    /\ segmented cs = true /\ headed cs = true /\ headed (rev cs) = true.
Proof.
  unfold strip. set (l := chars (list_ascii_of_string s)).
  destruct (lstrip_spec l) as (ws & Hl & Ha). set (a := lstrip l) in *.
  destruct (lstrip_spec (rev a)) as (ws' & Hws & Hh).
  exists (rev (lstrip (rev a))). split; [reflexivity|].
  rewrite rev_involutive.
  apply (f_equal (@rev (list ascii))) in Hws.
  rewrite rev_involutive, rev_app_distr in Hws.
  assert (segmented a = true) as Hsa.
  { pose proof (chars_segmented (list_ascii_of_string s)) as Hs. fold l in Hs.
    rewrite Hl in Hs. by apply segmented_app in Hs as [_ ?]. }
  split; [rewrite Hws in Hsa; by apply segmented_app in Hsa as [? _]|].
  split; [|exact Hh].
  destruct (rev (lstrip (rev a))) as [|ch b]; [reflexivity|].
  rewrite Hws in Ha. exact Ha.
Qed.

Lemma strip_idempotent (s : string) : strip (strip s) = strip s.
Proof.
  destruct (strip_kept s) as (cs & -> & Hs & H1 & H2). by apply strip_fixed.
Qed.

Lemma spaceless_headed (cs : list (list ascii)) :
  spaceless cs = true -> headed cs = true.
Proof.
  destruct cs as [|ch cs]; [reflexivity|]. cbn [spaceless forallb headed].
  by intros [? _]%andb_true_iff.
Qed.

Lemma spaceless_app (l1 l2 : list (list ascii)) :
  spaceless (l1 ++ l2) = spaceless l1 && spaceless l2.
Proof. apply forallb_app. Qed.

Lemma spaceless_rev (cs : list (list ascii)) :
  spaceless cs = true -> spaceless (rev cs) = true.
Proof.
  induction cs as [|ch cs IH]; [reflexivity|]. cbn [rev].
  rewrite spaceless_app. cbn [spaceless forallb].
  intros [Hc Hl]%andb_true_iff. fold (spaceless cs) in Hl.
  by rewrite (IH Hl), Hc.
Qed.

Lemma split_go_parts (cur cs : list (list ascii)) :
  segmented (cur ++ cs) = true -> spaceless cur = true ->
  Forall part_of (split_go cur cs).
Proof.
  assert (forall cur, segmented cur = true -> spaceless cur = true ->
            Forall part_of (flush cur)) as Hflush.
  { intros [|ch l] Hs Hl; [constructor|]. repeat constructor.
    exists (ch :: l). by repeat split. }
  revert cur. induction cs as [|ch cs IH]; intros cur Hs Hcur; cbn [split_go].
  - rewrite app_nil_r in Hs. by apply Hflush.
  - destruct (isspace ch) eqn:Hc.
    + apply segmented_app in Hs as [Hs1 Hs2].
      apply Forall_app. split; [by apply Hflush|].
      apply (IH []); [|reflexivity].
      change (ch :: cs) with ([ch] ++ cs) in Hs2.
      by apply segmented_app in Hs2 as [_ ?].
    + apply IH.
      * by rewrite <- app_assoc.
      * rewrite spaceless_app, Hcur. cbn [spaceless forallb]. by rewrite Hc.
Qed.

(** The parts of [split] are not empty, and [strip] leaves them as they
    are. *)
Lemma split_parts (s p : string) :
  p ∈ split s -> p <> ""%string /\ strip p = p.
Proof.
  intros Hp.
  pose proof (split_go_parts [] (chars (list_ascii_of_string s))
                (chars_segmented _) eq_refl) as H.
  rewrite Forall_forall in H. destruct (H p Hp) as (cs & Hne & -> & Hs & Hsp).
  split.
  - destruct cs as [|[|c t] cs]; [done|discriminate|discriminate].
  - apply strip_fixed; [exact Hs| |]; apply spaceless_headed;
      [exact Hsp|by apply spaceless_rev].
Qed.

Lemma lower_char_e (c : ascii) :
  Ascii.eqb "e" (lower_char c) = Ascii.eqb "e" c || Ascii.eqb "E" c.
Proof. destruct c as [[] [] [] [] [] [] [] []]; reflexivity. Qed.

Lemma lower_char_idempotent (c : ascii) : lower_char (lower_char c) = lower_char c.
Proof. destruct c as [[] [] [] [] [] [] [] []]; reflexivity. Qed.

Lemma contains_e_lower (s : string) :
  contains "e" (lower s) = contains "e" s || contains "E" s.
Proof.
  unfold contains, lower. rewrite list_ascii_of_string_of_list_ascii.
  induction (list_ascii_of_string s) as [|c l IH]; [reflexivity|].
  cbn [map existsb]. rewrite IH, lower_char_e.
  destruct (Ascii.eqb "e" c), (Ascii.eqb "E" c), (existsb (Ascii.eqb "e") l); reflexivity.
Qed.

Lemma lower_idempotent (s : string) : lower (lower s) = lower s.
Proof.
  unfold lower. rewrite list_ascii_of_string_of_list_ascii, map_map.
  f_equal. apply map_ext. intros c. apply lower_char_idempotent.
Qed.

End StringProperties.

Section ValidatorProperties.
Import Py PyStr Calculator.

Variable int_of_str : string -> option Z.
Variable float_of_str : string -> option float.

Local Abbreviation number := (validate_number int_of_str float_of_str).

Lemma is_continuation_lower (c : ascii) :
  is_continuation (lower_char c) = is_continuation c.
Proof. destruct c as [[] [] [] [] [] [] [] []]; reflexivity. Qed.

Lemma chars_lower (l : list ascii) :
  chars (map lower_char l) = map (map lower_char) (chars l).
Proof.
  induction l as [|c l IH]; [reflexivity|].
  cbn [map]. rewrite !chars_cons, IH.
  destruct (chars l) as [|[|d ch] rest]; try reflexivity.
  cbn [map]. rewrite is_continuation_lower.
  by destruct (is_continuation d).
Qed.

Lemma lower_char_inv (c : ascii) :
  not_letter (lower_char c) = true -> lower_char c = c.
Proof.
  destruct c as [[] [] [] [] [] [] [] []]; intros H;
    first [reflexivity | discriminate H].
Qed.

Lemma lower_char_not_letter (b : ascii) :
  not_letter b = true -> lower_char b = b.
Proof.
  destruct b as [[] [] [] [] [] [] [] []]; intros H;
    first [reflexivity | discriminate H].
Qed.

Lemma lower_char_eqb (b c : ascii) :
  not_letter b = true -> Ascii.eqb (lower_char c) b = Ascii.eqb c b.
Proof.
  intros Hb. destruct (Ascii.eqb_spec c b) as [->|Hne].
  - rewrite (lower_char_not_letter b Hb). apply Ascii.eqb_refl.
  - apply Ascii.eqb_neq. intros He. apply Hne.
    rewrite <- He in Hb. by rewrite <- (lower_char_inv c Hb).
Qed.

Lemma same_lower (w ch : list ascii) :
  forallb not_letter w = true -> same (map lower_char ch) w = same ch w.
Proof.
  revert ch. induction w as [|b w IH]; intros [|c ch] Hw; try reflexivity.
  cbn [forallb] in Hw. apply andb_true_iff in Hw as [Hb Hw].
  cbn [map same]. by rewrite (lower_char_eqb b c Hb), (IH ch Hw).
Qed.

(** The letters A to Z are in no space character. *)
Lemma isspace_lower (ch : list ascii) :
  isspace (map lower_char ch) = isspace ch.
Proof.
  unfold isspace.
  assert (forallb (fun cp => forallb not_letter (utf8 cp)) whitespace = true) as Hw
    by (vm_compute; reflexivity).
  induction whitespace as [|cp l IH]; [reflexivity|].
  cbn [forallb] in Hw. apply andb_true_iff in Hw as [Hcp Hl].
  cbn [existsb]. by rewrite (same_lower _ ch Hcp), (IH Hl).
Qed.

Lemma lstrip_lower (cs : list (list ascii)) :
  lstrip (map (map lower_char) cs) = map (map lower_char) (lstrip cs).
Proof.
  induction cs as [|ch cs IH]; [reflexivity|].
  cbn [map lstrip]. rewrite isspace_lower. by destruct (isspace ch).
Qed.

Lemma strip_lower (s : string) : strip (lower s) = lower (strip s).
Proof.
  unfold strip, lower. rewrite !list_ascii_of_string_of_list_ascii.
  rewrite chars_lower, lstrip_lower, <- map_rev, lstrip_lower, <- map_rev.
  by rewrite concat_map.
Qed.

Lemma lower_empty (s : string) : lower s = ""%string <-> s = ""%string.
Proof.
  split; [|by intros ->]. destruct s; [reflexivity|discriminate].
Qed.

(** X12.  [validate_number] ignores the space around its argument and
    raises nothing but ValueError.  What it returns is never a bool: it is
    the int that [int] reads when the stripped text holds none of the
    characters ".", "e", "E", and the float that [float] reads when it
    holds one of them. *)
Theorem validate_number_reads (s : string) :
  number (strip s) = number s
  /\ (forall e, number s = Raise e -> exn_type e = ValueError)
  /\ (forall v, number s = Ok v ->
        strip s <> ""%string
        /\ match v with
           | VInt z =>
               contains "." (strip s) = false /\ contains "e" (strip s) = false
               /\ contains "E" (strip s) = false /\ int_of_str (strip s) = Some z
           | VFloat f =>
               (contains "." (strip s) = true \/ contains "e" (strip s) = true
                \/ contains "E" (strip s) = true)
               /\ float_of_str (strip s) = Some f
           | VBool _ => False
           end).
Proof.
  split; [unfold validate_number; by rewrite strip_idempotent|].
  unfold validate_number. rewrite contains_e_lower.
  destruct (String.eqb_spec (strip s) "") as [He|Hne].
  { split; [by intros e [= <-]|discriminate]. }
  destruct (contains "." (strip s)), (contains "e" (strip s)),
    (contains "E" (strip s)); cbn [negb andb orb];
    try (destruct (float_of_str (strip s)) as [f|]; cbn [option_map];
         (split; [by intros e [= <-]|]); [intros v [= <-]; auto 6|discriminate]).
  destruct (int_of_str (strip s)) as [z|]; cbn [option_map];
    (split; [by intros e [= <-]|]); [intros v [= <-]; auto 6|discriminate].
Qed.

(** X13.  [validate_operation] ignores the space around its argument and
    the case of its letters, raises nothing but ValueError, and returns
    the stripped text in the case it was typed, which is one of the eight
    operation names once in lower case; validating its result again
    returns it. *)
Theorem validate_operation_accepts (s : string) :
  validate_operation (strip s) = validate_operation s
  /\ is_ok (validate_operation (lower s)) = is_ok (validate_operation s)
  /\ (forall e, validate_operation s = Raise e -> exn_type e = ValueError)
  /\ (forall o, validate_operation s = Ok o ->
        o = strip s /\ lower o ∈ valid_operations
        /\ validate_operation o = Ok o).
Proof.
  split; [unfold validate_operation; by rewrite strip_idempotent|].
  split.
  { unfold validate_operation. rewrite strip_lower, lower_idempotent.
    destruct (String.eqb_spec (strip s) "") as [->|Hne]; [reflexivity|].
    destruct (String.eqb_spec (lower (strip s)) "") as [He|_];
      [apply (proj1 (lower_empty _)) in He; contradiction|].
    destruct (existsb _ _); reflexivity. }
  unfold validate_operation at 1 2.
  destruct (String.eqb_spec (strip s) "") as [He|Hne].
  { split; [by intros e [= <-]|discriminate]. }
  destruct (existsb (String.eqb (lower (strip s))) valid_operations) eqn:Hv;
    cbn [negb]; (split; [try discriminate; by intros e [= <-]|]); [|discriminate].
  intros o [= <-]. split; [reflexivity|]. split.
  - apply existsb_exists in Hv as (x & Hin & ->%String.eqb_eq).
    by apply list_elem_of_In.
  - unfold validate_operation. rewrite strip_idempotent.
    destruct (String.eqb_spec (strip s) ""); [done|]. by rewrite Hv.
Qed.

End ValidatorProperties.

(** ** calculator/__init__.py: the history object *)

Section HistoryMore.
Import Py Calculator.

Variable Calculation : Type.

Local Abbreviation heap := (gmap loc (list Calculation)).
Local Abbreviation call := (call Calculation).
Local Abbreviation called := (called Calculation).

Implicit Types (self : CalculatorHistory) (h : heap).

Lemma call_items self (m : history_call Calculation) h :
  is_Some (h !! _history self) ->
  is_Some (call self m h !! _history self)
  /\ call self m h !!! _history self = called (h !!! _history self) m
  /\ forall l, l <> _history self -> call self m h !! l = h !! l.
Proof.
  intros [items Hi]. destruct m as [c|]; cbn [Calculator.call Calculator.called];
    unfold add_calculation, clear_history.
  - split; [rewrite lookup_alter_eq, Hi; by eexists|].
    split; [|intros l Hl; by apply lookup_alter_ne].
    by rewrite lookup_total_alter_eq, (lookup_total_correct _ _ _ Hi), Hi.
  - split; [rewrite lookup_alter_eq, Hi; by eexists|].
    split; [|intros l Hl; by apply lookup_alter_ne].
    by rewrite lookup_total_alter_eq, Hi.
Qed.

Lemma calls_items self (ms : list (history_call Calculation)) h :
  is_Some (h !! _history self) ->
  foldl (fun h m => call self m h) h ms !!! _history self
  = foldl called (h !!! _history self) ms
  /\ forall l, l <> _history self ->
       foldl (fun h m => call self m h) h ms !! l = h !! l.
Proof.
  revert h. induction ms as [|m ms IH]; intros h Hs; [by split|].
  cbn [foldl]. destruct (call_items self m h Hs) as (Hs' & Hitems & Hother).
  destruct (IH _ Hs') as [-> Hrest]. rewrite Hitems. split; [reflexivity|].
  intros l Hl. rewrite (Hrest l Hl). by apply Hother.
Qed.

(** X14.  The list that [get_history] returned is a snapshot: whatever
    calculations are added to the history afterwards, and whether it is
    cleared, the returned list keeps the items it had.  The history
    itself follows the calls: each [add_calculation] appends one item at
    the end, [clear_history] leaves it empty, and [len] and
    [get_last_calculation] are the length and the last item of that
    list. *)
Theorem history_snapshot self h (ms : list (history_call Calculation)) :
  is_Some (h !! _history self) ->
  let l := fst (get_history Calculation self h) in
  let h1 := snd (get_history Calculation self h) in
  let h2 := foldl (fun h m => call self m h) h1 ms in
  h2 !!! l = h !!! _history self
  /\ h2 !!! _history self = foldl called (h !!! _history self) ms
  /\ __len__ Calculation self h2 = length (foldl called (h !!! _history self) ms)
  /\ get_last_calculation Calculation self h2
     = last (foldl called (h !!! _history self) ms).
Proof.
  intros Hs l h1 h2.
  pose proof (get_history_fresh Calculation self h Hs) as Hne. fold l in Hne.
  assert (h1 !! _history self = h !! _history self) as H1
    by (unfold h1; cbn; by apply lookup_insert_ne).
  assert (is_Some (h1 !! _history self)) as Hs1 by (by rewrite H1).
  destruct (calls_items self ms h1 Hs1) as [Hitems Hother]. fold h2 in Hitems, Hother.
  assert (h1 !!! _history self = h !!! _history self) as Ht
    by (by rewrite !lookup_total_alt, H1).
  rewrite Ht in Hitems.
  split.
  - rewrite !lookup_total_alt, (Hother l Hne). unfold h1, l. cbn.
    by rewrite lookup_insert_eq.
  - split; [exact Hitems|]. unfold __len__.
    by rewrite get_last_calculation_last, Hitems.
Qed.

End HistoryMore.

(** ** calculator/__init__.py: the commands and the loop *)

Section LoopProperties.
Import Py PyStr Calculator.

Variable Calculation : Type.
Variable create_calculation : value -> value -> string -> result Calculation.
Variable execute : Calculation -> result Calculation.
Variable calculation_str : Calculation -> result string.
Variable int_of_str : string -> option Z.
Variable float_of_str : string -> option float.
Variable timestamp_str : Calculation -> string.

Local Abbreviation heap := (gmap loc (list Calculation)).
Local Abbreviation state := (state Calculation).
Local Abbreviation heap_of := (heap_of Calculation).
Local Abbreviation running := (running Calculation).
Local Abbreviation printed := (printed Calculation).
Local Abbreviation print := (print Calculation).
Local Abbreviation items := (items Calculation).
Local Abbreviation number := (validate_number int_of_str float_of_str).
Local Abbreviation handle :=
  (_handle_calculation Calculation create_calculation execute calculation_str
     int_of_str float_of_str).
Local Abbreviation accepted_calculation :=
  (accepted_calculation Calculation create_calculation execute int_of_str
     float_of_str).
Local Abbreviation print_history :=
  (print_history Calculation calculation_str timestamp_str).
Local Abbreviation _handle_history :=
  (_handle_history Calculation calculation_str timestamp_str).
Local Abbreviation _process_command :=
  (_process_command Calculation create_calculation execute calculation_str
     int_of_str float_of_str timestamp_str).
Local Abbreviation run_loop :=
  (run_loop Calculation create_calculation execute calculation_str
     int_of_str float_of_str timestamp_str).
Local Abbreviation start :=
  (start Calculation create_calculation execute calculation_str
     int_of_str float_of_str timestamp_str).
Local Abbreviation main :=
  (main Calculation create_calculation execute calculation_str
     int_of_str float_of_str timestamp_str).
Local Abbreviation session_history :=
  (session_history Calculation create_calculation execute int_of_str
     float_of_str).

Implicit Types (self : Calculator) (st : state).

(** What a part of [split] can raise in the validators. *)
Lemma number_part (p : string) (e : exn) :
  strip p = p -> p <> ""%string -> number p = Raise e ->
  e = Exn ValueError ("'" +:+ p +:+ "' is not a valid number").
Proof.
  intros Hp Hne. unfold validate_number. rewrite Hp.
  destruct (String.eqb_spec p ""); [done|].
  match goal with
  | |- context [match ?c with Some _ => _ | None => _ end] => destruct c
  end; [discriminate|]. by intros [= <-].
Qed.

Lemma operation_part (p : string) (e : exn) :
  strip p = p -> p <> ""%string -> validate_operation p = Raise e ->
  e = Exn ValueError
        ("Unsupported operation: '" +:+ p +:+ "'. "
         +:+ "Valid operations: " +:+ valid_operations_repr).
Proof.
  intros Hp Hne. unfold validate_operation. rewrite Hp.
  destruct (String.eqb_spec p ""); [done|].
  destruct (negb _); [|discriminate]. by intros [= <-].
Qed.

Lemma report_line (e : exn) st :
  exists line,
    (if is_ValueError e then print ("Calculation Error: " +:+ exn_msg e) st
     else print ("Unexpected calculation error: " +:+ exn_msg e) st)
    = print line st
    /\ line <> "Input Error: Empty input is not a valid number"%string
    /\ line <> "Input Error: Operation cannot be empty"%string.
Proof.
  destruct (is_ValueError e); eexists; (split; [reflexivity|]); split; discriminate.
Qed.

(** X15.  [_handle_calculation] prints the two lines of the format error
    exactly when the input does not split into three parts, and a single
    line otherwise.  The parts of the input hold no space, so the
    validators never meet an empty text: the messages "Empty input is not
    a valid number" and "Operation cannot be empty" are never printed. *)
Theorem handle_calculation_reports self (expression : string) st :
  exists new,
    printed (handle self expression st) = printed st ++ new
    /\ (length (split expression) <> 3%nat ->
        new = ["Error: Please enter calculation in format: <number> <operation> <number>";
               "Example: 5 + 3 or 10 / 2"]%string)
    /\ (length (split expression) = 3%nat -> length new = 1%nat)
    /\ ("Input Error: Empty input is not a valid number" ∉ new)
    /\ ("Input Error: Operation cannot be empty" ∉ new).
Proof.
  assert (forall a b : string, a <> b -> a ∉ [b]) as Hsingle
    by (intros a b Hab ->%list_elem_of_singleton; done).
  assert (forall line st0,
            printed st0 = printed st ->
            line <> "Input Error: Empty input is not a valid number"%string ->
            line <> "Input Error: Operation cannot be empty"%string ->
            exists new,
              printed (print line st0) = printed st ++ new
              /\ (3%nat <> 3%nat ->
                  new = ["Error: Please enter calculation in format: <number> <operation> <number>";
                         "Example: 5 + 3 or 10 / 2"]%string)
              /\ (3%nat = 3%nat -> length new = 1%nat)
              /\ ("Input Error: Empty input is not a valid number" ∉ new)
              /\ ("Input Error: Operation cannot be empty" ∉ new)) as Hone.
  { intros line st0 Hst0 H1 H2. exists [line]. cbn [Calculator.printed Calculator.print].
    rewrite Hst0. split; [reflexivity|]. split; [done|]. split; [reflexivity|].
    split; apply Hsingle; congruence. }
  unfold _handle_calculation.
  destruct (split expression) as [|p0 [|p1 [|p2 [|p3 ps]]]] eqn:Hsplit;
    try (eexists; split; [cbn; rewrite <- app_assoc; reflexivity|];
         split; [reflexivity|]; split; [discriminate|];
         split; intros H; repeat (apply elem_of_cons in H as [H|H]; [discriminate|]);
         by apply elem_of_nil in H).
  cbn [length].
  destruct (split_parts expression p0) as (Hn0 & Hp0);
    [rewrite Hsplit; set_solver|].
  destruct (split_parts expression p1) as (Hn1 & Hp1);
    [rewrite Hsplit; set_solver|].
  destruct (split_parts expression p2) as (Hn2 & Hp2);
    [rewrite Hsplit; set_solver|].
  destruct (number p0) as [num1|e0] eqn:H0; cbn [bind].
  2:{ rewrite (number_part p0 e0 Hp0 Hn0 H0). cbn [is_ValueError exn_type exn_class_eqb exn_msg].
      apply Hone; [reflexivity|discriminate|discriminate]. }
  destruct (validate_operation p1) as [operation|e1] eqn:H1; cbn [bind].
  2:{ rewrite (operation_part p1 e1 Hp1 Hn1 H1). cbn [is_ValueError exn_type exn_class_eqb exn_msg].
      apply Hone; [reflexivity|discriminate|discriminate]. }
  destruct (number p2) as [num2|e2] eqn:H2; cbn [bind].
  2:{ rewrite (number_part p2 e2 Hp2 Hn2 H2). cbn [is_ValueError exn_type exn_class_eqb exn_msg].
      apply Hone; [reflexivity|discriminate|discriminate]. }
  destruct (create_calculation num1 num2 operation) as [c|e3]; cbn [bind].
  2:{ destruct (report_line e3 st) as (line & -> & Hl1 & Hl2). by apply Hone. }
  destruct (execute c) as [c1|e4].
  2:{ destruct (report_line e4 st) as (line & -> & Hl1 & Hl2). by apply Hone. }
  destruct (calculation_str c1) as [line|e5].
  - apply Hone; [reflexivity|discriminate|discriminate].
  - match goal with
    | |- context [if _ then print _ ?s else _] =>
        destruct (report_line e5 s) as (line & -> & Hl1 & Hl2)
    end.
    by apply Hone.
Qed.

(** *** What a command does to the state *)

(** The lists of [h] are still there in [h'], and none but the history
    list has changed. *)
Lemma frame_refl self (h : heap) :
  forall l, is_Some (h !! l) ->
    is_Some (h !! l) /\ (l <> _history (history self) -> h !! l = h !! l).
Proof. auto. Qed.

Lemma frame_trans self (h1 h2 h3 : heap) :
  (forall l, is_Some (h1 !! l) ->
     is_Some (h2 !! l) /\ (l <> _history (history self) -> h2 !! l = h1 !! l)) ->
  (forall l, is_Some (h2 !! l) ->
     is_Some (h3 !! l) /\ (l <> _history (history self) -> h3 !! l = h2 !! l)) ->
  forall l, is_Some (h1 !! l) ->
    is_Some (h3 !! l) /\ (l <> _history (history self) -> h3 !! l = h1 !! l).
Proof.
  intros H12 H23 l Hl. destruct (H12 l Hl) as [Hl2 He2].
  destruct (H23 l Hl2) as [Hl3 He3]. split; [exact Hl3|].
  intros Hne. by rewrite He3, He2.
Qed.

Lemma frame_alter self (f : list Calculation -> list Calculation) (h : heap) :
  forall l, is_Some (h !! l) ->
    is_Some (alter f (_history (history self)) h !! l)
    /\ (l <> _history (history self) ->
        alter f (_history (history self)) h !! l = h !! l).
Proof.
  intros l [x Hl]. split; [|intros Hne; by apply lookup_alter_ne].
  destruct (decide (_history (history self) = l)) as [->|Hne].
  - rewrite lookup_alter_eq, Hl. by eexists.
  - rewrite lookup_alter_ne, Hl by done. by eexists.
Qed.

Lemma frame_fresh self (x : list Calculation) (h : heap) :
  forall l, is_Some (h !! l) ->
    is_Some (<[fresh (dom h) := x]> h !! l)
    /\ (l <> _history (history self) -> <[fresh (dom h) := x]> h !! l = h !! l).
Proof.
  intros l Hl.
  assert (fresh (dom h) <> l) as Hne.
  { intros <-. apply (is_fresh (dom h)). by apply elem_of_dom. }
  rewrite lookup_insert_ne by exact Hne. auto.
Qed.

Lemma print_history_effect (calcs : list Calculation) (i : nat) st :
  heap_of (snd (print_history i calcs st)) = heap_of st
  /\ running (snd (print_history i calcs st)) = running st
  /\ printed st `prefix_of` printed (snd (print_history i calcs st)).
Proof.
  revert i st. induction calcs as [|c calcs IH]; intros i st; cbn [Calculator.print_history].
  - by split.
  - destruct (calculation_str c) as [line|e]; [|by split].
    destruct (IH (S i) (print (format_2d i +:+ ". [" +:+ timestamp_str c +:+ "] " +:+ line) st))
      as (-> & -> & Hp).
    split; [reflexivity|]. split; [reflexivity|].
    etrans; [|exact Hp]. by apply prefix_app_r.
Qed.

Lemma handle_history_effect self st :
  (forall l, is_Some (heap_of st !! l) ->
     is_Some (heap_of (snd (_handle_history self st)) !! l)
     /\ (l <> _history (history self) ->
         heap_of (snd (_handle_history self st)) !! l = heap_of st !! l))
  /\ items self (snd (_handle_history self st)) = items self st
  /\ running (snd (_handle_history self st)) = running st
  /\ printed st `prefix_of` printed (snd (_handle_history self st)).
Proof.
  unfold Calculator._handle_history, __len__.
  destruct (length (heap_of st !!! _history (history self)) =? 0)%nat eqn:Hlen.
  - cbn. split; [apply frame_refl|]. split; [reflexivity|]. split; [reflexivity|].
    by apply prefix_app_r.
  - cbn [get_history Calculator.heap_of Calculator.print Calculator.running
         Calculator.printed].
    match goal with
    | |- context [print_history 1 ?cs ?s] =>
        destruct (print_history_effect cs 1 s) as (Hh & Hr & Hp)
    end.
    unfold Calculator.items. rewrite Hh, Hr. cbn [Calculator.heap_of Calculator.running
      Calculator.printed] in *.
    assert (is_Some (heap_of st !! _history (history self))) as Hs.
    { destruct (heap_of st !! _history (history self)) as [x|] eqn:Hx; [by eexists|].
      rewrite lookup_total_alt, Hx in Hlen. discriminate. }
    split; [apply frame_fresh|]. split.
    + rewrite !lookup_total_alt. f_equal. apply lookup_insert_ne.
      intros Heq. apply (is_fresh (dom (heap_of st))). rewrite Heq.
      by apply elem_of_dom.
    + split; [reflexivity|]. etrans; [|exact Hp].
      rewrite <- app_assoc. by apply prefix_app_r.
Qed.

Lemma handle_calculation_effect self (expression : string) st :
  heap_of (handle self expression st)
  = match accepted_calculation expression with
    | Some c => add_calculation Calculation (history self) c (heap_of st)
    | None => heap_of st
    end
  /\ running (handle self expression st) = running st
  /\ printed st `prefix_of` printed (handle self expression st).
Proof.
  assert (forall (b : bool) l1 l2 s,
            heap_of (if b then print l1 s else print l2 s) = heap_of s
            /\ running (if b then print l1 s else print l2 s) = running s
            /\ printed s `prefix_of` printed (if b then print l1 s else print l2 s))
    as Hreport.
  { intros [] l1 l2 s; (split; [reflexivity|]); (split; [reflexivity|]);
      by apply prefix_app_r. }
  unfold _handle_calculation, Calculator.accepted_calculation.
  destruct (split expression) as [|p0 [|p1 [|p2 [|p3 ps]]]];
    try (split; [reflexivity|]; split; [reflexivity|];
         cbn; rewrite <- app_assoc; by apply prefix_app_r).
  destruct (number p0) as [num1|e0]; cbn [bind]; [|apply Hreport].
  destruct (validate_operation p1) as [operation|e1]; cbn [bind]; [|apply Hreport].
  destruct (number p2) as [num2|e2]; cbn [bind]; [|apply Hreport].
  destruct (create_calculation num1 num2 operation) as [c|e3]; cbn [bind];
    [|apply Hreport].
  destruct (execute c) as [c1|e4]; [|apply Hreport].
  destruct (calculation_str c1) as [line|e5].
  - split; [reflexivity|]. split; [reflexivity|]. by apply prefix_app_r.
  - match goal with
    | |- context [if ?b then print ?l1 ?s else print ?l2 ?s] =>
        destruct (Hreport b l1 l2 s) as (-> & -> & Hp)
    end.
    split; [reflexivity|]. split; [reflexivity|]. exact Hp.
Qed.

Lemma process_command_cases self (command : string) st :
  _process_command self command st
  = match classify command with
    | ExitCommand => (None, _handle_exit Calculation self st)
    | HelpCommand => (None, _handle_help Calculation self st)
    | HistoryCommand => _handle_history self st
    | ClearCommand => (None, _handle_clear_history Calculation self st)
    | CalculationInput => (None, handle self command st)
    end.
Proof.
  unfold Calculator._process_command, classify.
  repeat match goal with
         | |- context [existsb ?f ?l] => destruct (existsb f l)
         end; reflexivity.
Qed.

(** The effect of a command on the history, the flag and the output. *)
Lemma process_command_effect self (command : string) st :
  is_Some (heap_of st !! _history (history self)) ->
  let st' := snd (_process_command self command st) in
  (forall l, is_Some (heap_of st !! l) ->
     is_Some (heap_of st' !! l)
     /\ (l <> _history (history self) -> heap_of st' !! l = heap_of st !! l))
  /\ items self st'
     = match classify command with
       | ClearCommand => []
       | CalculationInput =>
           match accepted_calculation command with
           | Some c => items self st ++ [c]
           | None => items self st
           end
       | _ => items self st
       end
  /\ running st'
     = match classify command with
       | ExitCommand => false
       | _ => running st
       end
  /\ printed st `prefix_of` printed st'.
Proof.
  intros Hs. cbn zeta. rewrite process_command_cases.
  destruct (classify command); cbn [snd].
  - split; [apply frame_refl|]. split; [reflexivity|]. split; [reflexivity|].
    by apply prefix_app_r.
  - split; [apply frame_refl|]. split; [reflexivity|]. split; [reflexivity|].
    by apply prefix_app_r.
  - apply handle_history_effect.
  - split; [apply frame_alter|]. split.
    + unfold Calculator.items. cbn. unfold clear_history.
      destruct Hs as [x Hx]. by rewrite lookup_total_alter_eq, Hx.
    + split; [reflexivity|]. by apply prefix_app_r.
  - destruct (handle_calculation_effect self command st) as (Hh & Hr & Hp).
    unfold Calculator.items. rewrite Hh, Hr.
    destruct (accepted_calculation command) as [c|].
    + split; [apply frame_alter|]. split; [|by split].
      by apply add_calculation_items.
    + split; [apply frame_refl|]. by split.
Qed.

Lemma classify_empty (s : string) :
  (s =? "")%string = true -> classify s = CalculationInput.
Proof. by intros ->%String.eqb_eq. Qed.

Lemma run_loop_stopped self (inputs : list input_event) st :
  running st = false -> run_loop self inputs st = st.
Proof. intros H. destruct inputs as [|[]]; cbn; by rewrite H. Qed.

(** The loop, one input at a time. *)
Lemma run_loop_effect self (inputs : list input_event) st :
  is_Some (heap_of st !! _history (history self)) ->
  let st' := run_loop self inputs st in
  (forall l, is_Some (heap_of st !! l) ->
     is_Some (heap_of st' !! l)
     /\ (l <> _history (history self) -> heap_of st' !! l = heap_of st !! l))
  /\ items self st'
     = (if running st then session_history inputs (items self st) else items self st)
  /\ printed st `prefix_of` printed st'.
Proof.
  cbn zeta. revert st. induction inputs as [|ev inputs IH]; intros st Hs.
  - cbn. destruct (running st); (split; [apply frame_refl|]); (split; [reflexivity|]);
      [by apply prefix_app_r|reflexivity].
  - destruct (running st) eqn:Hrun;
      [|rewrite run_loop_stopped by exact Hrun;
        split; [apply frame_refl|]; by split].
    destruct ev as [s| | |e]; cbn [Calculator.run_loop Calculator.session_history];
      rewrite Hrun.
    + destruct (String.eqb (strip s) "") eqn:He.
      { specialize (IH st Hs). by rewrite Hrun in IH. }
      pose proof (process_command_effect self (strip s) st Hs) as Hc. cbn zeta in Hc.
      destruct (_process_command self (strip s) st) as [[e|] st1]; cbn [snd] in Hc;
        destruct Hc as (Hf & Hi & Hr & Hp).
      * assert (is_Some (heap_of (unexpected Calculation e st1)
                           !! _history (history self))) as Hs1
          by (apply (Hf _ Hs)).
        destruct (IH (unexpected Calculation e st1) Hs1) as (Hf' & Hi' & Hp').
        split; [exact (frame_trans self _ _ _ Hf Hf')|]. split.
        -- rewrite Hi'. cbn [Calculator.running Calculator.unexpected Calculator.print].
           unfold Calculator.items in *. cbn [Calculator.heap_of Calculator.unexpected
             Calculator.print]. rewrite Hr, Hi.
           destruct (classify (strip s)); rewrite ?Hrun; try reflexivity.
           by destruct (accepted_calculation (strip s)).
        -- etrans; [exact Hp|]. etrans; [|exact Hp']. by apply prefix_app_r.
      * assert (is_Some (heap_of st1 !! _history (history self))) as Hs1
          by (apply (Hf _ Hs)).
        destruct (IH st1 Hs1) as (Hf' & Hi' & Hp').
        split; [exact (frame_trans self _ _ _ Hf Hf')|]. split.
        -- rewrite Hi', Hr, Hi.
           destruct (classify (strip s)); rewrite ?Hrun; try reflexivity.
           by destruct (accepted_calculation (strip s)).
        -- by etrans.
    + split; [apply frame_refl|]. split; [reflexivity|]. by apply prefix_app_r.
    + split; [apply frame_refl|]. split; [reflexivity|]. by apply prefix_app_r.
    + destruct (IH (unexpected Calculation e st) Hs) as (Hf & Hi & Hp).
      split; [exact Hf|]. split.
      * rewrite Hi. cbn. by rewrite Hrun.
      * etrans; [|exact Hp]. by apply prefix_app_r.
Qed.

Lemma process_command_running self (command : string) st :
  running (snd (_process_command self command st))
  = match classify command with
    | ExitCommand => false
    | _ => running st
    end.
Proof.
  rewrite process_command_cases. destruct (classify command); cbn [snd];
    try reflexivity.
  - apply handle_history_effect.
  - apply handle_calculation_effect.
Qed.

Lemma process_command_exit self (command : string) st :
  classify command = ExitCommand ->
  _process_command self command st = (None, _handle_exit Calculation self st).
Proof. intros H. by rewrite process_command_cases, H. Qed.

(** X16.  The history at the end of [start] holds the calculations that
    were executed since the last clear command, in the order of the
    input: empty lines, help, history and failed inputs add nothing, and
    nothing is read after an exit command, Ctrl-C or the end of the
    input.  No other list of the heap is changed, and the output starts
    with what was printed before, then the welcome text. *)
Theorem start_records_session self (inputs : list input_event) st :
  is_Some (heap_of st !! _history (history self)) ->
  items self (start self inputs st) = session_history inputs (items self st)
  /\ (forall l, is_Some (heap_of st !! l) -> l <> _history (history self) ->
        heap_of (start self inputs st) !! l = heap_of st !! l)
  /\ (printed st ++ [welcome_text]) `prefix_of` printed (start self inputs st).
Proof.
  intros Hs. unfold Calculator.start.
  match goal with
  | |- context [run_loop self inputs ?s] =>
      destruct (run_loop_effect self inputs s Hs) as (Hf & Hi & Hp)
  end.
  split; [exact Hi|]. split; [|exact Hp].
  intros l Hl Hne. by apply Hf.
Qed.

(** X17.  The last line that [start] prints tells how the session ended:
    the goodbye when it was ended by an exit command (exit, quit, q in
    any case), and "Exiting calculator..." after Ctrl-C or the end of the
    input.  After an exit command [running] is false. *)
Theorem start_ends self (inputs : list input_event) st :
  last (printed (start self inputs st))
  = Some (if exit_requested inputs
          then "Thank you for using the calculator. Goodbye!"
          else newline +:+ newline +:+ "Exiting calculator...")
  /\ (exit_requested inputs = true -> running (start self inputs st) = false).
Proof.
  enough (running (start self inputs st) = negb (exit_requested inputs)
          /\ last (printed (start self inputs st))
             = Some (if exit_requested inputs
                     then "Thank you for using the calculator. Goodbye!"
                     else newline +:+ newline +:+ "Exiting calculator..."))
    as [Hr Hl] by (split; [exact Hl|intros He; by rewrite Hr, He]).
  unfold Calculator.start.
  match goal with
  | |- context [run_loop self inputs ?s] =>
      assert (running s = true) as Hrun by reflexivity; revert Hrun;
      generalize s
  end.
  clear st. induction inputs as [|ev inputs IH]; intros st Hrun.
  - cbn. rewrite Hrun. split; [exact Hrun|]. cbn. apply last_snoc.
  - destruct ev as [s| | |e]; cbn [Calculator.run_loop exit_requested]; rewrite Hrun.
    + destruct (String.eqb (strip s) "") eqn:He.
      { rewrite (classify_empty _ He). by apply IH. }
      pose proof (process_command_running self (strip s) st) as Hr.
      destruct (classify (strip s)) eqn:Hc;
        try (destruct (_process_command self (strip s) st) as [[e|] st1];
             cbn [snd] in Hr; apply IH; cbn; congruence).
      rewrite (process_command_exit self _ st Hc), run_loop_stopped by reflexivity.
      split; [reflexivity|]. cbn. apply last_snoc.
    + split; [exact Hrun|]. cbn. apply last_snoc.
    + split; [exact Hrun|]. cbn. apply last_snoc.
    + by apply IH.
Qed.

(** X18.  Nothing that follows the end of a session has an effect: with
    an exit command, Ctrl-C or the end of the input among the inputs,
    [start] leaves the same state whatever comes after it. *)
Theorem inputs_after_end_ignored self (pre post : list input_event)
    (ev : input_event) st :
  ends_session ev = true ->
  start self (pre ++ ev :: post) st = start self (pre ++ [ev]) st.
Proof.
  intros Hev. unfold Calculator.start.
  match goal with
  | |- run_loop self _ ?s = _ => generalize s
  end.
  clear st. induction pre as [|x pre IH]; intros st.
  - cbn [app]. destruct (running st) eqn:Hrun;
      [|by rewrite !run_loop_stopped].
    destruct ev as [s| | |e]; try discriminate; cbn [Calculator.run_loop];
      rewrite Hrun; try reflexivity.
    cbn [ends_session] in Hev.
    destruct (String.eqb (strip s) "") eqn:He;
      [by rewrite (classify_empty _ He) in Hev|].
    destruct (classify (strip s)) eqn:Hc; try discriminate.
    rewrite (process_command_exit self _ st Hc).
    by rewrite !run_loop_stopped.
  - cbn [app]. destruct x as [s| | |e]; cbn [Calculator.run_loop];
      destruct (running st); try reflexivity.
    + destruct (String.eqb (strip s) ""); [apply IH|].
      destruct (_process_command self (strip s) st) as [[e|] st1]; apply IH.
    + apply IH.
Qed.

(** X19.  [main] builds a calculator whose history is a new list, runs
    the session on it, and touches nothing else: the history ends with
    the calculations of the session, and every list that existed before
    is as it was. *)
Theorem main_is_isolated (inputs : list input_event) (h : heap) :
  let calculator := fst (main inputs h) in
  let st := snd (main inputs h) in
  h !! _history (history calculator) = None
  /\ items calculator st = session_history inputs []
  /\ forall l its, h !! l = Some its -> heap_of st !! l = Some its.
Proof.
  cbn zeta. unfold Calculator.main, Calculator_init, CalculatorHistory_init.
  cbn [fst snd history _history].
  set (l0 := fresh (dom h)).
  set (self := {| history := {| _history := l0 |} |}).
  set (st0 := {| Calculator.heap_of := <[l0 := []]> h;
                 Calculator.running := false; Calculator.printed := [] |}).
  assert (h !! l0 = None) as Hfresh
    by (apply not_elem_of_dom, is_fresh).
  assert (is_Some (heap_of st0 !! _history (history self))) as Hs
    by (cbn; rewrite lookup_insert_eq; by eexists).
  unfold Calculator.start.
  match goal with
  | |- context [run_loop self inputs ?s] =>
      destruct (run_loop_effect self inputs s Hs) as (Hf & Hi & _)
  end.
  split; [exact Hfresh|]. split.
  - rewrite Hi. cbn. unfold Calculator.items. cbn.
    by rewrite lookup_total_insert_eq.
  - intros l its Hl.
    assert (l <> l0) as Hne by (intros ->; congruence).
    destruct (Hf l) as [_ He].
    + cbn. rewrite lookup_insert_ne by done. by eexists.
    + rewrite (He Hne). cbn. by rewrite lookup_insert_ne.
Qed.

Lemma print_history_lines (calcs : list Calculation) :
  (forall c, c ∈ calcs -> is_ok (calculation_str c) = true) ->
  forall (i : nat) st,
  exists body,
    fst (print_history i calcs st) = None
    /\ printed (snd (print_history i calcs st)) = printed st ++ body
    /\ length body = length calcs
    /\ forall k c, calcs !! k = Some c ->
         exists line, calculation_str c = Ok line
           /\ body !! k
              = Some (format_2d (i + k) +:+ ". [" +:+ timestamp_str c +:+ "] "
                      +:+ line).
Proof.
  induction calcs as [|c calcs IH]; intros Hok i st; cbn [Calculator.print_history].
  - exists []. split; [reflexivity|]. split; [by rewrite app_nil_r|].
    split; [reflexivity|]. intros k c. by rewrite lookup_nil.
  - pose proof (Hok c (list_elem_of_here _ _)) as Hc.
    destruct (calculation_str c) as [line|e] eqn:Hline; [|discriminate].
    destruct (IH (fun x Hx => Hok x (list_elem_of_further _ _ _ Hx)) (S i)
                (print (format_2d i +:+ ". [" +:+ timestamp_str c +:+ "] " +:+ line) st))
      as (body & Hn & Hp & Hlen & Hk).
    exists ((format_2d i +:+ ". [" +:+ timestamp_str c +:+ "] " +:+ line) :: body).
    split; [exact Hn|]. split; [rewrite Hp; cbn; by rewrite <- app_assoc|].
    split; [cbn; by rewrite Hlen|].
    intros [|k] x Hx.
    + injection Hx as <-. exists line. rewrite Nat.add_0_r. by split.
    + destruct (Hk k x Hx) as (lx & Hlx & Hb).
      exists lx. split; [exact Hlx|].
      replace (i + S k)%nat with (S i + k)%nat by lia. exact Hb.
Qed.

(** X20.  [_handle_history] leaves the history as it is.  When [str]
    raises on none of its calculations, it prints the one line "No
    calculations in history." for an empty history, and otherwise a
    header with the number of entries, a rule of forty "=", and one line
    for each calculation in the order of the history, numbered from 1 in
    two columns, with its time and its text. *)
Theorem handle_history_lists self st :
  (forall c, c ∈ items self st -> is_ok (calculation_str c) = true) ->
  items self (snd (_handle_history self st)) = items self st
  /\ fst (_handle_history self st) = None
  /\ exists lines,
       printed (snd (_handle_history self st)) = printed st ++ lines
       /\ match items self st with
          | [] => lines = ["No calculations in history."]
          | its =>
              exists body,
                lines
                = (newline +:+ "Calculation History ("
                   +:+ str_int (Z.of_nat (length its)) +:+ " entries):")
                  :: "========================================" :: body
                /\ length body = length its
                /\ forall k c, its !! k = Some c ->
                     exists line, calculation_str c = Ok line
                       /\ body !! k
                          = Some (format_2d (S k) +:+ ". ["
                                  +:+ timestamp_str c +:+ "] " +:+ line)
          end.
Proof.
  intros Hok. split; [apply handle_history_effect|].
  revert Hok. unfold Calculator._handle_history, __len__, Calculator.items.
  destruct (heap_of st !!! _history (history self)) as [|c its] eqn:Hits.
  - intros _. cbn. split; [reflexivity|]. eexists. split; reflexivity.
  - intros Hok. cbn [length Nat.eqb get_history].
    cbn [Calculator.heap_of Calculator.print Calculator.running
      Calculator.printed]. rewrite lookup_total_insert_eq, Hits.
    match goal with
    | |- context [print_history 1 (c :: its) ?s] =>
        destruct (print_history_lines (c :: its) Hok 1 s)
          as (body & Hn & Hp & Hlen & Hk)
    end.
    split; [exact Hn|]. eexists. split.
    + rewrite Hp. cbn [Calculator.printed]. rewrite <- !app_assoc. reflexivity.
    + exists body. split; [reflexivity|]. split; [exact Hlen|exact Hk].
Qed.

(** X21.  Command words are recognised whatever the case of their
    letters, and a command word is never taken for a calculation: typed
    in capitals, a command does what it does in lower case.  The clear
    command empties the history and reports how many calculations it
    held; it does not stop the loop. *)
Theorem command_words self (command : string) st :
  classify (lower command) = classify command
  /\ (classify command <> CalculationInput ->
      _process_command self (lower command) st = _process_command self command st)
  /\ (classify command = ClearCommand ->
      fst (_process_command self command st) = None
      /\ items self (snd (_process_command self command st)) = []
      /\ running (snd (_process_command self command st)) = running st
      /\ printed (snd (_process_command self command st))
         = printed st
           ++ ["Cleared " +:+ str_int (Z.of_nat (length (items self st)))
               +:+ " calculation(s) from history."]).
Proof.
  assert (classify (lower command) = classify command) as Hl
    by (unfold classify; by rewrite lower_idempotent).
  split; [exact Hl|]. split.
  - intros Hc. rewrite !process_command_cases, Hl.
    by destruct (classify command).
  - intros Hc. rewrite process_command_cases, Hc. cbn [fst snd].
    split; [reflexivity|]. split; [|by split].
    unfold Calculator.items, _handle_clear_history, clear_history. cbn.
    rewrite lookup_total_alter_eq.
    by destruct (heap_of st !! _history (history self)).
Qed.

End LoopProperties.

Section CalculatorWitnesses.
Import Py Calculator Examples.

(** A history of two items: the list that [get_history] returned keeps
    them when the history is cleared and a calculation is added. *)
Lemma history_snapshot_witness :
  let self := {| _history := 1%positive |} in
  let h : gmap loc (list Z) := {[ 1%positive := [10%Z; 20%Z] ]} in
  foldl (fun h m => call Z self m h) (snd (get_history Z self h))
    [ClearHistory Z; AddCalculation Z 5%Z]
  !!! fst (get_history Z self h)
  = [10%Z; 20%Z].
Proof.
  intros self h.
  assert (is_Some (h !! _history self)) as Hs by (exists [10%Z; 20%Z]; reflexivity).
  exact (proj1 (history_snapshot Z self h [ClearHistory Z; AddCalculation Z 5%Z] Hs)).
Defined.

(** The session leaves one calculation in the history, with the result
    8: "1 + 1" comes after the exit. *)
Lemma start_records_session_witness :
  map Calculation.result_
    (items _ calculator
       (start Calculation.Calculation Calculation.create_calculation
          Calculation.execute (Calculation.__str__ integral_repr) plain_int
          plain_float noon calculator session fresh_state))
  = [Some (VInt 8)].
Proof.
  assert (is_Some (heap_of _ fresh_state !! _history (history calculator))) as Hs
    by (exists []; reflexivity).
  rewrite (proj1 (start_records_session Calculation.Calculation
                    Calculation.create_calculation Calculation.execute
                    (Calculation.__str__ integral_repr) plain_int plain_float noon
                    calculator session fresh_state Hs)).
  vm_compute. reflexivity.
Defined.

(** What follows "EXIT" is not read. *)
Lemma inputs_after_end_ignored_witness :
  ends_session (Line "EXIT") = true
  /\ start Calculation.Calculation Calculation.create_calculation
       Calculation.execute (Calculation.__str__ integral_repr) plain_int
       plain_float noon calculator
       ([Line "5 + 3"; Line "history"] ++ Line "EXIT" :: [Line "1 + 1"]) fresh_state
     = start Calculation.Calculation Calculation.create_calculation
         Calculation.execute (Calculation.__str__ integral_repr) plain_int
         plain_float noon calculator
         ([Line "5 + 3"; Line "history"] ++ [Line "EXIT"]) fresh_state.
Proof.
  assert (ends_session (Line "EXIT") = true) as Hev by (vm_compute; reflexivity).
  split; [exact Hev|].
  apply (inputs_after_end_ignored Calculation.Calculation
           Calculation.create_calculation Calculation.execute
           (Calculation.__str__ integral_repr) plain_int plain_float noon
           calculator [Line "5 + 3"; Line "history"] [Line "1 + 1"] (Line "EXIT")
           fresh_state Hev).
Defined.

(** The history of one calculation is listed without an exception. *)
Lemma handle_history_lists_witness :
  fst (_handle_history Calculation.Calculation (Calculation.__str__ integral_repr)
         noon calculator state_after_sum)
  = None.
Proof.
  assert (forall c, c ∈ items _ calculator state_after_sum ->
            is_ok (Calculation.__str__ integral_repr c) = true) as Hok.
  { intros c Hc. change (c ∈ [five_plus_three]) in Hc.
    apply list_elem_of_singleton in Hc as ->. vm_compute. reflexivity. }
  apply (handle_history_lists Calculation.Calculation
           (Calculation.__str__ integral_repr) noon calculator
           state_after_sum Hok).
Defined.

(** Space outside ASCII separates and is stripped like a blank: with
    no-break spaces, "5 + 3" has three parts and is calculated, "exit " is
    the exit command, and "add " is the operation add. *)
Example no_break_space :
  PyStr.split ("5" +:+ nbsp +:+ "+" +:+ nbsp +:+ "3") = ["5"; "+"; "3"]
  /\ PyStr.strip ("exit" +:+ nbsp) = "exit"
  /\ validate_operation ("add" +:+ nbsp) = Ok "add"
  /\ map Calculation.result_
       (items _ calculator
          (_handle_calculation Calculation.Calculation
             Calculation.create_calculation Calculation.execute
             (Calculation.__str__ integral_repr) plain_int plain_float
             calculator ("5" +:+ nbsp +:+ "+" +:+ nbsp +:+ "3") fresh_state))
     = [Some (VInt 8)]
  /\ exit_requested [Line ("exit" +:+ nbsp)] = true.
Proof. repeat split; vm_compute; reflexivity. Qed.

End CalculatorWitnesses.
